(** * Plugin registry maintenance scripts: merge and download-count reconcile

    A shallow embedding of the two registry scripts
    ([scripts/merge-plugins.mjs] and the download-count updater) together
    with the properties their specification states about them. *)

From Stdlib Require Import ZArith String Ascii List Bool Lia DecimalString.
From stdpp Require Import base list strings.
Import ListNotations.
Open Scope Z_scope.
Open Scope string_scope.
Open Scope list_scope.

(** ** JavaScript values produced by [JSON.parse] *)

Module JS.

(** Numbers are the integers the registry stores (download counts); the
    other shapes are the remaining JSON values. *)
#[warnings="-register-all"]
Inductive json : Type :=
| JNull
| JBool (b : bool)
| JNum (n : Z)
| JStr (s : string)
| JArr (elems : list json)
| JObj (props : list (string * json)).

(** The result of reading a property: [None] is [undefined]. *)
Definition value : Type := option json.

(** An object is its own properties in enumeration order, each key once. *)
Definition object : Type := list (string * json).

(** [o.k] *)
Fixpoint get (o : object) (k : string) : value :=
  match o with
  | [] => None
  | (k', v) :: o' => if String.eqb k' k then Some v else get o' k
  end.

(** [o.k = v]: an existing property keeps its place, a new one goes last. *)
Fixpoint put (o : object) (k : string) (v : json) : object :=
  match o with
  | [] => [(k, v)]
  | (k', v') :: o' =>
      if String.eqb k' k then (k', v) :: o' else (k', v') :: put o' k v
  end.

(** ToBoolean *)
Definition truthy (v : value) : bool :=
  match v with
  | None => false
  | Some JNull => false
  | Some (JBool b) => b
  | Some (JNum n) => negb (Z.eqb n 0)
  | Some (JStr s) => negb (String.eqb s "")
  | Some (JArr _) => true
  | Some (JObj _) => true
  end.

(** [v || d] *)
Definition or_default (v : value) (d : json) : json :=
  match v with
  | Some x => if truthy v then x else d
  | None => d
  end.

(** [v ?? d] *)
Definition nullish_default (v : value) (d : json) : json :=
  match v with
  | None => d
  | Some JNull => d
  | Some x => x
  end.

(** [a === b].  Arrays and objects are compared by reference: [same_ref]
    says whether the two operands were read from the same node of the same
    parsed document. *)
Definition strict_equal (same_ref : bool) (a b : value) : bool :=
  match a, b with
  | None, None => true
  | Some JNull, Some JNull => true
  | Some (JBool x), Some (JBool y) => Bool.eqb x y
  | Some (JNum x), Some (JNum y) => Z.eqb x y
  | Some (JStr x), Some (JStr y) => String.eqb x y
  | Some (JArr _), Some (JArr _) => same_ref
  | Some (JObj _), Some (JObj _) => same_ref
  | _, _ => false
  end.

(** A [Map]: entries in insertion order, keys compared with SameValueZero.
    Keys that are arrays or objects come from distinct nodes, hence are
    never the same reference. *)
Definition Map : Type := list (value * json).

Definition same_value_zero (a b : value) : bool := strict_equal false a b.

Fixpoint map_set (m : Map) (k : value) (v : json) : Map :=
  match m with
  | [] => [(k, v)]
  | (k', v') :: m' =>
      if same_value_zero k' k then (k', v) :: m' else (k', v') :: map_set m' k v
  end.

Fixpoint map_get (m : Map) (k : value) : value :=
  match m with
  | [] => None
  | (k', v') :: m' => if same_value_zero k' k then Some v' else map_get m' k
  end.

Definition map_has (m : Map) (k : value) : bool :=
  match map_get m k with Some _ => true | None => false end.

End JS.

Import JS.

(** ** The registry document *)

(** A plugin record is a JSON object; a registry document is a top-level
    object whose [plugins] property, when present, is an array of plugin
    records.  [siblings] holds the other top-level properties. *)
Record document : Type := mkDocument {
  plugins : option (list object);
  siblings : object
}.

(** The data-model invariant: no two entries of a plugin list have the same
    [id] (two entries are the same node exactly when their indices agree). *)
Definition ids_unique (ps : list object) : Prop :=
  forall i j p q,
    ps !! i = Some p -> ps !! j = Some q ->
    strict_equal (Nat.eqb i j) (get p "id") (get q "id") = true -> i = j.

(** What a path of the file system holds: text that [JSON.parse] rejects, or
    the document that it returns. *)
Inductive content : Type :=
| NotJSON (text : string)
| JSONDoc (d : document).

Definition filesystem : Type := string -> option content.

Definition fs_write (fs : filesystem) (path : string) (c : content) : filesystem :=
  fun p => if String.eqb p path then Some c else fs p.

(** ** Processes: exceptions, [process.exit], console and files *)

Inductive exn : Type :=
| ENOENT (path : string)
| SyntaxError (text : string)
| Error (msg : string)
| ErrorFrom (msg : string) (cause : exn).

Inductive completion (A : Type) : Type :=
| Normal (a : A)
| Throw (e : exn)
| Exit (code : Z).
Arguments Normal {A} a.
Arguments Throw {A} e.
Arguments Exit {A} code.

(** A process over a state [S]: [proc S A] runs to a completion and a new
    state. *)
Definition proc (S A : Type) : Type := S -> completion A * S.

#[export] Instance proc_ret {S} : MRet (proc S) := fun A a w => (Normal a, w).

#[export] Instance proc_bind {S} : MBind (proc S) := fun A B k m w =>
  match m w with
  | (Normal a, w') => k a w'
  | (Throw e, w') => (Throw e, w')
  | (Exit c, w') => (Exit c, w')
  end.

(** [try { m } catch (err) { h err }]: a [process.exit] is not an exception
    and passes through. *)
Definition try_catch {S A} (m : proc S A) (h : exn -> proc S A) : proc S A :=
  fun w =>
    match m w with
    | (Normal a, w') => (Normal a, w')
    | (Throw e, w') => h e w'
    | (Exit c, w') => (Exit c, w')
    end.

Definition throw {S A} (e : exn) : proc S A := fun w => (Throw e, w).

Definition process_exit {S A} (code : Z) : proc S A := fun w => (Exit code, w).

Module Merge.

(** Lines the merge scripts print.  The usage line and the warning about the
    store have one text in [scripts/merge-plugins.mjs] and another in the
    variant with command-line options. *)
Inductive line : Type :=
| UsageError
| UsageErrorCli
| ReadFailed (file : string) (err : exn)
| StoreTreatedAsEmpty
| StoreTreatedAsEmptyCli
| MergeDone.

Record world : Type := mkWorld {
  fs : filesystem;
  console : list line
}.

Definition print (l : line) : proc world unit :=
  fun w => (Normal tt, mkWorld (fs w) (console w ++ [l])).

(** [JSON.parse(readFileSync(file, 'utf-8'))] *)
Definition parse_file (file : string) : proc world document :=
  fun w =>
    match fs w file with
    | None => (Throw (ENOENT file), w)
    | Some (NotJSON text) => (Throw (SyntaxError text), w)
    | Some (JSONDoc d) => (Normal d, w)
    end.

(** [writeFileSync(file, JSON.stringify(d, null, 2), 'utf-8')] *)
Definition write_file (file : string) (d : document) : proc world unit :=
  fun w => (Normal tt, mkWorld (fs_write (fs w) file (JSONDoc d)) (console w)).

Definition readJSON (file : string) : proc world document :=
  try_catch (parse_file file)
    (fun err => print (ReadFailed file err) ;; process_exit 1).

Definition storePluginMap (storeData : document) : Map :=
  match plugins storeData with
  | Some ps =>
      fold_left
        (fun m p =>
           map_set m (get p "id") (nullish_default (get p "downloadCount") (JNum 0)))
        ps []
  | None => []
  end.

Definition merged (m : Map) (mainPlugin : object) : object :=
  put mainPlugin "downloadCount"
    (if map_has m (get mainPlugin "id")
     then match map_get m (get mainPlugin "id") with
          | Some c => c
          | None => JNum 0
          end
     else JNum 0).

Definition mergedPlugins (mainData : document) (m : Map) : list object :=
  match plugins mainData with
  | Some ps => map (merged m) ps
  | None => []
  end.

(** The script from the point where the three paths are known. *)
Definition merge_files (mainFile storeFile outputFile : string) : proc world unit :=
  mainData ← readJSON mainFile;
  storeData ← try_catch (readJSON storeFile)
                (fun _ => print StoreTreatedAsEmpty ;;
                          mret (mkDocument (Some []) []));
  let m := storePluginMap storeData in
  let mainData' := mkDocument (Some (mergedPlugins mainData m)) (siblings mainData) in
  write_file outputFile mainData' ;;
  print MergeDone.

(** A path variable is usable when it is set and not the empty string. *)
Definition path_of (v : option string) : option string :=
  match v with
  | Some s => if String.eqb s "" then None else Some s
  | None => None
  end.

Definition with_paths (mainFile storeFile outputFile : option string) : proc world unit :=
  match path_of mainFile, path_of storeFile, path_of outputFile with
  | Some m, Some s, Some o => merge_files m s o
  | _, _, _ => print UsageError ;; process_exit 1
  end.

Record environment : Type := mkEnv {
  MAIN_FILE : option string;
  STORE_FILE : option string;
  OUTPUT_FILE : option string
}.

(** [scripts/merge-plugins.mjs]: paths from the environment. *)
Definition merge_plugins (env : environment) : proc world unit :=
  with_paths (MAIN_FILE env) (STORE_FILE env) (OUTPUT_FILE env).

(** *** The variant with command-line options

    [parseArgs({ options, strict: false })] gives for each of [--main],
    [--store] and [--output] nothing when the option is not on the command
    line, the text of its value, or [true] when the option is there without
    a value.  When [parseArgs] throws, the three variables stay
    [undefined], as when no option is given. *)
Inductive option_value : Type :=
| Text (s : string)
| Bare.

Record values : Type := mkValues {
  opt_main : option option_value;
  opt_store : option option_value;
  opt_output : option option_value
}.

(** [v || process.env.X] *)
Definition or_env (v : option option_value) (e : option string) : option option_value :=
  match v with
  | Some (Text s) => if String.eqb s "" then option_map Text e else v
  | Some Bare => v
  | None => option_map Text e
  end.

(** [!v] *)
Definition missing (v : option option_value) : bool :=
  match v with
  | Some (Text s) => String.eqb s ""
  | Some Bare => false
  | None => true
  end.

(** The file name as the read-failure line shows it. *)
Definition shown (file : option_value) : string :=
  match file with
  | Text s => s
  | Bare => "true"
  end.

(** [readFileSync] and [writeFileSync] throw a [TypeError] when the path is
    [true]. *)
Definition parse_file_cli (file : option_value) : proc world document :=
  match file with
  | Text s => parse_file s
  | Bare => throw (Error "ERR_INVALID_ARG_TYPE")
  end.

Definition write_file_cli (file : option_value) (d : document) : proc world unit :=
  match file with
  | Text s => write_file s d
  | Bare => throw (Error "ERR_INVALID_ARG_TYPE")
  end.

Definition readJSON_cli (file : option_value) : proc world document :=
  try_catch (parse_file_cli file)
    (fun err => print (ReadFailed (shown file) err) ;; process_exit 1).

Definition merge_files_cli (mainFile storeFile outputFile : option_value)
    : proc world unit :=
  mainData ← readJSON_cli mainFile;
  storeData ← try_catch (readJSON_cli storeFile)
                (fun _ => print StoreTreatedAsEmptyCli ;;
                          mret (mkDocument (Some []) []));
  let m := storePluginMap storeData in
  let mainData' := mkDocument (Some (mergedPlugins mainData m)) (siblings mainData) in
  write_file_cli outputFile mainData' ;;
  print MergeDone.

(** The script, given what [parseArgs] returned. *)
Definition merge_plugins_argv (v : values) (env : environment) : proc world unit :=
  let mainFile := or_env (opt_main v) (MAIN_FILE env) in
  let storeFile := or_env (opt_store v) (STORE_FILE env) in
  let outputFile := or_env (opt_output v) (OUTPUT_FILE env) in
  if missing mainFile || missing storeFile || missing outputFile
  then print UsageErrorCli ;; process_exit 1
  else
    match mainFile, storeFile, outputFile with
    | Some m, Some s, Some o => merge_files_cli m s o
    | _, _, _ => print UsageErrorCli ;; process_exit 1
    end.

(** A command line on which every option that is given has a value. *)
Record arguments : Type := mkArgs {
  arg_main : option string;
  arg_store : option string;
  arg_output : option string
}.

Definition text_values (args : arguments) : values :=
  mkValues (option_map Text (arg_main args)) (option_map Text (arg_store args))
           (option_map Text (arg_output args)).

Definition merge_plugins_cli (args : arguments) (env : environment) : proc world unit :=
  merge_plugins_argv (text_values args) env.

(** *** What the specification talks about *)

(** An entry of the store and an entry of the main list have the same id, as
    the lookup in [storePluginMap] sees it. *)
Definition same_id (storeEntry mainEntry : object) : bool :=
  same_value_zero (get storeEntry "id") (get mainEntry "id").

(** A path that [readJSON] cannot turn into a document. *)
Definition unreadable (c : option content) : bool :=
  match c with
  | Some (JSONDoc _) => false
  | _ => true
  end.

(** A disk with the main registry in [main.json], the store registry (if
    any) in [store.json], and nothing else. *)
Definition disk (main : document) (store : option content) : filesystem :=
  fun p =>
    if String.eqb p "main.json" then Some (JSONDoc main)
    else if String.eqb p "store.json" then store
    else None.

Definition paths : environment :=
  mkEnv (Some "main.json") (Some "store.json") (Some "out.json").

End Merge.

(** ** Dates: the time-value arithmetic behind [Date.prototype.toISOString] *)

Module Clock.

Definition msPerDay : Z := 86400000.

Definition Day (t : Z) : Z := t / msPerDay.

Definition DaysInYear (y : Z) : Z :=
  if negb (Z.eqb (y mod 4) 0) then 365
  else if negb (Z.eqb (y mod 100) 0) then 366
  else if negb (Z.eqb (y mod 400) 0) then 365
  else 366.

Definition DayFromYear (y : Z) : Z :=
  365 * (y - 1970) + (y - 1969) / 4 - (y - 1901) / 100 + (y - 1601) / 400.

(** The largest year whose first day is not after [t]: the estimate from the
    mean year length is off by at most one. *)
Definition YearFromTime (t : Z) : Z :=
  let d := Day t in
  let y := 1970 + (400 * d) / 146097 in
  if Z.ltb d (DayFromYear y) then y - 1
  else if Z.leb (DayFromYear (y + 1)) d then y + 1
  else y.

Definition InLeapYear (t : Z) : Z :=
  if Z.eqb (DaysInYear (YearFromTime t)) 366 then 1 else 0.

Definition DayWithinYear (t : Z) : Z := Day t - DayFromYear (YearFromTime t).

Definition MonthFromTime (t : Z) : Z :=
  let d := DayWithinYear t in
  let leap := InLeapYear t in
  if Z.ltb d 31 then 0
  else if Z.ltb d (59 + leap) then 1
  else if Z.ltb d (90 + leap) then 2
  else if Z.ltb d (120 + leap) then 3
  else if Z.ltb d (151 + leap) then 4
  else if Z.ltb d (181 + leap) then 5
  else if Z.ltb d (212 + leap) then 6
  else if Z.ltb d (243 + leap) then 7
  else if Z.ltb d (273 + leap) then 8
  else if Z.ltb d (304 + leap) then 9
  else if Z.ltb d (334 + leap) then 10
  else 11.

Definition DateFromTime (t : Z) : Z :=
  let d := DayWithinYear t in
  let leap := InLeapYear t in
  match MonthFromTime t with
  | 0 => d + 1
  | 1 => d - 30
  | 2 => d - 58 - leap
  | 3 => d - 89 - leap
  | 4 => d - 119 - leap
  | 5 => d - 150 - leap
  | 6 => d - 180 - leap
  | 7 => d - 211 - leap
  | 8 => d - 242 - leap
  | 9 => d - 272 - leap
  | 10 => d - 303 - leap
  | _ => d - 333 - leap
  end.

Definition HourFromTime (t : Z) : Z := (t / 3600000) mod 24.
Definition MinFromTime (t : Z) : Z := (t / 60000) mod 60.
Definition SecFromTime (t : Z) : Z := (t / 1000) mod 60.
Definition msFromTime (t : Z) : Z := t mod 1000.

(** Decimal digits, zero padded. *)
Definition digit (n : Z) : ascii := ascii_of_nat (48 + Z.to_nat (n mod 10)).

Definition pad2 (n : Z) : string := String (digit (n / 10)) (String (digit n) "").
Definition pad3 (n : Z) : string := String (digit (n / 100)) (pad2 n).
Definition pad4 (n : Z) : string := String (digit (n / 1000)) (pad3 n).
Definition pad6 (n : Z) : string :=
  String (digit (n / 100000)) (String (digit (n / 10000)) (pad4 n)).

Definition year_string (y : Z) : string :=
  if Z.leb 0 y && Z.leb y 9999 then pad4 y
  else if Z.ltb y 0 then String "-" (pad6 (- y))
  else String "+" (pad6 y).

(** [YYYY-MM-DDTHH:mm:ss] of a time value. *)
Definition date_time_string (t : Z) : string :=
  year_string (YearFromTime t) +:+ "-" +:+ pad2 (MonthFromTime t + 1) +:+ "-" +:+
  pad2 (DateFromTime t) +:+ "T" +:+ pad2 (HourFromTime t) +:+ ":" +:+
  pad2 (MinFromTime t) +:+ ":" +:+ pad2 (SecFromTime t).

(** A [Date]: a time value, or [None] for an invalid date. *)
Definition Date : Type := option Z.

(** [new Date(v)]: values beyond 8.64e15 ms give an invalid date. *)
Definition new_Date (v : Z) : Date :=
  if Z.leb (Z.abs v) 8640000000000000 then Some v else None.

(** [toISOString]: [None] is the [RangeError] of an invalid date. *)
Definition toISOString (d : Date) : option string :=
  match d with
  | Some t => Some (date_time_string t +:+ "." +:+ pad3 (msFromTime t) +:+ "Z")
  | None => None
  end.

Definition is_digit (c : ascii) : bool :=
  (48 <=? nat_of_ascii c)%nat && (nat_of_ascii c <=? 57)%nat.

(** The text from a point on is [.], three digits, [Z] and the end. *)
Definition millis_Z_end (ch : ascii) (rest : string) : bool :=
  Ascii.eqb ch "." &&
  match rest with
  | String a (String b (String c (String z EmptyString))) =>
      is_digit a && is_digit b && is_digit c && Ascii.eqb z "Z"
  | _ => false
  end.

(** [s.replace(/\.\d{3}Z$/, by)] *)
Fixpoint replace_millis_Z (s by_ : string) : string :=
  match s with
  | String ch rest =>
      if millis_Z_end ch rest then by_ else String ch (replace_millis_Z rest by_)
  | EmptyString => EmptyString
  end.

(** [getBeijingTime], reading the clock as [now]. *)
Definition getBeijingTime (now : Z) : option string :=
  let beijingTime := new_Date (now + 8 * 60 * 60 * 1000) in
  s ← toISOString beijingTime;
  Some (replace_millis_Z s "+08:00").

End Clock.

(** ** The download-count updater *)

Module Reconcile.

Definition PLUGINS_FILE : string := "plugins.v4.json".
Definition GITHUB_API_BASE : string := "https://api.github.com".
Definition CONCURRENCY : nat := 5.
Definition RETRY_TIMES : nat := 2.
Definition RETRY_DELAY : Z := 1000.

(** *** The releases API *)

Record asset : Type := mkAsset { download_count : option Z }.

Record release : Type := mkRelease { assets : option (list asset) }.

(** What [res.json()] settles to. *)
Inductive body : Type :=
| Releases (rs : list release)
| InvalidBody (msg : string).

Record response : Type := mkResponse {
  status : Z;
  statusText : string;
  json_body : body
}.

Definition ok (res : response) : bool :=
  Z.leb 200 (status res) && Z.leb (status res) 299.

(** What [await fetch(url, options)] does: throw, or give a response. *)
Inductive fetch_result : Type :=
| Rejected (msg : string)
| Resolved (res : response).

(** What one call of [getDownloadCountForPlugin] does on the network and the
    console, in order. *)
Inductive event : Type :=
| FetchStart (url : string) (headers : list (string * string))
| FetchEnd (r : fetch_result)
| RetryLogged (retry : nat) (msg : string)
| Delay (ms : Z).

Definition decimal (n : Z) : string := NilZero.string_of_int (Z.to_int n).

Definition status_message (res : response) : string :=
  "GitHub API 返回 " +:+ decimal (status res) +:+ " (" +:+ statusText res +:+ ")".

(** [fetchWithRetry(url, options, retry)]; [responses k] is what the call
    number [k] of this task receives, [k] counts the calls made before. *)
Fixpoint fetchWithRetry (responses : nat -> fetch_result)
    (url : string) (options : list (string * string)) (retry : nat) (k : nat)
    : list event * (string + list release) :=
  let r := responses k in
  let call := [FetchStart url options; FetchEnd r] in
  let attempt : string + body :=
    match r with
    | Rejected msg => inl msg
    | Resolved res => if ok res then inr (json_body res) else inl (status_message res)
    end in
  match attempt with
  | inr (Releases rs) => (call, inr rs)
  | inr (InvalidBody msg) => (call, inl msg)
  | inl msg =>
      match retry with
      | S retry' =>
          let '(rest, outcome) := fetchWithRetry responses url options retry' (S k) in
          (call ++ [RetryLogged retry msg; Delay RETRY_DELAY] ++ rest, outcome)
      | O => (call, inl msg)
      end
  end.

Definition token_set (token : option string) : option string :=
  match token with
  | Some t => if String.eqb t "" then None else Some t
  | None => None
  end.

Definition fetchGitHubReleases (responses : nat -> fetch_result)
    (owner repo : string) (token : option string)
    : list event * (string + list release) :=
  let url := GITHUB_API_BASE +:+ "/repos/" +:+ owner +:+ "/" +:+ repo +:+ "/releases" in
  let headers :=
    [("User-Agent", "napcat-plugin-index");
     ("Accept", "application/vnd.github.v3+json")] ++
    match token_set token with
    | Some t => [("Authorization", "token " +:+ t)]
    | None => []
    end in
  fetchWithRetry responses url headers RETRY_TIMES 0.

(** [s.split(sep)] for a one-character separator. *)
Fixpoint split_on (sep : ascii) (s : string) : list string :=
  match s with
  | EmptyString => [EmptyString]
  | String c rest =>
      if Ascii.eqb c sep then EmptyString :: split_on sep rest
      else match split_on sep rest with
           | h :: t => String c h :: t
           | [] => [String c EmptyString]
           end
  end.

Record URL : Type := mkURL { hostname : string; pathname : string }.

(** A count is a JS number, an IEEE 754 double, and the counts of the API
    are integers.  [to_double z] is the double nearest to the integer [z],
    the even significand on a tie: what [JSON.parse] reads for [z] and what
    an addition gives for an exact result [z].  Every integer up to 2^53 in
    magnitude is a double.  Magnitudes from 2^1024 on, where a double is
    [Infinity], are outside this model. *)
Definition to_double (z : Z) : Z :=
  let a := Z.abs z in
  if Z.ltb a (2 ^ 53) then z
  else
    let ulp := 2 ^ (Z.log2 a - 52) in
    let q := a / ulp in
    let r := a mod ulp in
    let q' :=
      if Z.ltb (2 * r) ulp then q
      else if Z.ltb ulp (2 * r) then q + 1
      else if Z.even q then q else q + 1 in
    Z.sgn z * (q' * ulp).

(** [a + b] *)
Definition number_add (a b : Z) : Z := to_double (a + b).

Definition totalCount (releases : list release) : Z :=
  fold_left
    (fun total release =>
       match assets release with
       | Some l =>
           fold_left
             (fun total a =>
                number_add total (to_double (default 0 (download_count a))))
             l total
       | None => total
       end)
    releases 0.

(** One entry of [results]: [plugin] refers to the entry of the [plugins]
    array at that index; [count] is a number or [null]; [error] is a string
    or [null] ([None]). *)
Record result : Type := mkResult {
  plugin : nat;
  count : json;
  error : option string
}.

Inductive line : Type :=
| Found (path : string)
| Starting (updatePluginTime : bool)
| NoPlugins
| CountFailed (id : value) (err : string)
| CountOk (id : value) (c : json)
| TimeSet (id : value) (t : string)
| FileWritten (updated : Z)
| WriteSkipped
| Finished (updated : Z)
| FinishedStamped (updated : Z) (t : string)
| ScriptFailed (e : exn).

(** [network] is the list of batches, each the list of what its calls did;
    [writes] lists the calls of [writeFileSync]. *)
Record world : Type := mkWorld {
  fs : filesystem;
  console : list line;
  network : list (list (list event));
  writes : list (string * document)
}.

Definition log (l : line) : proc world unit :=
  fun w => (Normal tt, mkWorld (fs w) (console w ++ [l]) (network w) (writes w)).

Definition log_all (ls : list line) : proc world unit :=
  fun w => (Normal tt, mkWorld (fs w) (console w ++ ls) (network w) (writes w)).

Definition checkFileExists (filePath : string) : proc world unit :=
  fun w =>
    match fs w filePath with
    | None => (Throw (Error ("文件不存在: " +:+ filePath)), w)
    | Some _ => log (Found filePath) w
    end.

Definition readFileSync (file : string) : proc world content :=
  fun w =>
    match fs w file with
    | None => (Throw (ENOENT file), w)
    | Some c => (Normal c, w)
    end.

Definition JSON_parse (c : content) : proc world document :=
  match c with
  | NotJSON text => throw (SyntaxError text)
  | JSONDoc d => mret d
  end.

Definition writeFileSync (file : string) (d : document) : proc world unit :=
  fun w =>
    (Normal tt,
     mkWorld (fs_write (fs w) file (JSONDoc d)) (console w) (network w)
             (writes w ++ [(file, d)])).

(** The loop variables of the pass over [results]. *)
Record tally : Type := mkTally {
  plugins_now : list object;
  downloadCountUpdated : Z;
  hasAnyChange : bool;
  printed : list line
}.

(** [plugins.findIndex(p => p.id === plugin.id)] where [plugin] is the entry
    [i] of the same array, looking from index [j] on. *)
Fixpoint findIndex_from (j : nat) (ps : list object) (i : nat) (id : value) : option nat :=
  match ps with
  | [] => None
  | p :: ps' =>
      if strict_equal (Nat.eqb j i) (get p "id") id then Some j
      else findIndex_from (S j) ps' i id
  end.

Definition findIndex (ps : list object) (i : nat) : option nat :=
  match ps !! i with
  | Some plugin_i => findIndex_from 0 ps i (get plugin_i "id")
  | None => None
  end.

Definition error_set (e : option string) : bool :=
  match e with
  | Some msg => negb (String.eqb msg "")
  | None => false
  end.

Definition process_result (updatePluginTime : bool) (beijingNow : string)
    (t : tally) (r : result) : tally :=
  match findIndex (plugins_now t) (plugin r) with
  | None => t
  | Some pluginIndex =>
      match plugins_now t !! pluginIndex, plugins_now t !! plugin r with
      | Some entry, Some plugin_r =>
          let id := get plugin_r "id" in
          let originalCount := or_default (get entry "downloadCount") (JNum 0) in
          let t1 :=
            if error_set (error r) then
              mkTally (<[pluginIndex := put entry "downloadCount" originalCount]> (plugins_now t))
                      (downloadCountUpdated t) (hasAnyChange t)
                      (printed t ++ [CountFailed id (default "" (error r))])
            else
              let differs :=
                negb (strict_equal false (get entry "downloadCount") (Some (count r))) in
              mkTally (<[pluginIndex := put entry "downloadCount" (count r)]> (plugins_now t))
                      (if differs then downloadCountUpdated t + 1 else downloadCountUpdated t)
                      (if differs then true else hasAnyChange t)
                      (printed t ++ [CountOk id (count r)]) in
          if updatePluginTime then
            match plugins_now t1 !! pluginIndex with
            | Some entry1 =>
                mkTally (<[pluginIndex := put entry1 "updateTime" (JStr beijingNow)]> (plugins_now t1))
                        (downloadCountUpdated t1) true
                        (printed t1 ++ [TimeSet id beijingNow])
            | None => t1
            end
          else t1
      | _, _ => t
      end
  end.

Section WithURL.

(** [new URL(v)]: [None] when the constructor throws. *)
Variable URL_new : value -> option URL.

Definition extractGitHubRepo (downloadUrl : value) : option (string * string) :=
  match URL_new downloadUrl with
  | None => None
  | Some url =>
      if negb (String.eqb (hostname url) "github.com") then None
      else
        match List.filter (fun p => negb (String.eqb p "")) (split_on "/" (pathname url)) with
        | owner :: repo :: _ => Some (owner, repo)
        | _ => None
        end
  end.

Definition getDownloadCountForPlugin (responses : nat -> fetch_result)
    (plugin_ref : nat) (plugin_obj : object) (token : option string)
    : list event * result :=
  match extractGitHubRepo (get plugin_obj "downloadUrl") with
  | None =>
      ([], mkResult plugin_ref JNull (Some "无法从 downloadUrl 提取 GitHub 仓库信息"))
  | Some (owner, repo) =>
      match fetchGitHubReleases responses owner repo token with
      | (tr, inr releases) => (tr, mkResult plugin_ref (JNum (totalCount releases)) None)
      | (tr, inl msg) => (tr, mkResult plugin_ref JNull (Some msg))
      end
  end.

(** [plugins.slice(i, i + CONCURRENCY)], each entry with its index. *)
Definition slice_batch (plugins_arr : list object) (i : nat) : list (nat * object) :=
  imap (fun k p => ((i + k)%nat, p)) (take CONCURRENCY (drop i plugins_arr)).

(** [await Promise.all(batch.map(plugin => getDownloadCountForPlugin(plugin, token)))]:
    the calls of one batch, recorded together. *)
Definition Promise_all (remote : nat -> nat -> fetch_result)
    (batch : list (nat * object)) (token : option string)
    : proc world (list result) :=
  fun w =>
    let runs :=
      map (fun '(i, p) => getDownloadCountForPlugin (remote i) i p token) batch in
    (Normal (map snd runs),
     mkWorld (fs w) (console w) (network w ++ [map fst runs]) (writes w)).

(** The [for (let i = 0; i < plugins.length; i += CONCURRENCY)] loop. *)
Fixpoint batch_loop (fuel : nat) (remote : nat -> nat -> fetch_result)
    (plugins_arr : list object) (token : option string)
    (i : nat) (results : list result) : proc world (list result) :=
  match fuel with
  | O => mret results
  | S fuel' =>
      if Nat.ltb i (length plugins_arr) then
        batchResults ← Promise_all remote (slice_batch plugins_arr i) token;
        batch_loop fuel' remote plugins_arr token (i + CONCURRENCY)%nat
                   (results ++ batchResults)
      else mret results
  end.

Definition getBeijingTime (now : Z) : proc world string :=
  match Clock.getBeijingTime now with
  | Some s => mret s
  | None => throw (Error "Invalid time value")
  end.

(** [updateDownloadCounts(token, updatePluginTime)], with the remote side
    ([remote i k]: what call [k] for the plugin at index [i] receives) and
    the clock reading [now]. *)
Definition updateDownloadCounts (remote : nat -> nat -> fetch_result) (now : Z)
    (token : option string) (updatePluginTime : bool) : proc world unit :=
  checkFileExists PLUGINS_FILE ;;
  log (Starting updatePluginTime) ;;
  content ← try_catch (readFileSync PLUGINS_FILE)
              (fun err => throw (ErrorFrom "读取文件失败" err));
  data ← try_catch (JSON_parse content)
           (fun err => throw (ErrorFrom "解析 JSON 失败" err));
  let plugins_arr := default [] (plugins data) in
  if Nat.eqb (length plugins_arr) 0 then log NoPlugins
  else
    results ← batch_loop (length plugins_arr) remote plugins_arr token 0%nat [];
    beijingNow ← getBeijingTime now;
    let t := fold_left (process_result updatePluginTime beijingNow) results
               (mkTally plugins_arr 0 false []) in
    log_all (printed t) ;;
    (if hasAnyChange t then
       try_catch (writeFileSync PLUGINS_FILE (mkDocument (Some (plugins_now t)) (siblings data)))
         (fun err => throw (ErrorFrom "写入文件失败" err)) ;;
       log (FileWritten (downloadCountUpdated t))
     else log WriteSkipped) ;;
    log (if updatePluginTime
         then FinishedStamped (downloadCountUpdated t) beijingNow
         else Finished (downloadCountUpdated t)).

(** What the calls for the entries of [l], the first at index [i], do and
    return. *)
Definition runs_from (remote : nat -> nat -> fetch_result) (token : option string)
    (i : nat) (l : list object) : list (list event * result) :=
  imap (fun k p => getDownloadCountForPlugin (remote (i + k)%nat) (i + k)%nat p token) l.

(** The result for the entry [p] at index [i]. *)
Definition result_of (remote : nat -> nat -> fetch_result) (token : option string)
    (i : nat) (p : object) : result :=
  snd (getDownloadCountForPlugin (remote i) i p token).

Definition all_results (remote : nat -> nat -> fetch_result) (token : option string)
    (ps : list object) : list result :=
  map snd (runs_from remote token 0 ps).

(** The loop variables after the pass over the first [k] of [results]. *)
Definition partial_tally (updatePluginTime : bool) (beijingNow : string)
    (ps : list object) (results : list result) (k : nat) : tally :=
  fold_left (process_result updatePluginTime beijingNow)
    (take k results) (mkTally ps 0 false []).

(** The loop variables after the pass over all results. *)
Definition final_tally (remote : nat -> nat -> fetch_result) (token : option string)
    (updatePluginTime : bool) (beijingNow : string) (ps : list object) : tally :=
  fold_left (process_result updatePluginTime beijingNow)
    (all_results remote token ps) (mkTally ps 0 false []).

Record environment : Type := mkEnv {
  GITHUB_TOKEN : option string;
  UPDATE_PLUGIN_TIME : option string
}.

(** The script body: run, and on any exception report and exit with 1. *)
Definition main (env : environment) (remote : nat -> nat -> fetch_result) (now : Z)
    : proc world unit :=
  let token := token_set (GITHUB_TOKEN env) in
  let updatePluginTime :=
    match UPDATE_PLUGIN_TIME env with
    | Some s => String.eqb s "true"
    | None => false
    end in
  try_catch (updateDownloadCounts remote now token updatePluginTime)
    (fun err => log (ScriptFailed err) ;; process_exit 1).

End WithURL.

(** *** What the specification talks about *)

(** The sum of the download counts of all assets as integers, without any
    rounding. *)
Definition exact_count (releases : list release) : Z :=
  fold_right Z.add 0
    (map (fun a => default 0 (download_count a))
         (flat_map (fun r => default [] (assets r)) releases)).

(** The stored count of an entry as the updater reads it:
    [entry.downloadCount || 0]. *)
Definition stored_count (entry : object) : json :=
  or_default (get entry "downloadCount") (JNum 0).

(** What the pass does to the entry a result is matched with. *)
Definition updated_entry (updatePluginTime : bool) (beijingNow : string)
    (entry : object) (r : result) : object :=
  let e1 :=
    put entry "downloadCount"
      (if error_set (error r) then stored_count entry else count r) in
  if updatePluginTime then put e1 "updateTime" (JStr beijingNow) else e1.

(** The result is a count that is not the stored one. *)
Definition count_differs (entry : object) (r : result) : bool :=
  negb (error_set (error r)) &&
  negb (strict_equal false (get entry "downloadCount") (Some (count r))).

(** Batches of [CONCURRENCY] entries, the last one with what remains of the
    [n] entries. *)
Fixpoint batch_sizes {A} (bs : list (list A)) (n : nat) : Prop :=
  match bs with
  | [] => n = 0%nat
  | b :: bs' =>
      (0 < n)%nat /\ length b = Nat.min CONCURRENCY n /\
      batch_sizes bs' (n - CONCURRENCY)%nat
  end.

(** A clock reading whose Beijing time is a valid date. *)
Definition valid_clock (now : Z) : Prop :=
  Z.abs (now + 28800000) <= 8640000000000000.

(** An attempt that makes [fetchWithRetry] retry: [fetch] throws or the
    status is not 2xx. *)
Definition attempt_failure (r : fetch_result) : option string :=
  match r with
  | Rejected msg => Some msg
  | Resolved res => if ok res then None else Some (status_message res)
  end.

Definition fetch_starts (tr : list event) : list event :=
  List.filter (fun e => match e with FetchStart _ _ => true | _ => false end) tr.

Definition delays (tr : list event) : list Z :=
  flat_map (fun e => match e with Delay ms => [ms] | _ => [] end) tr.

(** Calls in flight after the events [s]: started and not yet ended. *)
Fixpoint in_flight (s : list event) : Z :=
  match s with
  | [] => 0
  | FetchStart _ _ :: s' => in_flight s' + 1
  | FetchEnd _ :: s' => in_flight s' - 1
  | _ :: s' => in_flight s'
  end.

(** Every remainder of the events of a call has at most its one call still
    to end and none to start without ending. *)
Definition bracketed (t : list event) : Prop :=
  forall r, r `suffix_of` t -> -1 <= in_flight r <= 0.

(** The calls of one batch run concurrently: their events can occur in any
    order that keeps the order of each call. *)
Inductive interleaving : list (list event) -> list event -> Prop :=
| interleaving_done ts :
    Forall (fun t => t = []) ts -> interleaving ts []
| interleaving_next ts1 e t ts2 s :
    interleaving (ts1 ++ t :: ts2) s ->
    interleaving (ts1 ++ (e :: t) :: ts2) (e :: s).

(** A batch is awaited to its end before the next one starts. *)
Inductive schedule : list (list (list event)) -> list event -> Prop :=
| schedule_end : schedule [] []
| schedule_batch b bs s1 s2 :
    interleaving b s1 -> schedule bs s2 -> schedule (b :: bs) (s1 ++ s2).

(** A reader for URLs of the plain form [https://host/path], standing for
    [new URL] in the examples only; the theorems hold for every [URL_new].
    It gives what [new URL] gives for a lower-case host without port or user
    information and a path without query, fragment, dot segment or
    character that [new URL] would escape; the examples use no other URL. *)
Definition https_URL (v : value) : option URL :=
  match v with
  | Some (JStr s) =>
      if String.prefix "https://" s then
        let rest := substring 8 (String.length s - 8) s in
        match index 0 "/" rest with
        | Some n =>
            Some (mkURL (substring 0 n rest) (substring n (String.length rest - n) rest))
        | None => Some (mkURL rest "/")
        end
      else None
  | _ => None
  end.

(** *** Inputs of the examples *)

(** A disk with the registry document and nothing else. *)
Definition registry_disk (d : document) : filesystem :=
  fun p => if String.eqb p PLUGINS_FILE then Some (JSONDoc d) else None.

Definition fresh (d : document) : world := mkWorld (registry_disk d) [] [] [].

(** A 200 response with one release with one asset downloaded [n] times. *)
Definition releases_with (n : Z) : fetch_result :=
  Resolved (mkResponse 200 "OK" (Releases [mkRelease (Some [mkAsset (Some n)])])).

Definition plugin_a (n : Z) : object :=
  [("id", JStr "a"); ("downloadUrl", JStr "https://github.com/o/r");
   ("downloadCount", JNum n)].

Definition plugin_b (n : Z) : object :=
  [("id", JStr "b"); ("downloadUrl", JStr "https://example.org/b.zip");
   ("downloadCount", JNum n)].

End Reconcile.

(** ** The security scan of changed plugins *)

Module Scan.

Definition PLUGINS_FILE : string := "plugins.v4.json".

(** *** Regular expressions of [PATTERNS]

    Text is one character per [ascii] (character codes below 256).  Each
    expression is used with [test] only, so it is modelled by the test. *)

(** [pat] occurs in [s]: the test of a regular expression that is the
    literal text [pat]. *)
Fixpoint contains (pat s : string) : bool :=
  match s with
  | EmptyString => String.prefix pat s
  | String _ rest => String.prefix pat s || contains pat rest
  end.

(** An alternation of literal texts. *)
Definition any_of (pats : list string) (s : string) : bool :=
  existsb (fun pat => contains pat s) pats.

(** [[a-f0-9]] *)
Definition is_hex (c : ascii) : bool :=
  let n := nat_of_ascii c in
  ((48 <=? n)%nat && (n <=? 57)%nat) || ((97 <=? n)%nat && (n <=? 102)%nat).

(** [_0x[a-f0-9]{4,}] matches at the start of [s]. *)
Definition hex_name_at (s : string) : bool :=
  match s with
  | String c1 (String c2 (String c3 (String a (String b (String c (String d _)))))) =>
      Ascii.eqb c1 "_" && Ascii.eqb c2 "0" && Ascii.eqb c3 "x" &&
      is_hex a && is_hex b && is_hex c && is_hex d
  | _ => false
  end.

(** [/_0x[a-f0-9]{4,}/] *)
Fixpoint has_hex_name (s : string) : bool :=
  hex_name_at s ||
  match s with
  | EmptyString => false
  | String _ rest => has_hex_name rest
  end.

(** The characters [.] does not match, among those below U+0100: line feed
    and carriage return (the others, U+2028 and U+2029, are not characters
    of this model's text). *)
Definition is_line_terminator (c : ascii) : bool :=
  Ascii.eqb c "010" || Ascii.eqb c "013".

(** [/.{need,}/], with [run] matching characters just before [s]. *)
Fixpoint has_run (need run : nat) (s : string) : bool :=
  if (need <=? run)%nat then true
  else
    match s with
    | EmptyString => false
    | String c rest =>
        if is_line_terminator c then has_run need 0 rest
        else has_run need (S run) rest
    end.

Record pattern : Type := mkPattern {
  name : string;
  regex : string -> bool
}.

Definition PATTERNS_high : list pattern :=
  [ mkPattern "Exec/Spawn (RCE Risk)"
      (any_of ["child_process"; "exec("; "spawn("; "execSync"; "spawnSync"]);
    mkPattern "Eval/Function (Code Injection)"
      (any_of ["eval("; "new Function("]);
    mkPattern "Obfuscated Code (Hex)" has_hex_name;
    mkPattern "Minified/Obfuscated Line" (has_run 1000 0) ].

Definition PATTERNS_medium : list pattern :=
  [ mkPattern "File System Write"
      (any_of ["fs.writeFile"; "fs.writeFileSync"; "fs.append"]);
    mkPattern "File System Delete" (any_of ["fs.unlink"; "fs.rm"]);
    mkPattern "Process Exit" (any_of ["process.exit"]) ].

Definition PATTERNS_low : list pattern :=
  [ mkPattern "Network Request"
      (any_of ["http.request"; "https.request"; "axios"; "fetch("]);
    mkPattern "Data Exfiltration Risk" (any_of ["base64"]) ].

(** *** [scanFile] *)

(** White space and line terminators, as [trim] removes them. *)
Definition is_space (c : ascii) : bool :=
  let n := nat_of_ascii c in
  ((9 <=? n)%nat && (n <=? 13)%nat) || (n =? 32)%nat || (n =? 160)%nat.

Fixpoint trimStart (s : string) : string :=
  match s with
  | EmptyString => EmptyString
  | String c rest => if is_space c then trimStart rest else s
  end.

Fixpoint trimEnd (s : string) : string :=
  match s with
  | EmptyString => EmptyString
  | String c rest =>
      match trimEnd rest with
      | EmptyString => if is_space c then EmptyString else String c EmptyString
      | kept => String c kept
      end
  end.

Definition trim (s : string) : string := trimEnd (trimStart s).

Inductive level : Type := HIGH | MEDIUM.

Record risk : Type := mkRisk {
  risk_level : level;
  type : string;
  file : string;
  line : nat;
  code : string
}.

(** The risks one list of patterns finds on one line. *)
Definition checks (lv : level) (ps : list pattern) (fileName : string)
    (lineNum : nat) (text : string) : list risk :=
  flat_map
    (fun p =>
       if regex p text
       then [mkRisk lv (name p) fileName lineNum (substring 0 100 (trim text))]
       else [])
    ps.

Definition scan_line (fileName : string) (index : nat) (text : string) : list risk :=
  let lineNum := (index + 1)%nat in
  checks HIGH PATTERNS_high fileName lineNum text ++
  checks MEDIUM PATTERNS_medium fileName lineNum text.

(** [scanFile(filePath)], given the name ([path.basename]) and the content
    ([readFileSync]) of the file. *)
Definition scanFile (fileName content : string) : list risk :=
  let lines := Reconcile.split_on "010" content in
  concat (imap (scan_line fileName) lines).

(** *** [getChangedPlugins] *)

(** [new Map(entries)], [get]: keys are ids, values are versions. *)
Definition VersionMap : Type := list (value * value).

Fixpoint version_set (m : VersionMap) (k v : value) : VersionMap :=
  match m with
  | [] => [(k, v)]
  | (k', v') :: m' =>
      if same_value_zero k' k then (k', v) :: m' else (k', v') :: version_set m' k v
  end.

Fixpoint version_get (m : VersionMap) (k : value) : value :=
  match m with
  | [] => None
  | (k', v') :: m' => if same_value_zero k' k then v' else version_get m' k
  end.

Definition baseMap (basePlugins : list object) : VersionMap :=
  fold_left (fun m p => version_set m (get p "id") (get p "version")) basePlugins [].

(** The filter: no version known for the id, or another version. *)
Definition is_changed (m : VersionMap) (p : object) : bool :=
  let baseVersion := version_get m (get p "id") in
  negb (truthy baseVersion) || negb (strict_equal false baseVersion (get p "version")).

Inductive message : Type :=
| BaseUnavailable
| FoundChanged (n : nat)
| ChangesFailed (e : exn).

(** [origin] is what [git show origin/main:plugins.v4.json] prints, [None]
    when the command fails. *)
Record world : Type := mkWorld {
  fs : filesystem;
  origin : option content;
  console : list message
}.

Definition say (m : message) : proc world unit :=
  fun w => (Normal tt, mkWorld (fs w) (origin w) (console w ++ [m])).

Definition readFileSync (path : string) : proc world content :=
  fun w =>
    match fs w path with
    | None => (Throw (ENOENT path), w)
    | Some c => (Normal c, w)
    end.

Definition git_show : proc world content :=
  fun w =>
    match origin w with
    | None => (Throw (Error "Command failed: git show origin/main:plugins.v4.json"), w)
    | Some c => (Normal c, w)
    end.

Definition JSON_parse (c : content) : proc world document :=
  match c with
  | NotJSON text => throw (SyntaxError text)
  | JSONDoc d => mret d
  end.

(** A method call on [undefined]. *)
Definition defined {A} (v : option A) : proc world A :=
  match v with
  | Some a => mret a
  | None => throw (Error "TypeError")
  end.

(** [getChangedPlugins()]; the result [None] is [undefined]. *)
Definition getChangedPlugins : proc world (option (list object)) :=
  try_catch
    (currentContent ← readFileSync PLUGINS_FILE;
     current ← JSON_parse currentContent;
     let currentPlugins := plugins current in
     base ← try_catch
              (baseContent ← git_show;
               baseDoc ← JSON_parse baseContent;
               mret (Some (plugins baseDoc)))
              (fun _ => say BaseUnavailable ;; mret None);
     match base with
     | None => mret currentPlugins
     | Some basePlugins =>
         entries ← defined basePlugins;
         let m := baseMap entries in
         currentList ← defined currentPlugins;
         let changed := List.filter (is_changed m) currentList in
         say (FoundChanged (length changed)) ;;
         mret (Some changed)
     end)
    (fun e => say (ChangesFailed e) ;; mret (Some [])).

(** *** What the properties talk about *)

(** [pat] is a part of [s]. *)
Definition occurs (pat s : string) : Prop :=
  exists before after, s = before +:+ pat +:+ after.

End Scan.

(** * Properties *)

(** ** Objects and maps *)

Lemma get_put_eq (o : object) (k : string) (v : json) :
  get (put o k v) k = Some v.
Proof.
  induction o as [|[k' v'] o IH]; simpl.
  - now rewrite String.eqb_refl.
  - destruct (String.eqb k' k) eqn:E; simpl; rewrite E; auto.
Qed.

Lemma get_put_ne (o : object) (k k' : string) (v : json) :
  k <> k' -> get (put o k v) k' = get o k'.
Proof.
  intros Hne. induction o as [|[k0 v0] o IH]; simpl.
  - destruct (String.eqb k k') eqn:E; auto.
    apply String.eqb_eq in E. contradiction.
  - destruct (String.eqb k0 k) eqn:E; simpl.
    + apply String.eqb_eq in E. subst k0.
      destruct (String.eqb k k') eqn:E'; auto.
      apply String.eqb_eq in E'. contradiction.
    + destruct (String.eqb k0 k'); auto.
Qed.

Lemma strict_equal_false_eq (a b : value) :
  strict_equal false a b = true -> a = b.
Proof.
  destruct a as [[| x | x | x | x | x]|], b as [[| y | y | y | y | y]|];
    simpl; try discriminate; auto.
  - intros H. apply Bool.eqb_prop in H. now subst.
  - intros H. apply Z.eqb_eq in H. now subst.
  - intros H. apply String.eqb_eq in H. now subst.
Qed.

Lemma map_get_set_same (m : Map) (k k' : value) (v : json) :
  same_value_zero k k' = true -> map_get (map_set m k v) k' = Some v.
Proof.
  intros H. pose proof (strict_equal_false_eq _ _ H) as ->.
  induction m as [|[k0 v0] m IH]; simpl.
  - now rewrite H.
  - destruct (same_value_zero k0 k') eqn:E; simpl; rewrite E; auto.
Qed.

Lemma map_get_set_other (m : Map) (k k' : value) (v : json) :
  same_value_zero k k' = false -> map_get (map_set m k v) k' = map_get m k'.
Proof.
  intros H. induction m as [|[k0 v0] m IH]; simpl.
  - now rewrite H.
  - destruct (same_value_zero k0 k) eqn:E; simpl.
    + apply strict_equal_false_eq in E. subst k0. now rewrite H.
    + destruct (same_value_zero k0 k'); auto.
Qed.

Lemma fs_write_same (f : filesystem) (path : string) (c : content) :
  fs_write f path c path = Some c.
Proof. unfold fs_write. now rewrite String.eqb_refl. Qed.

(** Uniqueness of ids in a list given in full: compare the indices. *)
Ltac ids_unique_by_cases :=
  let i := fresh "i" in
  let j := fresh "j" in
  let Hi := fresh "Hi" in
  let Hj := fresh "Hj" in
  let He := fresh "He" in
  intros i j ? ? Hi Hj He;
  repeat (destruct i as [|i]; try (vm_compute in Hi; discriminate Hi));
  repeat (destruct j as [|j]; try (vm_compute in Hj; discriminate Hj));
  try reflexivity;
  vm_compute in Hi, Hj; injection Hi as <-; injection Hj as <-;
  vm_compute in He; discriminate He.

(** ** The merge script *)

Module MergeFacts.
Import Merge.

Lemma readJSON_document (file : string) (w : world) (d : document) :
  fs w file = Some (JSONDoc d) -> readJSON file w = (Normal d, w).
Proof. intros H. unfold readJSON, try_catch, parse_file. now rewrite H. Qed.

(** [readJSON] ends the process itself when the file cannot be read or
    parsed: nothing is thrown to its caller. *)
Lemma readJSON_unreadable (file : string) (w : world) :
  unreadable (fs w file) = true ->
  exists err,
    readJSON file w = (Exit 1, mkWorld (fs w) (console w ++ [ReadFailed file err])).
Proof.
  intros H. unfold readJSON, try_catch, parse_file.
  destruct (fs w file) as [[text|d]|]; try discriminate; eexists; reflexivity.
Qed.

Lemma path_of_set (s : string) : s <> "" -> path_of (Some s) = Some s.
Proof.
  intros H. unfold path_of. destruct (String.eqb s "") eqn:E; [|reflexivity].
  apply String.eqb_eq in E. contradiction.
Qed.

(** Both scripts are [merge_files] once their three paths are set. *)
Lemma merge_plugins_paths (m s o : string) :
  m <> "" -> s <> "" -> o <> "" ->
  merge_plugins (mkEnv (Some m) (Some s) (Some o)) = merge_files m s o.
Proof.
  intros Hm Hs Ho. unfold merge_plugins, with_paths.
  cbn [MAIN_FILE STORE_FILE OUTPUT_FILE].
  now rewrite !path_of_set by assumption.
Qed.

Lemma readJSON_cli_text (file : string) :
  readJSON_cli (Text file) = readJSON file.
Proof. reflexivity. Qed.

(** With text paths the two scripts differ only in the warning that is never
    printed. *)
Lemma merge_files_cli_text (m s o : string) (w : world) :
  merge_files_cli (Text m) (Text s) (Text o) w = merge_files m s o w.
Proof.
  unfold merge_files_cli, merge_files, readJSON_cli, readJSON, parse_file_cli,
    write_file_cli, try_catch, parse_file, mbind, proc_bind, print, process_exit.
  destruct (fs w m) as [[t|d]|]; cbn [fs console]; try reflexivity.
  destruct (fs w s) as [[t|d']|]; reflexivity.
Qed.

Lemma merge_plugins_cli_paths (m s o : string) (env : environment) (w : world) :
  m <> "" -> s <> "" -> o <> "" ->
  merge_plugins_cli (mkArgs (Some m) (Some s) (Some o)) env w = merge_files m s o w.
Proof.
  intros Hm Hs Ho. apply String.eqb_neq in Hm, Hs, Ho.
  unfold merge_plugins_cli, merge_plugins_argv, text_values, or_env, missing.
  cbn [arg_main arg_store arg_output opt_main opt_store opt_output option_map].
  rewrite Hm, Hs, Ho. cbn [orb]. rewrite Hm, Hs, Ho. cbn [orb].
  apply merge_files_cli_text.
Qed.

(** With both files readable the script writes the merged document. *)
Lemma merge_files_run (mainFile storeFile outputFile : string) (w : world)
    (d s : document) :
  fs w mainFile = Some (JSONDoc d) ->
  fs w storeFile = Some (JSONDoc s) ->
  merge_files mainFile storeFile outputFile w =
    (Normal tt,
     mkWorld
       (fs_write (fs w) outputFile
          (JSONDoc (mkDocument (Some (mergedPlugins d (storePluginMap s))) (siblings d))))
       (console w ++ [MergeDone])).
Proof.
  intros Hm Hs. unfold merge_files, mbind, proc_bind.
  rewrite (readJSON_document _ _ _ Hm).
  unfold try_catch. rewrite (readJSON_document _ _ _ Hs).
  reflexivity.
Qed.

(** The map built from the store gives, for a key, the count of the last
    entry with that key. *)
Lemma store_map_snoc (ps : list object) (e : object) (k : value) :
  map_get (storePluginMap (mkDocument (Some (ps ++ [e])) [])) k =
    if same_value_zero (get e "id") k
    then Some (nullish_default (get e "downloadCount") (JNum 0))
    else map_get (storePluginMap (mkDocument (Some ps) [])) k.
Proof.
  unfold storePluginMap. simpl. rewrite fold_left_app. simpl.
  destruct (same_value_zero (get e "id") k) eqn:E.
  - now apply map_get_set_same.
  - now apply map_get_set_other.
Qed.

Lemma store_map_siblings (ps : option (list object)) (sib : object) :
  storePluginMap (mkDocument ps sib) = storePluginMap (mkDocument ps []).
Proof. reflexivity. Qed.

Lemma store_map_absent (ps : list object) (k : value) :
  (forall e, In e ps -> same_value_zero (get e "id") k = false) ->
  map_get (storePluginMap (mkDocument (Some ps) [])) k = None.
Proof.
  induction ps as [|e ps IH] using rev_ind; intros H.
  - reflexivity.
  - rewrite store_map_snoc. rewrite H by (apply in_or_app; right; now left).
    apply IH. intros e' He'. apply H. apply in_or_app. now left.
Qed.

Lemma store_map_unique (ps : list object) (j : nat) (e : object) (k : value) :
  ids_unique ps ->
  ps !! j = Some e ->
  same_value_zero (get e "id") k = true ->
  map_get (storePluginMap (mkDocument (Some ps) [])) k =
    Some (nullish_default (get e "downloadCount") (JNum 0)).
Proof.
  revert j e. induction ps as [|e' ps IH] using rev_ind; intros j e Hu Hj Hk.
  - discriminate.
  - rewrite store_map_snoc.
    destruct (decide (j = length ps)) as [->|Hne].
    + rewrite list_lookup_middle in Hj by reflexivity.
      injection Hj as ->. now rewrite Hk.
    + assert (Hlt : (j < length ps)%nat).
      { apply lookup_lt_Some in Hj. rewrite length_app in Hj. simpl in Hj. lia. }
      rewrite lookup_app_l in Hj by assumption.
      destruct (same_value_zero (get e' "id") k) eqn:E.
      * exfalso. apply Hne.
        apply (Hu j (length ps) e e').
        -- now rewrite lookup_app_l.
        -- now rewrite list_lookup_middle.
        -- destruct (Nat.eqb j (length ps)) eqn:En.
           ++ apply Nat.eqb_eq in En. contradiction.
           ++ rewrite (strict_equal_false_eq _ _ E). exact Hk.
      * apply (IH j e); auto.
        intros a b p q Ha Hb. apply Hu; now apply lookup_app_l_Some.
Qed.

Lemma merged_count (m : Map) (mainPlugin : object) :
  get (merged m mainPlugin) "downloadCount" =
    Some (default (JNum 0) (map_get m (get mainPlugin "id"))).
Proof.
  unfold merged, map_has. rewrite get_put_eq.
  now destruct (map_get m (get mainPlugin "id")).
Qed.

Lemma merged_other (m : Map) (mainPlugin : object) (k : string) :
  k <> "downloadCount" -> get (merged m mainPlugin) k = get mainPlugin k.
Proof. intros H. unfold merged. apply get_put_ne. congruence. Qed.

(** The positive half of merge totality: whenever both files are readable
    the output list has the entries of the main list, in order, with their
    ids. *)
Lemma merge_keeps_entries (mainFile storeFile outputFile : string) (w : world)
    (d s : document) :
  fs w mainFile = Some (JSONDoc d) ->
  fs w storeFile = Some (JSONDoc s) ->
  exists w' out,
    merge_files mainFile storeFile outputFile w = (Normal tt, w') /\
    fs w' outputFile = Some (JSONDoc out) /\
    length (default [] (plugins out)) = length (default [] (plugins d)) /\
    map (fun p => get p "id") (default [] (plugins out)) =
      map (fun p => get p "id") (default [] (plugins d)).
Proof.
  intros Hm Hs. eexists _, _.
  split; [apply (merge_files_run _ _ _ _ d s Hm Hs)|].
  split; [apply fs_write_same|]. simpl. unfold mergedPlugins.
  destruct (plugins d) as [ps|]; simpl; [|auto].
  split; [apply length_map|].
  rewrite map_map. apply map_ext. intros p. apply merged_other. discriminate.
Qed.

(** C1 (code defect).  With the store file missing or not JSON, the script
    does not go on with an empty store: [readJSON] itself reports the
    failure and ends the process with code 1, so the fallback of its caller
    never runs, the warning is not printed and nothing is written. *)
Theorem merge_exits_on_unreadable_store (d : document) (store : option content) :
  unreadable store = true ->
  exists err,
    merge_plugins paths (mkWorld (disk d store) []) =
      (Exit 1, mkWorld (disk d store) [ReadFailed "store.json" err]).
Proof.
  intros H. unfold merge_plugins, paths, with_paths. simpl.
  unfold merge_files, mbind, proc_bind.
  rewrite (readJSON_document "main.json" _ d) by reflexivity.
  unfold try_catch at 1.
  destruct (readJSON_unreadable "store.json" (mkWorld (disk d store) []) H)
    as [err Herr].
  rewrite Herr. now exists err.
Qed.

Lemma merge_exits_on_unreadable_store_witness :
  exists err,
    merge_plugins paths
      (mkWorld (disk (mkDocument (Some [[("id", JStr "a")]]) [])
                     (Some (NotJSON "not json"))) []) =
      (Exit 1,
       mkWorld (disk (mkDocument (Some [[("id", JStr "a")]]) [])
                     (Some (NotJSON "not json")))
               [ReadFailed "store.json" err]).
Proof.
  apply (merge_exits_on_unreadable_store
           (mkDocument (Some [[("id", JStr "a")]]) [])
           (Some (NotJSON "not json"))).
  reflexivity.
Defined.

(** C2 (code defect, the one of C1).  A main document with one entry and no
    store file at all: the variant with command-line arguments exits with
    code 1 and leaves no output document, so there is no output list with
    the one entry of the main list. *)
Theorem merge_cli_no_output_without_store :
  let main := mkDocument (Some [[("id", JStr "a"); ("downloadCount", JNum 5)]]) [] in
  let run :=
    merge_plugins_cli
      (mkArgs (Some "main.json") (Some "store.json") (Some "out.json"))
      (mkEnv None None None)
      (mkWorld (disk main None) []) in
  fst run = Exit 1 /\ fs (snd run) "out.json" = None.
Proof. split; reflexivity. Qed.

(** C3.  Count carry-forward: for the entry at any index of the main list,
    the merged entry has the count of the store entry with the same id (0
    when that entry has no count), and 0 when no store entry has that id;
    the ids of the store are unique, as the data model requires. *)
Theorem merge_count_carry_forward (mainFile storeFile outputFile : string)
    (w : world) (d s : document) (i : nat) (m : object) :
  fs w mainFile = Some (JSONDoc d) ->
  fs w storeFile = Some (JSONDoc s) ->
  ids_unique (default [] (plugins s)) ->
  default [] (plugins d) !! i = Some m ->
  exists w' out m',
    merge_files mainFile storeFile outputFile w = (Normal tt, w') /\
    fs w' outputFile = Some (JSONDoc out) /\
    default [] (plugins out) !! i = Some m' /\
    (forall j e,
       default [] (plugins s) !! j = Some e -> same_id e m = true ->
       get m' "downloadCount" =
         Some (nullish_default (get e "downloadCount") (JNum 0))) /\
    ((forall e, In e (default [] (plugins s)) -> same_id e m = false) ->
     get m' "downloadCount" = Some (JNum 0)).
Proof.
  intros Hm Hs Hu Hi.
  exists (mkWorld
            (fs_write (fs w) outputFile
               (JSONDoc (mkDocument (Some (mergedPlugins d (storePluginMap s)))
                                    (siblings d))))
            (console w ++ [MergeDone])).
  eexists _, (merged (storePluginMap s) m).
  split; [apply (merge_files_run _ _ _ _ d s Hm Hs)|].
  split; [apply fs_write_same|].
  split.
  { simpl. unfold mergedPlugins. destruct (plugins d) as [ps|]; simpl in *.
    - rewrite list_lookup_fmap, Hi. reflexivity.
    - discriminate. }
  destruct s as [sp sib]. rewrite store_map_siblings. simpl in *.
  destruct sp as [ps|]; simpl in *.
  - split.
    + intros j e Hj He. rewrite merged_count.
      now rewrite (store_map_unique ps j e _ Hu Hj He).
    + intros Hnone. rewrite merged_count.
      now rewrite (store_map_absent ps _ Hnone).
  - split.
    + intros j e Hj. discriminate.
    + intros _. now rewrite merged_count.
Qed.

Lemma merge_count_carry_forward_witness :
  let d := mkDocument (Some [[("id", JStr "x"); ("name", JStr "X")]]) [] in
  let s := mkDocument (Some [[("id", JStr "x"); ("downloadCount", JNum 42)]]) [] in
  exists w' out m',
    merge_files "main.json" "store.json" "out.json"
      (mkWorld (disk d (Some (JSONDoc s))) []) = (Normal tt, w') /\
    fs w' "out.json" = Some (JSONDoc out) /\
    default [] (plugins out) !! 0%nat = Some m' /\
    get m' "downloadCount" = Some (JNum 42).
Proof.
  intros d s.
  destruct (merge_count_carry_forward "main.json" "store.json" "out.json"
              (mkWorld (disk d (Some (JSONDoc s))) []) d s 0%nat
              [("id", JStr "x"); ("name", JStr "X")])
    as (w' & out & m' & Hrun & Hout & Hm' & Hsame & _).
  - reflexivity.
  - reflexivity.
  - ids_unique_by_cases.
  - reflexivity.
  - exists w', out, m'. repeat split; try assumption.
    apply (Hsame 0%nat [("id", JStr "x"); ("downloadCount", JNum 42)]);
      reflexivity.
Defined.

(** C8.  Frame of the merge: the top-level fields other than [plugins] are
    those of the main document, and each output entry agrees with the main
    entry at its index on every field other than [downloadCount]. *)
Theorem merge_frame (mainFile storeFile outputFile : string)
    (w : world) (d s : document) :
  fs w mainFile = Some (JSONDoc d) ->
  fs w storeFile = Some (JSONDoc s) ->
  exists w' out,
    merge_files mainFile storeFile outputFile w = (Normal tt, w') /\
    fs w' outputFile = Some (JSONDoc out) /\
    siblings out = siblings d /\
    length (default [] (plugins out)) = length (default [] (plugins d)) /\
    forall i m,
      default [] (plugins d) !! i = Some m ->
      exists m',
        default [] (plugins out) !! i = Some m' /\
        forall k, k <> "downloadCount" -> get m' k = get m k.
Proof.
  intros Hm Hs. eexists _, _.
  split; [apply (merge_files_run _ _ _ _ d s Hm Hs)|].
  split; [apply fs_write_same|].
  split; [reflexivity|]. simpl. unfold mergedPlugins.
  destruct (plugins d) as [ps|]; simpl.
  - split; [apply length_map|].
    intros i m Hi. exists (merged (storePluginMap s) m).
    split; [now rewrite list_lookup_fmap, Hi|].
    intros k Hk. now apply merged_other.
  - split; [reflexivity|]. intros i m Hi. discriminate.
Qed.

Lemma merge_frame_witness :
  let d := mkDocument (Some [[("id", JStr "x"); ("name", JStr "X")]])
                      [("version", JNum 4)] in
  let s := mkDocument (Some [[("id", JStr "x"); ("downloadCount", JNum 42)]]) [] in
  exists w' out,
    merge_files "main.json" "store.json" "out.json"
      (mkWorld (disk d (Some (JSONDoc s))) []) = (Normal tt, w') /\
    fs w' "out.json" = Some (JSONDoc out) /\
    siblings out = [("version", JNum 4)] /\
    exists m',
      default [] (plugins out) !! 0%nat = Some m' /\
      get m' "name" = Some (JStr "X").
Proof.
  intros d s.
  destruct (merge_frame "main.json" "store.json" "out.json"
              (mkWorld (disk d (Some (JSONDoc s))) []) d s)
    as (w' & out & Hrun & Hout & Hsib & _ & Hent).
  - reflexivity.
  - reflexivity.
  - exists w', out. repeat split; try assumption.
    destruct (Hent 0%nat [("id", JStr "x"); ("name", JStr "X")])
      as (m' & Hm' & Hk); [reflexivity|].
    exists m'. split; [assumption|].
    rewrite Hk; [reflexivity | discriminate].
Defined.

End MergeFacts.

(** ** Dates *)

Module ClockFacts.
Import Clock.

(** [YearFromTime] is the year of the ECMAScript definition: the largest
    year that starts on or before the day of [t]. *)
Lemma DayFromYear_step (y : Z) : DayFromYear (y + 1) = DayFromYear y + DaysInYear y.
Proof.
  unfold DayFromYear, DaysInYear.
  destruct (Z.eqb_spec (y mod 4) 0); destruct (Z.eqb_spec (y mod 100) 0);
  destruct (Z.eqb_spec (y mod 400) 0); simpl;
  Z.div_mod_to_equations; lia.
Qed.

Lemma YearFromTime_spec (t : Z) :
  DayFromYear (YearFromTime t) <= Day t < DayFromYear (YearFromTime t + 1).
Proof.
  unfold YearFromTime. set (d := Day t). clearbody d.
  set (y := 1970 + 400 * d / 146097).
  assert (Hy : 146097 * (y - 1970) <= 400 * d < 146097 * (y - 1970) + 146097).
  { subst y. Z.div_mod_to_equations. lia. }
  clearbody y.
  assert (Hlo : DayFromYear (y - 1) <= d).
  { unfold DayFromYear. Z.div_mod_to_equations. lia. }
  assert (Hhi : d < DayFromYear (y + 2)).
  { unfold DayFromYear. Z.div_mod_to_equations. lia. }
  destruct (Z.ltb_spec d (DayFromYear y)).
  - replace (y - 1 + 1) with y by lia. lia.
  - destruct (Z.leb_spec (DayFromYear (y + 1)) d).
    + replace (y + 1 + 1) with (y + 2) by lia. lia.
    + lia.
Qed.

Lemma DayWithinYear_bound (t : Z) :
  0 <= DayWithinYear t < DaysInYear (YearFromTime t).
Proof.
  unfold DayWithinYear. pose proof (YearFromTime_spec t) as H.
  rewrite DayFromYear_step in H. lia.
Qed.

(** The fields printed by [date_time_string] are those of a calendar date
    and a time of day. *)
Lemma calendar_fields_bound (t : Z) :
  0 <= MonthFromTime t <= 11 /\ 1 <= DateFromTime t <= 31 /\
  0 <= HourFromTime t < 24 /\ 0 <= MinFromTime t < 60 /\
  0 <= SecFromTime t < 60 /\ 0 <= msFromTime t < 1000.
Proof.
  pose proof (DayWithinYear_bound t) as Hd.
  unfold DateFromTime, MonthFromTime, InLeapYear in *.
  unfold HourFromTime, MinFromTime, SecFromTime, msFromTime.
  assert (Hy : DaysInYear (YearFromTime t) = 365 \/ DaysInYear (YearFromTime t) = 366).
  { unfold DaysInYear.
    destruct (negb _); [auto|]. destruct (negb _); [auto|]. destruct (negb _); auto. }
  set (d := DayWithinYear t) in *. clearbody d.
  set (n := DaysInYear (YearFromTime t)) in *. clearbody n.
  repeat split; try (apply Z.mod_pos_bound; lia);
    destruct Hy as [-> | ->]; simpl;
    repeat match goal with
           | |- context [Z.ltb ?a ?b] => destruct (Z.ltb_spec a b)
           end; simpl; lia.
Qed.

Lemma is_digit_digit (n : Z) : is_digit (digit n) = true.
Proof.
  unfold digit. pose proof (Z.mod_pos_bound n 10 ltac:(lia)) as H.
  remember (Z.to_nat (n mod 10)) as m eqn:Hm.
  assert (Hlt : (m < 10)%nat) by lia. clear -Hlt.
  do 10 (destruct m as [|m]; [reflexivity|]). lia.
Qed.

Lemma millis_Z_end_long (ch x1 x2 x3 x4 x5 : ascii) (s : string) :
  millis_Z_end ch (String x1 (String x2 (String x3 (String x4 (String x5 s))))) = false.
Proof. unfold millis_Z_end. apply andb_false_r. Qed.

Lemma replace_millis_Z_end (body by_ : string) (a b c : ascii) :
  is_digit a = true -> is_digit b = true -> is_digit c = true ->
  replace_millis_Z (body +:+ String "." (String a (String b (String c "Z")))) by_ =
    body +:+ by_.
Proof.
  intros Ha Hb Hc. induction body as [|ch body IH].
  - simpl. unfold millis_Z_end. simpl. rewrite Ha, Hb, Hc. reflexivity.
  - simpl. rewrite IH.
    assert (Hlong : millis_Z_end ch
              (body +:+ String "." (String a (String b (String c "Z")))) = false).
    { destruct body as [|y1 [|y2 [|y3 [|y4 [|y5 body]]]]]; simpl;
        apply millis_Z_end_long. }
    now rewrite Hlong.
Qed.

(** With a valid date, [getBeijingTime] is the date and time of the clock
    reading moved by eight hours, without milliseconds, followed by the
    offset [+08:00]. *)
Lemma getBeijingTime_format (now : Z) :
  Z.abs (now + 28800000) <= 8640000000000000 ->
  getBeijingTime now = Some (date_time_string (now + 28800000) +:+ "+08:00").
Proof.
  intros H. unfold getBeijingTime, new_Date.
  replace (now + 8 * 60 * 60 * 1000) with (now + 28800000) by lia.
  destruct (Z.leb (Z.abs (now + 28800000)) 8640000000000000) eqn:E;
    [|apply Z.leb_gt in E; lia].
  cbn [toISOString mbind option_bind]. f_equal.
  unfold pad3, pad2. simpl String.append.
  apply replace_millis_Z_end; apply is_digit_digit.
Qed.

End ClockFacts.

(** ** The download-count updater *)

Module ReconcileFacts.
Import Reconcile.

(** *** Retrying *)

Lemma fetchWithRetry_all_fail (responses : nat -> fetch_result)
    (url : string) (options : list (string * string)) (retry k : nat) :
  (forall n, attempt_failure (responses n) <> None) ->
  exists tr msg,
    fetchWithRetry responses url options retry k = (tr, inl msg) /\
    attempt_failure (responses (k + retry)%nat) = Some msg /\
    length (fetch_starts tr) = S retry /\
    delays tr = repeat RETRY_DELAY retry.
Proof.
  intros Hfail. revert k. induction retry as [|retry IH]; intros k.
  - simpl. specialize (Hfail k). rewrite Nat.add_0_r.
    unfold attempt_failure in *.
    destruct (responses k) as [msg|res].
    + eexists _, _. repeat split; reflexivity.
    + destruct (ok res); [congruence|].
      eexists _, _. repeat split; reflexivity.
  - destruct (IH (S k)) as (tr & msg & Hrun & Hlast & Hn & Hd).
    replace (k + S retry)%nat with (S k + retry)%nat by lia.
    pose proof (Hfail k) as Hk. unfold attempt_failure in Hk.
    simpl. destruct (responses k) as [m|res].
    + rewrite Hrun. eexists _, _. split; [reflexivity|].
      split; [exact Hlast|]. simpl. rewrite Hn, Hd. split; reflexivity.
    + destruct (ok res); [congruence|].
      rewrite Hrun. eexists _, _. split; [reflexivity|].
      split; [exact Hlast|]. simpl. rewrite Hn, Hd. split; reflexivity.
Qed.

Lemma attempt_failure_step (responses : nat -> fetch_result)
    (url : string) (options : list (string * string)) (retry k : nat) (msg : string) :
  attempt_failure (responses k) = Some msg ->
  fetchWithRetry responses url options (S retry) k =
    (let '(rest, outcome) := fetchWithRetry responses url options retry (S k) in
     ([FetchStart url options; FetchEnd (responses k)] ++
      [RetryLogged (S retry) msg; Delay RETRY_DELAY] ++ rest, outcome)).
Proof.
  intros H. unfold attempt_failure in H. simpl.
  destruct (responses k) as [m|res].
  - now injection H as ->.
  - destruct (ok res); [discriminate|]. now injection H as ->.
Qed.

Lemma attempt_failure_last (responses : nat -> fetch_result)
    (url : string) (options : list (string * string)) (k : nat) (msg : string) :
  attempt_failure (responses k) = Some msg ->
  fetchWithRetry responses url options 0 k =
    ([FetchStart url options; FetchEnd (responses k)], inl msg).
Proof.
  intros H. unfold attempt_failure in H. simpl.
  destruct (responses k) as [m|res].
  - now injection H as ->.
  - destruct (ok res); [discriminate|]. now injection H as ->.
Qed.


(** *** The batch loop *)

Section Batches.

Variable URL_new : value -> option URL.
Variable remote : nat -> nat -> fetch_result.
Variable token : option string.

Lemma runs_from_app (i : nat) (l1 l2 : list object) :
  runs_from URL_new remote token i (l1 ++ l2) =
    runs_from URL_new remote token i l1 ++
    runs_from URL_new remote token (i + length l1) l2.
Proof.
  unfold runs_from. rewrite imap_app. f_equal.
  apply imap_ext. intros k x _. now rewrite Nat.add_assoc.
Qed.

Lemma slice_batch_runs (ps : list object) (i : nat) :
  map (fun '(i, p) => getDownloadCountForPlugin URL_new (remote i) i p token)
      (slice_batch ps i) =
    runs_from URL_new remote token i (take CONCURRENCY (drop i ps)).
Proof.
  unfold slice_batch, runs_from.
  change (map ?f ?l) with (f <$> l). rewrite fmap_imap.
  apply imap_ext. intros k x _. reflexivity.
Qed.

Lemma batch_loop_spec (ps : list object) (fuel i : nat) (acc : list result) (w : world) :
  (length (drop i ps) <= fuel)%nat ->
  exists bs,
    batch_loop URL_new fuel remote ps token i acc w =
      (Normal (acc ++ map snd (runs_from URL_new remote token i (drop i ps))),
       mkWorld (fs w) (console w) (network w ++ bs) (writes w)) /\
    concat bs = map fst (runs_from URL_new remote token i (drop i ps)) /\
    batch_sizes bs (length (drop i ps)).
Proof.
  revert i acc w. induction fuel as [|fuel IH]; intros i acc w Hfuel.
  - assert (drop i ps = []) as -> by (apply nil_length_inv; lia).
    exists []. simpl. rewrite !app_nil_r. destruct w. auto.
  - simpl. destruct (Nat.ltb i (length ps)) eqn:Hi.
    + apply Nat.ltb_lt in Hi.
      unfold mbind, proc_bind, Promise_all. rewrite slice_batch_runs.
      set (b := runs_from URL_new remote token i (take CONCURRENCY (drop i ps))).
      set (w1 := mkWorld (fs w) (console w) (network w ++ [map fst b]) (writes w)).
      assert (Hlen : length (drop i ps) = (length ps - i)%nat) by apply length_drop.
      destruct (IH (i + CONCURRENCY)%nat (acc ++ map snd b) w1) as (bs & Hrun & Hcat & Hsz).
      { rewrite length_drop in *. unfold CONCURRENCY. lia. }
      exists (map fst b :: bs). rewrite Hrun. subst w1. simpl.
      assert (Hsplit : drop i ps =
                       take CONCURRENCY (drop i ps) ++ drop (i + CONCURRENCY) ps).
      { rewrite <- (take_drop CONCURRENCY (drop i ps)) at 1.
        now rewrite drop_drop. }
      assert (Hruns : runs_from URL_new remote token i (drop i ps) =
                      b ++ runs_from URL_new remote token (i + CONCURRENCY)
                             (drop (i + CONCURRENCY) ps)).
      { rewrite Hsplit at 1. rewrite runs_from_app. fold b. f_equal.
        destruct (decide (length (drop i ps) <= CONCURRENCY)%nat) as [Hle|Hgt].
        - assert (drop (i + CONCURRENCY) ps = []) as ->.
          { apply nil_length_inv. rewrite length_drop in *. lia. }
          reflexivity.
        - rewrite length_take. do 2 f_equal. lia. }
      split; [|split].
      * rewrite Hruns, map_app, <- !app_assoc. reflexivity.
      * rewrite Hcat, Hruns, map_app. reflexivity.
      * split; [lia|]. split.
        -- rewrite length_map. unfold b, runs_from. rewrite length_imap, length_take.
           reflexivity.
        -- rewrite length_drop in *. replace (length ps - i - CONCURRENCY)%nat
             with (length ps - (i + CONCURRENCY))%nat by lia. exact Hsz.
    + apply Nat.ltb_ge in Hi.
      assert (drop i ps = []) as -> by (apply nil_length_inv; rewrite length_drop; lia).
      exists []. simpl. rewrite !app_nil_r. destruct w. auto.
Qed.

End Batches.

(** *** Calls in flight *)

Lemma in_flight_app (a b : list event) :
  in_flight (a ++ b) = in_flight a + in_flight b.
Proof.
  induction a as [|e a IH]; simpl; [reflexivity|].
  destruct e; rewrite ?IH; lia.
Qed.

Lemma bracketed_nil : bracketed [].
Proof.
  intros r [k Hk]. symmetry in Hk. apply app_eq_nil in Hk as [_ ->].
  simpl. lia.
Qed.

Lemma bracketed_cons (e : event) (t : list event) :
  bracketed t -> -1 <= in_flight (e :: t) <= 0 -> bracketed (e :: t).
Proof.
  intros Ht He r [k Hk]. destruct k as [|e' k]; simpl in Hk.
  - now subst r.
  - injection Hk as _ ->. apply Ht. now exists k.
Qed.

Lemma bracketed_suffix (r t : list event) :
  bracketed t -> r `suffix_of` t -> bracketed r.
Proof. intros Ht Hr q Hq. apply Ht. now transitivity r. Qed.

Lemma bracketed_self (t : list event) : bracketed t -> -1 <= in_flight t <= 0.
Proof. intros H. now apply H. Qed.

Lemma fetchWithRetry_bracketed (responses : nat -> fetch_result)
    (url : string) (options : list (string * string)) (retry k : nat) :
  bracketed (fetchWithRetry responses url options retry k).1 /\
  in_flight (fetchWithRetry responses url options retry k).1 = 0.
Proof.
  assert (Hcall : forall r, bracketed [FetchStart url options; FetchEnd r] /\
                            in_flight [FetchStart url options; FetchEnd r] = 0).
  { intros r. split; [|reflexivity].
    repeat (apply bracketed_cons; [|simpl; lia]). apply bracketed_nil. }
  revert k. induction retry as [|retry IH]; intros k; simpl.
  - destruct (responses k) as [msg|res]; [apply Hcall|].
    destruct (ok res); [|apply Hcall].
    destruct (json_body res); apply Hcall.
  - assert (Hretry : forall msg,
      bracketed
        (let '(rest, outcome) := fetchWithRetry responses url options retry (S k) in
         ([FetchStart url options; FetchEnd (responses k)] ++
          [RetryLogged (S retry) msg; Delay RETRY_DELAY] ++ rest, outcome)).1 /\
      in_flight
        (let '(rest, outcome) := fetchWithRetry responses url options retry (S k) in
         ([FetchStart url options; FetchEnd (responses k)] ++
          [RetryLogged (S retry) msg; Delay RETRY_DELAY] ++ rest, outcome)).1 = 0).
    { intros msg. destruct (IH (S k)) as [Hb H0].
      destruct (fetchWithRetry responses url options retry (S k)) as [rest outcome].
      simpl in *. split; [|lia].
      repeat (apply bracketed_cons; [|simpl; lia]). exact Hb. }
    destruct (responses k) as [msg|res]; [apply Hretry|].
    destruct (ok res); [|apply Hretry].
    destruct (json_body res); apply Hcall.
Qed.

Lemma getDownloadCountForPlugin_bracketed (URL_new : value -> option URL)
    (responses : nat -> fetch_result) (i : nat) (p : object) (token : option string) :
  bracketed (getDownloadCountForPlugin URL_new responses i p token).1 /\
  in_flight (getDownloadCountForPlugin URL_new responses i p token).1 = 0.
Proof.
  unfold getDownloadCountForPlugin.
  destruct (extractGitHubRepo URL_new (get p "downloadUrl")) as [[owner repo]|].
  - unfold fetchGitHubReleases.
    match goal with
    | |- context [fetchWithRetry ?r ?u ?o ?n ?k] =>
        pose proof (fetchWithRetry_bracketed r u o n k) as H;
        destruct (fetchWithRetry r u o n k) as [tr [msg|rs]]
    end; exact H.
  - split; [apply bracketed_nil | reflexivity].
Qed.

Lemma interleaving_in_flight (ts : list (list event)) (s : list event) :
  interleaving ts s -> in_flight s = in_flight (concat ts).
Proof.
  induction 1 as [ts Hnil | ts1 e t ts2 s _ IH].
  - induction Hnil as [|t ts -> _ IH]; simpl; auto.
  - rewrite concat_app in *. simpl concat in *.
    rewrite in_flight_app in *. simpl app.
    destruct e; simpl; rewrite IH; lia.
Qed.

Lemma interleaving_rest (ts : list (list event)) (p r : list event) :
  interleaving ts (p ++ r) ->
  exists ts', interleaving ts' r /\ Forall2 (fun t' t => t' `suffix_of` t) ts' ts.
Proof.
  revert ts. induction p as [|e p IH]; intros ts H.
  - exists ts. split; [exact H|]. apply Forall_Forall2_diag.
    apply Forall_forall. intros; reflexivity.
  - simpl in H. inversion H as [|ts1 e' t ts2 s' H' Hts]; subst.
    destruct (IH _ H') as (ts' & Hr & Hsuf).
    exists ts'. split; [exact Hr|].
    apply Forall2_app_inv_r in Hsuf as (k1 & k2 & H1 & H2 & ->).
    apply Forall2_cons_inv_r in H2 as (t' & k2' & Ht' & H2 & ->).
    apply Forall2_app; [exact H1|]. constructor; [|exact H2].
    now apply suffix_cons_r.
Qed.

Lemma bracketed_concat (ts : list (list event)) :
  Forall bracketed ts -> - Z.of_nat (length ts) <= in_flight (concat ts) <= 0.
Proof.
  induction 1 as [|t ts Ht _ IH]; simpl; [lia|].
  rewrite in_flight_app. apply bracketed_self in Ht. lia.
Qed.

(** Within one batch, never more calls in flight than the batch has. *)
Lemma batch_in_flight (b : list (list event)) (s p r : list event) :
  Forall (fun t => bracketed t /\ in_flight t = 0) b ->
  interleaving b s ->
  s = p ++ r ->
  in_flight s = 0 /\ 0 <= in_flight p <= Z.of_nat (length b).
Proof.
  intros Hb Hs ->.
  assert (Hzero : in_flight (concat b) = 0).
  { clear Hs. induction Hb as [|t ts [_ Ht] _ IH]; simpl; [reflexivity|].
    rewrite in_flight_app. lia. }
  pose proof (interleaving_in_flight _ _ Hs) as Hall. rewrite Hzero in Hall.
  split; [exact Hall|].
  destruct (interleaving_rest _ _ _ Hs) as (ts' & Hr & Hsuf).
  pose proof (interleaving_in_flight _ _ Hr) as Hrest.
  assert (Hbr : Forall bracketed ts').
  { clear -Hb Hsuf. induction Hsuf as [|t' t ts' ts Ht _ IH]; constructor.
    - apply Forall_cons in Hb as [[Hbt _] _]. now apply (bracketed_suffix t' t).
    - apply IH. now apply Forall_cons in Hb as [_ Hb]. }
  pose proof (bracketed_concat _ Hbr) as Hbound.
  rewrite (Forall2_length _ _ _ Hsuf) in Hbound.
  rewrite in_flight_app in Hall. lia.
Qed.

Lemma prefix_of_app {A} (p s1 s2 : list A) :
  p `prefix_of` s1 ++ s2 ->
  p `prefix_of` s1 \/ exists p2, p = s1 ++ p2 /\ p2 `prefix_of` s2.
Proof.
  revert p. induction s1 as [|x s1 IH]; intros p Hp.
  - right. now exists p.
  - destruct p as [|y p].
    + left. apply prefix_nil.
    + simpl in Hp. destruct Hp as [k Hk]. injection Hk as <- Hk.
      destruct (IH p) as [Hl | (p2 & -> & Hr)]; [now exists k| |].
      * left. now apply prefix_cons.
      * right. now exists p2.
Qed.

Lemma schedule_in_flight (bs : list (list (list event))) (s : list event) :
  Forall (fun b => (length b <= CONCURRENCY)%nat /\
                   Forall (fun t => bracketed t /\ in_flight t = 0) b) bs ->
  schedule bs s ->
  in_flight s = 0 /\
  forall p, p `prefix_of` s -> 0 <= in_flight p <= Z.of_nat CONCURRENCY.
Proof.
  intros Hbs Hs. induction Hs as [|b bs s1 s2 Hb _ IH].
  - split; [reflexivity|]. intros p [k Hk].
    symmetry in Hk. apply app_eq_nil in Hk as [-> _]. simpl. lia.
  - apply Forall_cons in Hbs as [[Hlen Hgood] Hbs].
    destruct (IH Hbs) as [Hz2 Hp2].
    destruct (batch_in_flight b s1 s1 [] Hgood Hb) as [Hz1 _];
      [now rewrite app_nil_r|].
    split; [rewrite in_flight_app; lia|].
    intros p Hp. apply prefix_of_app in Hp as [Hp | (p2 & -> & Hp)].
    + destruct Hp as [k ->].
      destruct (batch_in_flight b _ p k Hgood Hb eq_refl) as [_ Hbound]. lia.
    + rewrite in_flight_app. specialize (Hp2 _ Hp). lia.
Qed.

(** *** The pass over the results *)

Lemma strict_equal_refl (a : value) : strict_equal true a a = true.
Proof.
  destruct a as [[| b | n | x | l | o]|]; simpl; auto.
  - apply Bool.eqb_reflx.
  - apply Z.eqb_refl.
  - apply String.eqb_refl.
Qed.

Lemma findIndex_from_first (l : list object) (j0 i0 i : nat) (id : value) (p : object) :
  l !! i0 = Some p ->
  strict_equal (Nat.eqb (j0 + i0) i) (get p "id") id = true ->
  (forall k q, (k < i0)%nat -> l !! k = Some q ->
               strict_equal (Nat.eqb (j0 + k) i) (get q "id") id = false) ->
  findIndex_from j0 l i id = Some (j0 + i0)%nat.
Proof.
  revert j0 i0. induction l as [|q l IH]; intros j0 i0 Hp Heq Hbefore.
  - discriminate.
  - destruct i0 as [|i0]; simpl in *.
    + injection Hp as ->. rewrite Nat.add_0_r in *. now rewrite Heq.
    + pose proof (Hbefore 0%nat q ltac:(lia) eq_refl) as H0.
      rewrite Nat.add_0_r in H0. rewrite H0.
      replace (j0 + S i0)%nat with (S j0 + i0)%nat by lia.
      apply IH; auto.
      * now replace (S j0 + i0)%nat with (j0 + S i0)%nat by lia.
      * intros k q' Hk Hq'.
        replace (S j0 + k)%nat with (j0 + S k)%nat by lia.
        apply (Hbefore (S k) q'); [lia|exact Hq'].
Qed.

Lemma findIndex_from_found (l : list object) (j0 i : nat) (id : value) (j : nat) :
  findIndex_from j0 l i id = Some j ->
  (j0 <= j)%nat /\ exists p, l !! (j - j0)%nat = Some p.
Proof.
  revert j0. induction l as [|q l IH]; intros j0 H; simpl in H.
  - discriminate.
  - destruct (strict_equal (Nat.eqb j0 i) (get q "id") id).
    + injection H as <-. split; [lia|]. rewrite Nat.sub_diag. now exists q.
    + apply IH in H as [Hle [p Hp]]. split; [lia|]. exists p.
      replace (j - j0)%nat with (S (j - S j0)) by lia. exact Hp.
Qed.

Lemma findIndex_from_exists (l : list object) (j0 i0 i : nat) (id : value) (p : object) :
  l !! i0 = Some p ->
  strict_equal (Nat.eqb (j0 + i0) i) (get p "id") id = true ->
  exists j, findIndex_from j0 l i id = Some j.
Proof.
  revert j0 i0. induction l as [|q l IH]; intros j0 i0 Hp Heq.
  - discriminate.
  - simpl. destruct (strict_equal (Nat.eqb j0 i) (get q "id") id) eqn:E; [eauto|].
    destruct i0 as [|i0]; simpl in *.
    + injection Hp as ->. rewrite Nat.add_0_r in Heq. congruence.
    + apply (IH (S j0) i0); auto.
      now replace (S j0 + i0)%nat with (j0 + S i0)%nat by lia.
Qed.

Lemma findIndex_from_ids (l l' : list object) (j0 i : nat) (id : value) :
  map (fun p => get p "id") l = map (fun p => get p "id") l' ->
  findIndex_from j0 l i id = findIndex_from j0 l' i id.
Proof.
  revert l' j0. induction l as [|q l IH]; intros [|q' l'] j0 H; try discriminate; auto.
  simpl in *. injection H as Hq Hl. rewrite Hq. now rewrite (IH l' (S j0) Hl).
Qed.

Lemma findIndex_ids (l l' : list object) (i : nat) :
  map (fun p => get p "id") l = map (fun p => get p "id") l' ->
  findIndex l i = findIndex l' i.
Proof.
  intros H. unfold findIndex.
  assert (Hi : (fun p => get p "id") <$> l !! i = (fun p => get p "id") <$> l' !! i).
  { rewrite <- !list_lookup_fmap. change (?f <$> ?x) with (map f x). now rewrite H. }
  destruct (l !! i) as [p|], (l' !! i) as [p'|]; simpl in Hi; try discriminate; auto.
  injection Hi as ->. now apply findIndex_from_ids.
Qed.

Lemma findIndex_found (ps : list object) (i j : nat) :
  findIndex ps i = Some j ->
  (exists p, ps !! i = Some p) /\ (exists entry, ps !! j = Some entry).
Proof.
  unfold findIndex. destruct (ps !! i) as [p|]; [|discriminate].
  intros H. split; [eauto|].
  apply findIndex_from_found in H as [_ [q Hq]]. rewrite Nat.sub_0_r in Hq. eauto.
Qed.

Lemma findIndex_exists (ps : list object) (i : nat) (p : object) :
  ps !! i = Some p -> exists j, findIndex ps i = Some j.
Proof.
  intros Hp. unfold findIndex. rewrite Hp.
  apply (findIndex_from_exists ps 0 i i _ p Hp).
  simpl. rewrite Nat.eqb_refl. apply strict_equal_refl.
Qed.

Lemma findIndex_unique (ps : list object) (i : nat) (p : object) :
  ids_unique ps -> ps !! i = Some p -> findIndex ps i = Some i.
Proof.
  intros Hu Hp. unfold findIndex. rewrite Hp.
  apply (findIndex_from_first ps 0 i i _ p Hp).
  - simpl. rewrite Nat.eqb_refl. apply strict_equal_refl.
  - intros k q Hk Hq. simpl.
    destruct (strict_equal (Nat.eqb k i) (get q "id") (get p "id")) eqn:E; auto.
    apply (Hu k i q p Hq Hp) in E. lia.
Qed.

Lemma process_result_at (flag : bool) (bj : string) (t : tally) (r : result)
    (j : nat) (entry : object) :
  findIndex (plugins_now t) (plugin r) = Some j ->
  plugins_now t !! j = Some entry ->
  plugins_now (process_result flag bj t r) =
    <[j := updated_entry flag bj entry r]> (plugins_now t) /\
  hasAnyChange (process_result flag bj t r) =
    hasAnyChange t || flag || count_differs entry r.
Proof.
  intros Hfind Hentry. unfold process_result. rewrite Hfind, Hentry.
  destruct (findIndex_found _ _ _ Hfind) as [[p Hp] _]. rewrite Hp.
  assert (Hj : (j < length (plugins_now t))%nat) by now apply lookup_lt_Some in Hentry.
  unfold updated_entry, count_differs, stored_count.
  destruct (error_set (error r)); simpl.
  - destruct flag; simpl.
    + rewrite list_lookup_insert_eq by assumption.
      rewrite list_insert_insert_eq. split; [reflexivity|].
      now rewrite orb_true_r.
    + split; [reflexivity|]. now rewrite !orb_false_r.
  - destruct flag; simpl.
    + rewrite list_lookup_insert_eq by assumption.
      rewrite list_insert_insert_eq. split; [reflexivity|].
      now rewrite orb_true_r.
    + split; [reflexivity|]. rewrite orb_false_r.
      destruct (strict_equal false (get entry "downloadCount") (Some (count r)));
        simpl; [now rewrite orb_false_r | now rewrite orb_true_r].
Qed.

Lemma process_result_unmatched (flag : bool) (bj : string) (t : tally) (r : result) :
  findIndex (plugins_now t) (plugin r) = None -> process_result flag bj t r = t.
Proof. intros H. unfold process_result. now rewrite H. Qed.

Lemma updated_entry_get (flag : bool) (bj : string) (e : object) (r : result) (k : string) :
  k <> "downloadCount" -> k <> "updateTime" ->
  get (updated_entry flag bj e r) k = get e k.
Proof.
  intros H1 H2. unfold updated_entry.
  destruct flag; rewrite ?get_put_ne by congruence; reflexivity.
Qed.

Lemma updated_entry_count (flag : bool) (bj : string) (e : object) (r : result) :
  get (updated_entry flag bj e r) "downloadCount" =
    Some (if error_set (error r) then stored_count e else count r).
Proof.
  unfold updated_entry.
  destruct flag; rewrite ?get_put_ne by discriminate; apply get_put_eq.
Qed.

Section UniqueIds.

Variables (flag : bool) (bj : string) (ps : list object).
Variable R : nat -> object -> result.
Hypothesis R_plugin : forall i p, plugin (R i p) = i.
Hypothesis unique : ids_unique ps.

Lemma pass_unique (k : nat) :
  (k <= length ps)%nat ->
  plugins_now (partial_tally flag bj ps (imap R ps) k) =
    imap (fun i p => if Nat.ltb i k then updated_entry flag bj p (R i p) else p) ps /\
  (hasAnyChange (partial_tally flag bj ps (imap R ps) k) = true <->
   exists i p, (i < k)%nat /\ ps !! i = Some p /\
               flag || count_differs p (R i p) = true).
Proof.
  induction k as [|k IH]; intros Hk.
  - unfold partial_tally. simpl. split.
    + apply list_eq. intros i. rewrite list_lookup_imap.
      now destruct (ps !! i).
    + split; [discriminate|]. intros (i & p & Hi & _). lia.
  - destruct IH as [IHp IHc]; [lia|].
    destruct (lookup_lt_is_Some_2 ps k) as [p Hp]; [lia|].
    assert (Hr : imap R ps !! k = Some (R k p)) by now rewrite list_lookup_imap, Hp.
    unfold partial_tally in *. rewrite (take_S_r _ _ _ Hr), fold_left_app. simpl.
    set (t := fold_left (process_result flag bj) (take k (imap R ps))
                (mkTally ps 0 false [])) in *.
    assert (Hids : map (fun q => get q "id") (plugins_now t) =
                   map (fun q => get q "id") ps).
    { rewrite IHp. change (map ?f ?l) with (f <$> l). apply list_eq. intros i.
      rewrite !list_lookup_fmap, list_lookup_imap.
      destruct (ps !! i) as [q|]; [|reflexivity]. simpl. f_equal.
      destruct (Nat.ltb i k); [|reflexivity].
      apply updated_entry_get; discriminate. }
    assert (Hfind : findIndex (plugins_now t) (plugin (R k p)) = Some k).
    { rewrite R_plugin, (findIndex_ids _ _ _ Hids). now apply (findIndex_unique ps k p). }
    assert (Hentry : plugins_now t !! k = Some p).
    { rewrite IHp, list_lookup_imap, Hp. simpl. now rewrite Nat.ltb_irrefl. }
    destruct (process_result_at flag bj t (R k p) k p Hfind Hentry) as [Hps Hch].
    split.
    + rewrite Hps, IHp. apply list_eq. intros i.
      destruct (decide (i = k)) as [->|Hne].
      * rewrite list_lookup_insert_eq by (rewrite length_imap; lia).
        rewrite list_lookup_imap, Hp. simpl.
        now replace (Nat.ltb k (S k)) with true by (symmetry; apply Nat.ltb_lt; lia).
      * rewrite list_lookup_insert_ne by congruence.
        rewrite !list_lookup_imap. destruct (ps !! i) as [q|]; [|reflexivity]. simpl.
        destruct (Nat.ltb i k) eqn:E1, (Nat.ltb i (S k)) eqn:E2; auto;
          apply Nat.ltb_lt in E1 || apply Nat.ltb_ge in E1;
          apply Nat.ltb_lt in E2 || apply Nat.ltb_ge in E2; lia.
    + rewrite Hch. split.
      * intros H. apply orb_true_iff in H as [H|H].
        -- apply orb_true_iff in H as [H|H].
           ++ apply IHc in H as (i & q & Hi & Hq & Hd). exists i, q. split; [lia|auto].
           ++ exists k, p. split; [lia|]. split; [exact Hp|]. now rewrite H.
        -- exists k, p. split; [lia|]. split; [exact Hp|]. rewrite H. apply orb_true_r.
      * intros (i & q & Hi & Hq & Hd).
        destruct (decide (i = k)) as [->|Hne].
        -- rewrite Hp in Hq. injection Hq as <-.
           apply orb_true_iff in Hd as [-> | ->]; rewrite ?orb_true_r; reflexivity.
        -- assert (Hc : hasAnyChange t = true) by (apply IHc; exists i, q; split; [lia|auto]).
           now rewrite Hc.
Qed.

End UniqueIds.

(** *** The whole run *)

Section Run.

Variable URL_new : value -> option URL.
Variable remote : nat -> nat -> fetch_result.
Variable token : option string.

Lemma updateDownloadCounts_no_plugins (now : Z) (flag : bool) (w : world) (d : document) :
  fs w PLUGINS_FILE = Some (JSONDoc d) ->
  default [] (plugins d) = [] ->
  updateDownloadCounts URL_new remote now token flag w =
    (Normal tt,
     mkWorld (fs w) (console w ++ [Found PLUGINS_FILE; Starting flag; NoPlugins])
             (network w) (writes w)).
Proof.
  intros Hfile Hnone.
  unfold updateDownloadCounts, mbind, proc_bind, checkFileExists, try_catch,
    readFileSync, log.
  rewrite Hfile. simpl. rewrite Hfile. simpl. rewrite Hnone. simpl.
  rewrite <- !app_assoc. reflexivity.
Qed.

Lemma updateDownloadCounts_run (now : Z) (flag : bool) (w : world) (d : document)
    (ps : list object) (bj : string) :
  fs w PLUGINS_FILE = Some (JSONDoc d) ->
  plugins d = Some ps ->
  ps <> [] ->
  Clock.getBeijingTime now = Some bj ->
  exists bs,
    concat bs = map fst (runs_from URL_new remote token 0 ps) /\
    batch_sizes bs (length ps) /\
    let t := final_tally URL_new remote token flag bj ps in
    let doc := mkDocument (Some (plugins_now t)) (siblings d) in
    updateDownloadCounts URL_new remote now token flag w =
      (Normal tt,
       mkWorld
         (if hasAnyChange t then fs_write (fs w) PLUGINS_FILE (JSONDoc doc) else fs w)
         (console w ++ [Found PLUGINS_FILE; Starting flag] ++ printed t ++
          [if hasAnyChange t then FileWritten (downloadCountUpdated t) else WriteSkipped;
           if flag then FinishedStamped (downloadCountUpdated t) bj
           else Finished (downloadCountUpdated t)])
         (network w ++ bs)
         (writes w ++ if hasAnyChange t then [(PLUGINS_FILE, doc)] else [])).
Proof.
  intros Hfile Hps Hne Hbj.
  assert (Hlen : Nat.eqb (length ps) 0 = false).
  { destruct ps; [congruence|reflexivity]. }
  unfold updateDownloadCounts, mbind, proc_bind, checkFileExists, try_catch,
    readFileSync, log.
  rewrite Hfile. cbn [fs console network writes JSON_parse mret proc_ret].
  rewrite Hfile. cbn [fs console network writes JSON_parse mret proc_ret].
  rewrite Hps. change (default [] (Some ps)) with ps. rewrite Hlen. cbv beta.
  match goal with
  | |- context [batch_loop _ _ _ _ _ _ _ ?w0] =>
      destruct (batch_loop_spec URL_new remote token ps (length ps) 0 [] w0)
        as (bs & Hloop & Hcat & Hsz); [rewrite drop_0; lia|]
  end.
  rewrite drop_0 in *. exists bs. split; [exact Hcat|]. split; [exact Hsz|].
  cbv zeta. rewrite Hloop. cbn [app].
  unfold getBeijingTime. rewrite Hbj. cbn [mret proc_ret].
  unfold final_tally, all_results.
  set (t := fold_left (process_result flag bj) _ _).
  unfold log_all, writeFileSync, log, mbind, proc_bind, try_catch.
  cbn [fs console network writes].
  destruct (hasAnyChange t); cbn [fs console network writes];
    rewrite <- ?app_assoc; cbn [app]; rewrite ?app_nil_r; reflexivity.
Qed.

Lemma all_results_imap (ps : list object) :
  all_results URL_new remote token ps = imap (result_of URL_new remote token) ps.
Proof.
  unfold all_results, runs_from, result_of.
  change (map ?f ?l) with (f <$> l). rewrite fmap_imap.
  apply imap_ext. intros i p _. reflexivity.
Qed.

Lemma result_of_plugin (i : nat) (p : object) :
  plugin (result_of URL_new remote token i p) = i.
Proof.
  unfold result_of, getDownloadCountForPlugin.
  destruct (extractGitHubRepo URL_new (get p "downloadUrl")) as [[owner repo]|];
    [|reflexivity].
  now destruct (fetchGitHubReleases (remote i) owner repo token) as [tr [msg|rs]].
Qed.

Lemma result_of_count (i : nat) (p : object) :
  strict_equal false (Some (count (result_of URL_new remote token i p)))
                     (Some (count (result_of URL_new remote token i p))) = true.
Proof.
  unfold result_of, getDownloadCountForPlugin.
  destruct (extractGitHubRepo URL_new (get p "downloadUrl")) as [[owner repo]|];
    [|reflexivity].
  destruct (fetchGitHubReleases (remote i) owner repo token) as [tr [msg|rs]];
    simpl; [reflexivity | apply Z.eqb_refl].
Qed.

Lemma result_of_url (i : nat) (p q : object) :
  get p "downloadUrl" = get q "downloadUrl" ->
  result_of URL_new remote token i p = result_of URL_new remote token i q.
Proof. intros H. unfold result_of, getDownloadCountForPlugin. now rewrite H. Qed.

Lemma final_unique (flag : bool) (bj : string) (ps : list object) :
  ids_unique ps ->
  plugins_now (final_tally URL_new remote token flag bj ps) =
    imap (fun i p => updated_entry flag bj p (result_of URL_new remote token i p)) ps /\
  (hasAnyChange (final_tally URL_new remote token flag bj ps) = true <->
   exists i p, ps !! i = Some p /\
               flag || count_differs p (result_of URL_new remote token i p) = true).
Proof.
  intros Hu.
  destruct (pass_unique flag bj ps (result_of URL_new remote token)
              result_of_plugin Hu (length ps)) as [Hps Hch]; [lia|].
  unfold partial_tally in *.
  rewrite take_ge in * by (rewrite length_imap; lia).
  unfold final_tally. rewrite all_results_imap. split.
  - rewrite Hps. apply imap_ext. intros i p Hi.
    apply lookup_lt_Some in Hi. apply Nat.ltb_lt in Hi. now rewrite Hi.
  - rewrite Hch. split.
    + intros (i & p & _ & H). now exists i, p.
    + intros (i & p & Hp & H). exists i, p. split; [|auto].
      now apply lookup_lt_Some in Hp.
Qed.

(** With unique ids a run either writes the list in which every entry took
    its result, or finds no count to change and writes nothing. *)
Lemma run_unique (now : Z) (flag : bool) (w : world) (d : document) :
  fs w PLUGINS_FILE = Some (JSONDoc d) ->
  ids_unique (default [] (plugins d)) ->
  valid_clock now ->
  let bj := Clock.date_time_string (now + 28800000) +:+ "+08:00" in
  let ps := default [] (plugins d) in
  let ps' := imap (fun i p => updated_entry flag bj p (result_of URL_new remote token i p)) ps in
  let d' := mkDocument (Some ps') (siblings d) in
  exists w',
    updateDownloadCounts URL_new remote now token flag w = (Normal tt, w') /\
    ((fs w' = fs_write (fs w) PLUGINS_FILE (JSONDoc d') /\
      writes w' = writes w ++ [(PLUGINS_FILE, d')] /\
      exists i p, ps !! i = Some p /\
                  flag || count_differs p (result_of URL_new remote token i p) = true)
     \/
     (fs w' = fs w /\ writes w' = writes w /\
      forall i p, ps !! i = Some p ->
                  flag = false /\
                  count_differs p (result_of URL_new remote token i p) = false)).
Proof.
  intros Hfile Hu Hclock bj ps ps' d'.
  destruct (decide (ps = [])) as [Hnil|Hne].
  - eexists. split; [apply (updateDownloadCounts_no_plugins now flag w d Hfile Hnil)|].
    right. simpl. repeat split; auto; fold ps in H; rewrite Hnil in H; discriminate.
  - assert (Hps : plugins d = Some ps).
    { subst ps. destruct (plugins d); [reflexivity|]. now destruct Hne. }
    destruct (updateDownloadCounts_run now flag w d ps bj Hfile Hps Hne
                (ClockFacts.getBeijingTime_format now Hclock))
      as (bs & _ & _ & Hrun). cbv zeta in Hrun.
    destruct (final_unique flag bj ps Hu) as [Hpn Hch].
    eexists. split; [exact Hrun|]. cbn [fs writes].
    destruct (hasAnyChange (final_tally URL_new remote token flag bj ps)) eqn:E.
    + left. rewrite Hpn. fold ps' d'. repeat split; auto. now apply Hch.
    + right. rewrite app_nil_r. repeat split; auto.
      * destruct flag; [|reflexivity].
        assert (Hc : false = true) by (apply Hch; now exists i, p).
        discriminate.
      * destruct (count_differs p (result_of URL_new remote token i p)) eqn:Ed; [|reflexivity].
        assert (Hc : false = true); [|discriminate].
        apply Hch. exists i, p. split; [assumption|]. rewrite Ed. apply orb_true_r.
Qed.

End Run.

End ReconcileFacts.

Module Stamping.
Import Reconcile ReconcileFacts.

Lemma put_ids (e : object) (k : string) (v : json) :
  k <> "id" -> get (put e k v) "id" = get e "id".
Proof. intros H. now apply get_put_ne. Qed.

Lemma insert_same_ids (l : list object) (j : nat) (e e' : object) :
  l !! j = Some e ->
  get e' "id" = get e "id" ->
  map (fun q => get q "id") (<[j := e']> l) = map (fun q => get q "id") l.
Proof.
  intros Hj He. change (map ?f ?x) with (f <$> x).
  rewrite list_fmap_insert, He. apply list_insert_id.
  now rewrite list_lookup_fmap, Hj.
Qed.

Section Stamp.

Variables (bj : string) (ps : list object).

(** One step of the pass when stamping: ids stay, stamps stay, the matched
    entry is stamped and a change is recorded. *)
Lemma process_result_stamp (t : tally) (r : result) :
  map (fun q => get q "id") (plugins_now t) = map (fun q => get q "id") ps ->
  let t' := process_result true bj t r in
  map (fun q => get q "id") (plugins_now t') = map (fun q => get q "id") ps /\
  (forall j e, plugins_now t !! j = Some e ->
     get e "updateTime" = Some (JStr bj) ->
     exists e', plugins_now t' !! j = Some e' /\ get e' "updateTime" = Some (JStr bj)) /\
  (forall j, findIndex ps (plugin r) = Some j ->
     hasAnyChange t' = true /\
     exists e', plugins_now t' !! j = Some e' /\ get e' "updateTime" = Some (JStr bj)) /\
  (hasAnyChange t = true -> hasAnyChange t' = true).
Proof.
  intros Hids t'. subst t'.
  destruct (findIndex (plugins_now t) (plugin r)) as [j|] eqn:Hfind.
  - destruct (findIndex_found _ _ _ Hfind) as [_ [entry Hentry]].
    destruct (process_result_at true bj t r j entry Hfind Hentry) as [Hps Hch].
    assert (Hj : (j < length (plugins_now t))%nat) by now apply lookup_lt_Some in Hentry.
    assert (Hstamp : get (updated_entry true bj entry r) "updateTime" = Some (JStr bj)).
    { unfold updated_entry. apply get_put_eq. }
    rewrite Hps, Hch. split; [|split; [|split]].
    + rewrite <- Hids. apply (insert_same_ids _ _ entry); [assumption|].
      apply updated_entry_get; discriminate.
    + intros j' e Hj' He. destruct (decide (j' = j)) as [->|Hne].
      * rewrite list_lookup_insert_eq by assumption. eauto.
      * rewrite list_lookup_insert_ne by congruence. eauto.
    + intros j' Hj'. rewrite (findIndex_ids _ _ _ Hids) in Hfind.
      rewrite Hfind in Hj'. injection Hj' as <-.
      split; [now rewrite orb_true_r|].
      rewrite list_lookup_insert_eq by assumption. eauto.
    + intros _. now rewrite orb_true_r.
  - rewrite (process_result_unmatched _ _ _ _ Hfind).
    rewrite (findIndex_ids _ _ _ Hids) in Hfind.
    split; [assumption|]. split; [eauto|]. split; [|auto].
    intros j Hj. congruence.
Qed.

Lemma pass_stamps (rs : list result) (t : tally) :
  map (fun q => get q "id") (plugins_now t) = map (fun q => get q "id") ps ->
  let t' := fold_left (process_result true bj) rs t in
  (forall j e, plugins_now t !! j = Some e ->
     get e "updateTime" = Some (JStr bj) ->
     exists e', plugins_now t' !! j = Some e' /\ get e' "updateTime" = Some (JStr bj)) /\
  (forall r j, In r rs -> findIndex ps (plugin r) = Some j ->
     hasAnyChange t' = true /\
     exists e', plugins_now t' !! j = Some e' /\ get e' "updateTime" = Some (JStr bj)) /\
  (hasAnyChange t = true -> hasAnyChange t' = true).
Proof.
  revert t. induction rs as [|r rs IH]; intros t Hids; simpl.
  - split; [eauto|]. split; [|auto]. intros r j [].
  - destruct (process_result_stamp t r Hids) as (Hids1 & Hkeep1 & Hnew1 & Hmono1).
    destruct (IH _ Hids1) as (Hkeep & Hnew & Hmono).
    split; [|split].
    + intros j e Hj He. destruct (Hkeep1 j e Hj He) as (e1 & Hj1 & He1). eauto.
    + intros r' j [->|Hin] Hj.
      * destruct (Hnew1 j Hj) as [Hc (e1 & Hj1 & He1)]. split; [auto|eauto].
      * exact (Hnew r' j Hin Hj).
    + auto.
Qed.

End Stamp.

End Stamping.

Module ReconcileClaims.
Import Reconcile ReconcileFacts Stamping.

Lemma or_default_idem (v : value) (d : json) :
  or_default (Some (or_default v d)) d = or_default v d.
Proof.
  unfold or_default. destruct v as [x|].
  - destruct (truthy (Some x)) eqn:E.
    + now rewrite E.
    + now destruct (truthy (Some d)).
  - now destruct (truthy (Some d)).
Qed.

Lemma or_default_truthy (v : value) (d : json) :
  truthy v = true -> Some (or_default v d) = v.
Proof.
  unfold or_default. destruct v as [x|]; [|discriminate].
  intros H. now rewrite H.
Qed.

(** Failure preservation where the failure has a message: with unique ids,
    a plugin whose result carries an error message [msg] that is not empty
    (the URL is not a GitHub repository, or the request failed after its
    retries with that message) has after the run the stored count it had
    before, exactly so when it had one, and every plugin whose request
    succeeded has its fetched count in the file. *)
Theorem failure_keeps_count (URL_new : value -> option URL)
    (remote : nat -> nat -> fetch_result) (now : Z) (token : option string)
    (flag : bool) (w : world) (d : document) (ps : list object)
    (i : nat) (p : object) (msg : string) :
  fs w PLUGINS_FILE = Some (JSONDoc d) ->
  plugins d = Some ps ->
  ids_unique ps ->
  valid_clock now ->
  ps !! i = Some p ->
  error (result_of URL_new remote token i p) = Some msg ->
  msg <> "" ->
  exists w' d' ps' p',
    updateDownloadCounts URL_new remote now token flag w = (Normal tt, w') /\
    fs w' PLUGINS_FILE = Some (JSONDoc d') /\
    plugins d' = Some ps' /\
    ps' !! i = Some p' /\
    stored_count p' = stored_count p /\
    (truthy (get p "downloadCount") = true ->
     get p' "downloadCount" = get p "downloadCount") /\
    (forall j q, ps !! j = Some q ->
       error (result_of URL_new remote token j q) = None ->
       exists q', ps' !! j = Some q' /\
                  get q' "downloadCount" =
                    Some (count (result_of URL_new remote token j q))).
Proof.
  intros Hfile Hps Hu Hclock Hp Herr Hmsg.
  assert (Hset : error_set (error (result_of URL_new remote token i p)) = true).
  { rewrite Herr. simpl. destruct (String.eqb msg "") eqn:E; [|reflexivity].
    apply String.eqb_eq in E. contradiction. }
  destruct (run_unique URL_new remote token now flag w d Hfile) as (w' & Hrun & Hcase);
    [now rewrite Hps | assumption |].
  rewrite Hps in Hcase. change (default [] (Some ps)) with ps in Hcase.
  exists w'. destruct Hcase as [(Hfs & _ & _) | (Hfs & _ & Hsame)].
  - eexists _, _, _. split; [exact Hrun|].
    split; [rewrite Hfs; apply fs_write_same|].
    split; [reflexivity|].
    split; [rewrite list_lookup_imap, Hp; reflexivity|].
    split; [|split].
    + unfold stored_count at 1. rewrite updated_entry_count, Hset.
      apply or_default_idem.
    + intros Ht. rewrite updated_entry_count, Hset. now apply or_default_truthy.
    + intros j q Hq Hok. eexists. split; [rewrite list_lookup_imap, Hq; reflexivity|].
      rewrite updated_entry_count, Hok. reflexivity.
  - exists d, ps, p. split; [exact Hrun|].
    split; [now rewrite Hfs|]. split; [assumption|]. split; [assumption|].
    split; [reflexivity|]. split; [reflexivity|].
    intros j q Hq Hok. exists q. split; [assumption|].
    destruct (Hsame j q Hq) as [_ Hd]. unfold count_differs in Hd.
    rewrite Hok in Hd. simpl in Hd. apply negb_false_iff in Hd.
    now apply strict_equal_false_eq in Hd.
Qed.

Lemma failure_keeps_count_witness :
  let d := mkDocument (Some [plugin_b 7; plugin_a 3]) [] in
  exists w' d' ps' p',
    updateDownloadCounts https_URL (fun _ _ => releases_with 10) 1700000000000
      None false (fresh d) = (Normal tt, w') /\
    fs w' PLUGINS_FILE = Some (JSONDoc d') /\
    plugins d' = Some ps' /\
    ps' !! 0%nat = Some p' /\
    stored_count p' = JNum 7.
Proof.
  intros d.
  destruct (failure_keeps_count https_URL (fun _ _ => releases_with 10)
              1700000000000 None false (fresh d) d [plugin_b 7; plugin_a 3]
              0%nat (plugin_b 7) "无法从 downloadUrl 提取 GitHub 仓库信息")
    as (w' & d' & ps' & p' & Hrun & Hfile & Hps & Hp & Hcount & _).
  - reflexivity.
  - reflexivity.
  - ids_unique_by_cases.
  - unfold valid_clock. simpl. lia.
  - reflexivity.
  - reflexivity.
  - discriminate.
  - exists w', d', ps', p'. repeat split; assumption.
Defined.



Lemma updated_unique (flag : bool) (bj : string) (ps : list object)
    (R : nat -> object -> result) :
  ids_unique ps ->
  ids_unique (imap (fun i p => updated_entry flag bj p (R i p)) ps).
Proof.
  intros Hu i j p' q'. rewrite !list_lookup_imap.
  destruct (ps !! i) as [p|] eqn:Hp, (ps !! j) as [q|] eqn:Hq; simpl; try discriminate.
  intros [= <-] [= <-]. rewrite !updated_entry_get by discriminate.
  now apply (Hu i j p q).
Qed.

Lemma count_settled (URL_new : value -> option URL) (remote : nat -> nat -> fetch_result)
    (token : option string) (bj : string) (i : nat) (p : object) :
  let r := result_of URL_new remote token i p in
  let p1 := updated_entry false bj p r in
  count_differs p1 (result_of URL_new remote token i p1) = false.
Proof.
  intros r p1.
  assert (Hr : result_of URL_new remote token i p1 = r).
  { apply result_of_url. subst p1. apply updated_entry_get; discriminate. }
  rewrite Hr. unfold count_differs. subst p1. rewrite updated_entry_count.
  destruct (error_set (error r)); [reflexivity|].
  subst r. now rewrite result_of_count.
Qed.

(** C5, as amended.  Without stamping and with unique ids, a run writes the
    file only when it changes the [downloadCount] of some entry, and a
    second run against the same remote side writes nothing and leaves the
    disk as it is. *)
Theorem reconcile_writes_only_changes (URL_new : value -> option URL)
    (remote : nat -> nat -> fetch_result) (token : option string)
    (now1 now2 : Z) (w : world) (d : document) :
  fs w PLUGINS_FILE = Some (JSONDoc d) ->
  ids_unique (default [] (plugins d)) ->
  valid_clock now1 ->
  valid_clock now2 ->
  exists w1 w2,
    updateDownloadCounts URL_new remote now1 token false w = (Normal tt, w1) /\
    updateDownloadCounts URL_new remote now2 token false w1 = (Normal tt, w2) /\
    (writes w1 = writes w \/
     exists d1 i p p',
       writes w1 = writes w ++ [(PLUGINS_FILE, d1)] /\
       default [] (plugins d) !! i = Some p /\
       default [] (plugins d1) !! i = Some p' /\
       get p' "downloadCount" <> get p "downloadCount") /\
    writes w2 = writes w1 /\
    fs w2 = fs w1.
Proof.
  intros Hfile Hu Hc1 Hc2.
  destruct (run_unique URL_new remote token now1 false w d Hfile Hu Hc1)
    as (w1 & Hrun1 & Hcase1).
  set (bj1 := Clock.date_time_string (now1 + 28800000) +:+ "+08:00") in *.
  set (ps := default [] (plugins d)) in *.
  set (R := result_of URL_new remote token) in *.
  exists w1.
  destruct Hcase1 as [(Hfs1 & Hw1 & i & p & Hp & Hdiff) | (Hfs1 & Hw1 & Hsame)].
  - set (ps1 := imap (fun i p => updated_entry false bj1 p (R i p)) ps) in *.
    set (d1 := mkDocument (Some ps1) (siblings d)) in *.
    assert (Hfile1 : fs w1 PLUGINS_FILE = Some (JSONDoc d1))
      by (rewrite Hfs1; apply fs_write_same).
    assert (Hu1 : ids_unique (default [] (plugins d1)))
      by now apply updated_unique.
    destruct (run_unique URL_new remote token now2 false w1 d1 Hfile1 Hu1 Hc2)
      as (w2 & Hrun2 & Hcase2).
    exists w2. split; [exact Hrun1|]. split; [exact Hrun2|]. split.
    + right. exists d1, i, p, (updated_entry false bj1 p (R i p)).
      split; [exact Hw1|]. split; [exact Hp|].
      split; [simpl; unfold ps1; now rewrite list_lookup_imap, Hp|].
      rewrite orb_false_l in Hdiff. unfold count_differs in Hdiff.
      apply andb_true_iff in Hdiff as [Hok Hne].
      apply negb_true_iff in Hok, Hne.
      rewrite updated_entry_count. fold R. rewrite Hok.
      intros Heq. rewrite <- Heq in Hne.
      unfold R in Hne. now rewrite result_of_count in Hne.
    + destruct Hcase2 as [(_ & _ & j & q1 & Hq1 & Hdiff2) | (Hfs2 & Hw2 & _)]; [|auto].
      exfalso. simpl in Hq1. unfold ps1 in Hq1.
      rewrite list_lookup_imap in Hq1.
      destruct (ps !! j) as [q|]; [|discriminate]. simpl in Hq1.
      injection Hq1 as <-. rewrite orb_false_l in Hdiff2.
      pose proof (count_settled URL_new remote token bj1 j q) as Hs.
      cbv beta zeta iota delta [updated_entry] in Hs. unfold R in Hdiff2. congruence.
  - assert (Hfile1 : fs w1 PLUGINS_FILE = Some (JSONDoc d)) by now rewrite Hfs1.
    destruct (run_unique URL_new remote token now2 false w1 d Hfile1 Hu Hc2)
      as (w2 & Hrun2 & Hcase2).
    exists w2. split; [exact Hrun1|]. split; [exact Hrun2|].
    split; [now left|].
    destruct Hcase2 as [(_ & _ & j & q & Hq & Hdiff2) | (Hfs2 & Hw2 & _)]; [|auto].
    exfalso. destruct (Hsame j q Hq) as [_ Hd]. rewrite orb_false_l in Hdiff2.
    unfold R in *. congruence.
Qed.

Lemma reconcile_writes_only_changes_witness :
  let d := mkDocument (Some [plugin_a 3]) [] in
  exists w1 w2,
    updateDownloadCounts https_URL (fun _ _ => releases_with 10) 1700000000000
      None false (fresh d) = (Normal tt, w1) /\
    updateDownloadCounts https_URL (fun _ _ => releases_with 10) 1700000060000
      None false w1 = (Normal tt, w2) /\
    writes w2 = writes w1 /\
    fs w2 = fs w1.
Proof.
  intros d.
  destruct (reconcile_writes_only_changes https_URL (fun _ _ => releases_with 10)
              None 1700000000000 1700000060000 (fresh d) d)
    as (w1 & w2 & Hrun1 & Hrun2 & _ & Hw & Hfs).
  - reflexivity.
  - ids_unique_by_cases.
  - unfold valid_clock. simpl. lia.
  - unfold valid_clock. simpl. lia.
  - exists w1, w2. repeat split; assumption.
Defined.

(** C5, as stated, fails when stamping is requested: the second of two runs
    half a second apart, against the same remote side, changes no field of
    the document and still writes the file. *)
Lemma stamping_rewrites_unchanged_document :
  let d := mkDocument (Some [plugin_a 10]) [] in
  let remote := fun (_ _ : nat) => releases_with 10 in
  let run1 := updateDownloadCounts https_URL remote 1700000000000 None true (fresh d) in
  let run2 := updateDownloadCounts https_URL remote 1700000000500 None true (snd run1) in
  let d1 :=
    mkDocument
      (Some [[("id", JStr "a"); ("downloadUrl", JStr "https://github.com/o/r");
              ("downloadCount", JNum 10);
              ("updateTime", JStr "2023-11-15T06:13:20+08:00")]]) [] in
  fst run1 = Normal tt /\ fst run2 = Normal tt /\
  fs (snd run1) PLUGINS_FILE = Some (JSONDoc d1) /\
  fs (snd run2) PLUGINS_FILE = Some (JSONDoc d1) /\
  writes (snd run1) = [(PLUGINS_FILE, d1)] /\
  writes (snd run2) = [(PLUGINS_FILE, d1); (PLUGINS_FILE, d1)] /\
  writes (snd run2) <> writes (snd run1).
Proof.
  repeat split; try (vm_compute; reflexivity).
  vm_compute. discriminate.
Qed.

(** C7.  Stamping: when [updatePluginTime] is requested and the list is not
    empty, the run writes the file, and for every plugin the entry it is
    matched with has [updateTime] equal to the Beijing time of the clock
    reading: the date and time eight hours ahead of UTC, to the second,
    followed by [+08:00]. *)
Theorem stamping_persists (URL_new : value -> option URL)
    (remote : nat -> nat -> fetch_result) (now : Z) (token : option string)
    (w : world) (d : document) (ps : list object) :
  fs w PLUGINS_FILE = Some (JSONDoc d) ->
  plugins d = Some ps ->
  ps <> [] ->
  valid_clock now ->
  let beijingNow := Clock.date_time_string (now + 28800000) +:+ "+08:00" in
  exists w' d' ps',
    updateDownloadCounts URL_new remote now token true w = (Normal tt, w') /\
    writes w' = writes w ++ [(PLUGINS_FILE, d')] /\
    fs w' PLUGINS_FILE = Some (JSONDoc d') /\
    plugins d' = Some ps' /\
    siblings d' = siblings d /\
    forall i p, ps !! i = Some p ->
      exists j p',
        findIndex ps i = Some j /\
        ps' !! j = Some p' /\
        get p' "updateTime" = Some (JStr beijingNow).
Proof.
  intros Hfile Hps Hne Hclock bj.
  destruct (updateDownloadCounts_run URL_new remote token now true w d ps bj
              Hfile Hps Hne (ClockFacts.getBeijingTime_format now Hclock))
    as (bs & _ & _ & Hrun). cbv zeta in Hrun.
  set (t := final_tally URL_new remote token true bj ps) in *.
  destruct (pass_stamps bj ps (all_results URL_new remote token ps)
              (mkTally ps 0 false []) eq_refl) as (_ & Hnew & _).
  fold (final_tally URL_new remote token true bj ps) in Hnew. fold t in Hnew.
  assert (Hall : forall i p, ps !! i = Some p ->
            exists j, findIndex ps i = Some j /\ hasAnyChange t = true /\
              exists p', plugins_now t !! j = Some p' /\
                         get p' "updateTime" = Some (JStr bj)).
  { intros i p Hp. destruct (findIndex_exists ps i p Hp) as [j Hj].
    exists j. split; [exact Hj|].
    apply (Hnew (result_of URL_new remote token i p) j).
    - rewrite all_results_imap. apply list_elem_of_In.
      now apply (elem_of_lookup_imap_2 (result_of URL_new remote token) ps p i).
    - now rewrite result_of_plugin. }
  assert (Hchanged : hasAnyChange t = true).
  { destruct ps as [|p0 ps0]; [congruence|].
    now destruct (Hall 0%nat p0 eq_refl) as (j & _ & Hc & _). }
  rewrite Hchanged in Hrun.
  eexists _, _, _. split; [exact Hrun|]. cbn [fs writes].
  split; [reflexivity|]. split; [apply fs_write_same|].
  split; [reflexivity|]. split; [reflexivity|].
  intros i p Hp. destruct (Hall i p Hp) as (j & Hj & _ & p' & Hp' & Ht).
  now exists j, p'.
Qed.

Lemma stamping_persists_witness :
  let d := mkDocument (Some [plugin_a 10]) [] in
  exists w' d' ps' p',
    updateDownloadCounts https_URL (fun _ _ => releases_with 10) 1700000000000
      None true (fresh d) = (Normal tt, w') /\
    writes w' = [(PLUGINS_FILE, d')] /\
    plugins d' = Some ps' /\
    ps' !! 0%nat = Some p' /\
    get p' "updateTime" = Some (JStr "2023-11-15T06:13:20+08:00").
Proof.
  intros d.
  destruct (stamping_persists https_URL (fun _ _ => releases_with 10)
              1700000000000 None (fresh d) d [plugin_a 10])
    as (w' & d' & ps' & Hrun & Hw & _ & Hps & _ & Hall).
  - reflexivity.
  - reflexivity.
  - discriminate.
  - unfold valid_clock. simpl. lia.
  - destruct (Hall 0%nat (plugin_a 10) eq_refl) as (j & p' & Hj & Hp' & Ht).
    vm_compute in Hj. injection Hj as <-.
    exists w', d', ps', p'. repeat split; assumption.
Defined.


Lemma batch_sizes_bound {A} (bs : list (list A)) (n : nat) :
  batch_sizes bs n -> Forall (fun b => (length b <= CONCURRENCY)%nat) bs.
Proof.
  revert n. induction bs as [|b bs IH]; intros n H; constructor.
  - destruct H as (_ & Hlen & _). lia.
  - destruct H as (_ & _ & H). now apply (IH _ H).
Qed.

(** C9.  Batching: the loop takes the plugins in batches of [CONCURRENCY]
    = 5 (the last one with what remains), runs the call of every plugin
    exactly once, in order, and whatever the order of the events inside a
    batch, with each batch ended before the next starts, at no point are
    more than 5 requests in flight. *)
Theorem batches_bound_calls_in_flight (URL_new : value -> option URL)
    (remote : nat -> nat -> fetch_result) (token : option string)
    (ps : list object) (w : world) :
  exists bs,
    batch_loop URL_new (length ps) remote ps token 0 [] w =
      (Normal (all_results URL_new remote token ps),
       mkWorld (fs w) (console w) (network w ++ bs) (writes w)) /\
    batch_sizes bs (length ps) /\
    concat bs = map fst (runs_from URL_new remote token 0 ps) /\
    map plugin (all_results URL_new remote token ps) = seq 0 (length ps) /\
    forall s, schedule bs s ->
      forall p, p `prefix_of` s -> 0 <= in_flight p <= Z.of_nat CONCURRENCY.
Proof.
  destruct (batch_loop_spec URL_new remote token ps (length ps) 0 [] w)
    as (bs & Hrun & Hcat & Hsz); [rewrite drop_0; lia|].
  rewrite drop_0 in *. exists bs.
  split; [exact Hrun|]. split; [exact Hsz|]. split; [exact Hcat|]. split.
  - rewrite all_results_imap. change (map ?f ?l) with (f <$> l).
    apply list_eq. intros i. rewrite list_lookup_fmap, list_lookup_imap.
    destruct (ps !! i) as [p|] eqn:Hp; simpl.
    + rewrite result_of_plugin. symmetry.
      apply lookup_lt_Some in Hp. now rewrite lookup_seq_lt.
    + symmetry. apply lookup_ge_None in Hp. now rewrite lookup_seq_ge.
  - intros s Hs. apply (schedule_in_flight bs s); [|exact Hs].
    assert (Hgood : Forall (Forall (fun t => bracketed t /\ in_flight t = 0)) bs).
    { apply Forall_concat. rewrite Hcat. apply Forall_forall. intros t Ht.
      change (map ?f ?l) with (f <$> l) in Ht.
      apply list_elem_of_fmap in Ht as ([tr r] & -> & Hin). simpl.
      unfold runs_from in Hin.
      apply elem_of_lookup_imap_1 in Hin as (i & p & Heq & _).
      pose proof (getDownloadCountForPlugin_bracketed URL_new
                    (remote (0 + i)%nat) (0 + i)%nat p token) as H.
      rewrite <- Heq in H. exact H. }
    pose proof (batch_sizes_bound _ _ Hsz) as Hlen.
    clear -Hgood Hlen. induction Hgood as [|b bs Hb _ IH]; constructor.
    + split; [|exact Hb]. now apply Forall_cons in Hlen as [Hl _].
    + apply IH. now apply Forall_cons in Hlen as [_ Hl].
Qed.

(** C10.  A registry whose [plugins] list is absent or empty: the script
    ends normally, makes no request and writes nothing; the disk is as it
    was. *)
Theorem reconcile_without_plugins (URL_new : value -> option URL)
    (env : environment) (remote : nat -> nat -> fetch_result) (now : Z)
    (w : world) (d : document) :
  fs w PLUGINS_FILE = Some (JSONDoc d) ->
  plugins d = None \/ plugins d = Some [] ->
  exists w',
    main URL_new env remote now w = (Normal tt, w') /\
    fs w' = fs w /\ network w' = network w /\ writes w' = writes w.
Proof.
  intros Hfile Hnone.
  assert (Hnil : default [] (plugins d) = []) by now destruct Hnone as [-> | ->].
  unfold main, try_catch.
  rewrite (updateDownloadCounts_no_plugins URL_new remote _ now _ w d Hfile Hnil).
  eexists. split; [reflexivity|]. auto.
Qed.

Lemma reconcile_without_plugins_witness :
  exists w',
    main https_URL (mkEnv None (Some "true")) (fun _ _ => releases_with 10)
      1700000000000 (fresh (mkDocument None [("version", JNum 4)])) =
      (Normal tt, w') /\
    fs w' = fs (fresh (mkDocument None [("version", JNum 4)])) /\
    network w' = [] /\ writes w' = [].
Proof.
  apply (reconcile_without_plugins https_URL (mkEnv None (Some "true"))
           (fun _ _ => releases_with 10) 1700000000000
           (fresh (mkDocument None [("version", JNum 4)]))
           (mkDocument None [("version", JNum 4)])).
  - reflexivity.
  - now left.
Defined.

End ReconcileClaims.

(** ** More on the merge script *)

Module MergeMore.
Import Merge MergeFacts.

Lemma put_put (o : object) (k : string) (v v' : json) :
  put (put o k v) k v' = put o k v'.
Proof.
  induction o as [|[k0 v0] o IH]; simpl.
  - now rewrite String.eqb_refl.
  - destruct (String.eqb k0 k) eqn:E; simpl; rewrite E; [reflexivity|].
    now rewrite IH.
Qed.

Lemma same_value_zero_never (k : value) :
  same_value_zero k k = false -> forall m, map_get m k = None.
Proof.
  intros Hk m. induction m as [|[k' v'] m IH]; simpl; [reflexivity|].
  destruct (same_value_zero k' k) eqn:E; [|exact IH].
  pose proof (strict_equal_false_eq _ _ E) as ->. congruence.
Qed.

Lemma map_set_values (P : json -> Prop) (m : Map) (k : value) (v : json) :
  Forall (fun kv => P kv.2) m -> P v -> Forall (fun kv => P kv.2) (map_set m k v).
Proof.
  intros Hm Hv. induction Hm as [|[k' v'] m Hkv Hm IH]; simpl.
  - now repeat constructor.
  - destruct (same_value_zero k' k); constructor; auto.
Qed.

Lemma map_get_values (P : json -> Prop) (m : Map) (k : value) (v : json) :
  Forall (fun kv => P kv.2) m -> map_get m k = Some v -> P v.
Proof.
  induction 1 as [|[k' v'] m Hkv _ IH]; simpl; [discriminate|].
  destruct (same_value_zero k' k); [|exact IH]. now intros [= <-].
Qed.

Lemma nullish_default_not_null (v : value) : nullish_default v (JNum 0) <> JNull.
Proof. destruct v as [[]|]; simpl; discriminate. Qed.

Lemma store_map_not_null (s : document) :
  Forall (fun kv => kv.2 <> JNull) (storePluginMap s).
Proof.
  unfold storePluginMap. destruct (plugins s) as [ps|]; [|constructor].
  induction ps as [|e ps IH] using rev_ind; simpl; [constructor|].
  rewrite fold_left_app. simpl.
  apply (map_set_values (fun v => v <> JNull)); [exact IH|].
  apply nullish_default_not_null.
Qed.

Lemma merged_value (m : Map) (p : object) :
  merged m p = put p "downloadCount" (default (JNum 0) (map_get m (get p "id"))).
Proof. unfold merged, map_has. now destruct (map_get m (get p "id")). Qed.

(** An unusable path: not set, or the empty string. *)
Lemma with_paths_usage (m s o : option string) (w : world) :
  path_of m = None \/ path_of s = None \/ path_of o = None ->
  with_paths m s o w = (Exit 1, mkWorld (fs w) (console w ++ [UsageError])).
Proof.
  intros H. unfold with_paths.
  destruct (path_of m), (path_of s), (path_of o); try reflexivity.
  destruct H as [H|[H|H]]; discriminate.
Qed.

(** X1.  Usage error: in the variant with command-line options, when one
    of the three paths is given neither by its option nor by its environment
    variable (an empty text counts as not given, an option without a value
    counts as given), the script prints its usage line and exits with code 1
    before it reads or writes any file; with no option at all,
    [scripts/merge-plugins.mjs] does the same in the same environment, with
    its own usage line. *)
Theorem merge_usage_error (v : values) (env : environment) (w : world) :
  missing (or_env (opt_main v) (MAIN_FILE env)) = true \/
  missing (or_env (opt_store v) (STORE_FILE env)) = true \/
  missing (or_env (opt_output v) (OUTPUT_FILE env)) = true ->
  merge_plugins_argv v env w =
    (Exit 1, mkWorld (fs w) (console w ++ [UsageErrorCli])) /\
  (v = mkValues None None None ->
   merge_plugins env w = (Exit 1, mkWorld (fs w) (console w ++ [UsageError]))).
Proof.
  intros H. split.
  - unfold merge_plugins_argv.
    destruct H as [-> | [-> | ->]]; rewrite ?orb_true_r; reflexivity.
  - intros ->. unfold merge_plugins. apply with_paths_usage.
    cbn [opt_main opt_store opt_output or_env] in H.
    destruct H as [H | [H | H]]; [left | right; left | right; right];
      revert H;
      [destruct (MAIN_FILE env) | destruct (STORE_FILE env) | destruct (OUTPUT_FILE env)];
      simpl; intros H; try reflexivity; now rewrite H.
Qed.

Lemma merge_usage_error_witness :
  merge_plugins_argv (mkValues (Some Bare) (Some (Text "")) None)
    (mkEnv None None (Some "out.json")) (mkWorld (fun _ => None) []) =
    (Exit 1, mkWorld (fun _ => None) [UsageErrorCli]) /\
  (mkValues (Some Bare) (Some (Text "")) None = mkValues None None None ->
   merge_plugins (mkEnv None None (Some "out.json")) (mkWorld (fun _ => None) []) =
     (Exit 1, mkWorld (fun _ => None) [UsageError])).
Proof.
  apply (merge_usage_error (mkValues (Some Bare) (Some (Text "")) None)
           (mkEnv None None (Some "out.json")) (mkWorld (fun _ => None) [])).
  right. left. reflexivity.
Defined.

(** X2.  The main registry is a required input: when it is missing or not
    JSON the merge prints the read failure and exits with code 1, whatever
    the store file holds, and writes nothing. *)
Theorem merge_needs_main (mainFile storeFile outputFile : string) (w : world) :
  unreadable (fs w mainFile) = true ->
  exists err,
    merge_files mainFile storeFile outputFile w =
      (Exit 1, mkWorld (fs w) (console w ++ [ReadFailed mainFile err])).
Proof.
  intros H. destruct (readJSON_unreadable mainFile w H) as [err Herr].
  exists err. unfold merge_files, mbind, proc_bind. now rewrite Herr.
Qed.

Lemma merge_needs_main_witness :
  exists err,
    merge_files "main.json" "store.json" "out.json"
      (mkWorld (fun p => if String.eqb p "store.json"
                         then Some (JSONDoc (mkDocument (Some []) []))
                         else None) []) =
      (Exit 1,
       mkWorld (fun p => if String.eqb p "store.json"
                         then Some (JSONDoc (mkDocument (Some []) []))
                         else None)
               [ReadFailed "main.json" err]).
Proof.
  apply (merge_needs_main "main.json" "store.json" "out.json"
           (mkWorld (fun p => if String.eqb p "store.json"
                              then Some (JSONDoc (mkDocument (Some []) []))
                              else None) [])).
  reflexivity.
Defined.

(** X3.  Whatever the inputs, the merge changes no path of the disk other
    than the output path. *)
Theorem merge_writes_output_only (mainFile storeFile outputFile : string)
    (w : world) (p : string) :
  p <> outputFile ->
  fs (merge_files mainFile storeFile outputFile w).2 p = fs w p.
Proof.
  intros Hp. unfold merge_files, mbind, proc_bind.
  destruct (fs w mainFile) as [[t|d]|] eqn:Hm.
  1,3: unfold readJSON at 1, try_catch, parse_file; rewrite Hm; reflexivity.
  rewrite (readJSON_document _ _ _ Hm). unfold try_catch at 1.
  destruct (fs w storeFile) as [[t|s]|] eqn:Hs.
  1,3: unfold readJSON, try_catch, parse_file; rewrite Hs; reflexivity.
  rewrite (readJSON_document _ _ _ Hs). simpl. unfold fs_write.
  destruct (String.eqb p outputFile) eqn:E; [|reflexivity].
  apply String.eqb_eq in E. contradiction.
Qed.

Lemma merge_writes_output_only_witness :
  fs (merge_files "main.json" "store.json" "out.json"
        (mkWorld (disk (mkDocument (Some [[("id", JStr "a")]]) [])
                       (Some (JSONDoc (mkDocument (Some []) [])))) [])).2
     "store.json" =
  Some (JSONDoc (mkDocument (Some []) [])).
Proof.
  apply (merge_writes_output_only "main.json" "store.json" "out.json"
           (mkWorld (disk (mkDocument (Some [[("id", JStr "a")]]) [])
                          (Some (JSONDoc (mkDocument (Some []) [])))) [])
           "store.json").
  discriminate.
Defined.

(** X4.  Duplicate ids in the store: the count carried forward is the one
    of the last store entry with the id (a later [Map.set] replaces an
    earlier one). *)
Theorem merge_last_store_entry_wins (s : document) (before after : list object)
    (e mainPlugin : object) :
  plugins s = Some (before ++ e :: after) ->
  same_id e mainPlugin = true ->
  (forall e', In e' after -> same_id e' mainPlugin = false) ->
  get (merged (storePluginMap s) mainPlugin) "downloadCount" =
    Some (nullish_default (get e "downloadCount") (JNum 0)).
Proof.
  intros Hs He Hafter. rewrite merged_count. f_equal.
  destruct s as [sp sib]. simpl in Hs. subst sp. rewrite store_map_siblings.
  induction after as [|a after IH] using rev_ind.
  - change (before ++ [e]) with (before ++ [e]).
    rewrite store_map_snoc. unfold same_id in He. now rewrite He.
  - rewrite app_comm_cons, app_assoc, store_map_snoc.
    unfold same_id in Hafter.
    rewrite (Hafter a) by (apply in_or_app; right; now left).
    apply IH. intros e' He'. apply Hafter. apply in_or_app. now left.
Qed.

Lemma merge_last_store_entry_wins_witness :
  get (merged
         (storePluginMap
            (mkDocument
               (Some ([[("id", JStr "x"); ("downloadCount", JNum 1)]] ++
                      [("id", JStr "x"); ("downloadCount", JNum 2)] ::
                      [[("id", JStr "y"); ("downloadCount", JNum 3)]])) []))
         [("id", JStr "x")]) "downloadCount" =
    Some (nullish_default (Some (JNum 2)) (JNum 0)).
Proof.
  apply (merge_last_store_entry_wins
           (mkDocument
              (Some ([[("id", JStr "x"); ("downloadCount", JNum 1)]] ++
                     [("id", JStr "x"); ("downloadCount", JNum 2)] ::
                     [[("id", JStr "y"); ("downloadCount", JNum 3)]])) [])
           [[("id", JStr "x"); ("downloadCount", JNum 1)]]
           [[("id", JStr "y"); ("downloadCount", JNum 3)]]
           [("id", JStr "x"); ("downloadCount", JNum 2)]
           [("id", JStr "x")]).
  - reflexivity.
  - reflexivity.
  - intros e' [<-|[]]. reflexivity.
Defined.

(** X5.  Every entry of the merged list has a [downloadCount], and it is
    never [null]: a count that is missing or [null] in the store, or an id
    that the store does not have, gives 0. *)
Theorem merged_count_present (main store : document) (p' : object) :
  In p' (mergedPlugins main (storePluginMap store)) ->
  exists c, get p' "downloadCount" = Some c /\ c <> JNull.
Proof.
  unfold mergedPlugins. destruct (plugins main) as [ps|]; [|intros []].
  intros Hin. apply in_map_iff in Hin as (p & <- & _).
  rewrite merged_count. eexists. split; [reflexivity|].
  destruct (map_get (storePluginMap store) (get p "id")) as [c|] eqn:E;
    [|discriminate].
  exact (map_get_values (fun v => v <> JNull) _ _ _ (store_map_not_null store) E).
Qed.

Lemma merged_count_present_witness :
  exists c,
    get (merged (storePluginMap
                   (mkDocument (Some [[("id", JStr "x"); ("downloadCount", JNull)]]) []))
                [("id", JStr "x")]) "downloadCount" = Some c /\ c <> JNull.
Proof.
  apply (merged_count_present
           (mkDocument (Some [[("id", JStr "x")]]) [])
           (mkDocument (Some [[("id", JStr "x"); ("downloadCount", JNull)]]) [])).
  left. reflexivity.
Defined.

(** The map of a list whose entries with the key [k] all carry the count
    [c], one of them at least. *)
Lemma store_map_agreed (l : list object) (k : value) (c : json) :
  (exists e, In e l /\ same_value_zero (get e "id") k = true) ->
  (forall e, In e l -> same_value_zero (get e "id") k = true ->
             nullish_default (get e "downloadCount") (JNum 0) = c) ->
  map_get (storePluginMap (mkDocument (Some l) [])) k = Some c.
Proof.
  induction l as [|e l IH] using rev_ind; intros (e0 & Hin & He0) Hall.
  - destruct Hin.
  - rewrite store_map_snoc.
    destruct (same_value_zero (get e "id") k) eqn:E.
    + f_equal. apply Hall; [apply in_or_app; right; now left | exact E].
    + apply IH.
      * apply in_app_or in Hin as [Hin|[<-|[]]]; [now exists e0|congruence].
      * intros e' He'. apply Hall. apply in_or_app. now left.
Qed.

Lemma merged_again (main s : document) :
  let out := mkDocument (Some (mergedPlugins main (storePluginMap s))) (siblings main) in
  mergedPlugins main (storePluginMap out) = mergedPlugins main (storePluginMap s).
Proof.
  intros out. unfold mergedPlugins at 1 2. destruct (plugins main) as [ps|] eqn:Hps;
    [|reflexivity].
  apply map_ext_in. intros p Hp. rewrite !merged_value. f_equal.
  destruct (same_value_zero (get p "id") (get p "id")) eqn:Hk.
  - subst out. rewrite store_map_siblings. unfold mergedPlugins. rewrite Hps.
    rewrite (store_map_agreed _ (get p "id")
               (default (JNum 0) (map_get (storePluginMap s) (get p "id")))).
    + reflexivity.
    + exists (merged (storePluginMap s) p). split; [now apply in_map|].
      rewrite merged_other by discriminate. exact Hk.
    + intros e He Heq. apply in_map_iff in He as (q & <- & _).
      rewrite merged_other in Heq by discriminate.
      rewrite merged_count.
      apply strict_equal_false_eq in Heq. rewrite Heq.
      destruct (map_get (storePluginMap s) (get p "id")) as [c|] eqn:E;
        [|reflexivity].
      pose proof (map_get_values (fun v => v <> JNull) _ _ _
                    (store_map_not_null s) E) as Hc.
      simpl. now destruct c.
  - now rewrite !(same_value_zero_never _ Hk).
Qed.

(** X6.  Publishing round trip: when the document written by a merge is
    used as the store of the next merge of the same main registry, the
    next merge writes the same document again. *)
Theorem merge_output_as_next_store (mainFile storeFile outputFile : string)
    (w : world) (d s : document) :
  fs w mainFile = Some (JSONDoc d) ->
  fs w storeFile = Some (JSONDoc s) ->
  mainFile <> outputFile ->
  exists w1 w2,
    merge_files mainFile storeFile outputFile w = (Normal tt, w1) /\
    merge_files mainFile outputFile outputFile w1 = (Normal tt, w2) /\
    fs w2 outputFile = fs w1 outputFile.
Proof.
  intros Hm Hs Hne. eexists _, _.
  split; [apply (merge_files_run _ _ _ _ d s Hm Hs)|].
  set (out := mkDocument (Some (mergedPlugins d (storePluginMap s))) (siblings d)).
  split.
  - apply (merge_files_run _ _ _ _ d out).
    + simpl. unfold fs_write. destruct (String.eqb mainFile outputFile) eqn:E;
        [apply String.eqb_eq in E; contradiction | exact Hm].
    + simpl. apply fs_write_same.
  - simpl. rewrite !fs_write_same.
    pose proof (merged_again d s) as H. cbv zeta in H. now rewrite H.
Qed.

Lemma merge_output_as_next_store_witness :
  let d := mkDocument (Some [[("id", JStr "x"); ("name", JStr "X")]]) [] in
  let s := mkDocument (Some [[("id", JStr "x"); ("downloadCount", JNum 42)]]) [] in
  exists w1 w2,
    merge_files "main.json" "store.json" "out.json"
      (mkWorld (disk d (Some (JSONDoc s))) []) = (Normal tt, w1) /\
    merge_files "main.json" "out.json" "out.json" w1 = (Normal tt, w2) /\
    fs w2 "out.json" = fs w1 "out.json".
Proof.
  intros d s.
  apply (merge_output_as_next_store "main.json" "store.json" "out.json"
           (mkWorld (disk d (Some (JSONDoc s))) []) d s).
  - reflexivity.
  - reflexivity.
  - discriminate.
Defined.

(** X7.  Merging is idempotent: merging the written document, taken as the
    main registry, with the same store writes the same document. *)
Theorem merge_idempotent (mainFile storeFile outputFile : string)
    (w : world) (d s : document) :
  fs w mainFile = Some (JSONDoc d) ->
  fs w storeFile = Some (JSONDoc s) ->
  storeFile <> outputFile ->
  exists w1 w2,
    merge_files mainFile storeFile outputFile w = (Normal tt, w1) /\
    merge_files outputFile storeFile outputFile w1 = (Normal tt, w2) /\
    fs w2 outputFile = fs w1 outputFile.
Proof.
  intros Hm Hs Hne. eexists _, _.
  split; [apply (merge_files_run _ _ _ _ d s Hm Hs)|].
  set (out := mkDocument (Some (mergedPlugins d (storePluginMap s))) (siblings d)).
  split.
  - apply (merge_files_run _ _ _ _ out s).
    + simpl. apply fs_write_same.
    + simpl. unfold fs_write. destruct (String.eqb storeFile outputFile) eqn:E;
        [apply String.eqb_eq in E; contradiction | exact Hs].
  - cbn [fs]. rewrite !fs_write_same.
    assert (Hsame : mergedPlugins out (storePluginMap s) =
                    mergedPlugins d (storePluginMap s)); [|idtac].
    2: { unfold out in Hsame. rewrite Hsame. reflexivity. }
    subst out. unfold mergedPlugins. simpl.
    destruct (plugins d) as [ps|]; simpl; [|reflexivity].
    rewrite map_map. apply map_ext. intros p.
    rewrite (merged_value _ (merged _ p)), merged_other by discriminate.
    rewrite (merged_value _ p) at 1. rewrite put_put. symmetry. apply merged_value.
Qed.

Lemma merge_idempotent_witness :
  let d := mkDocument (Some [[("id", JStr "x"); ("name", JStr "X")]]) [] in
  let s := mkDocument (Some [[("id", JStr "x"); ("downloadCount", JNum 42)]]) [] in
  exists w1 w2,
    merge_files "main.json" "store.json" "out.json"
      (mkWorld (disk d (Some (JSONDoc s))) []) = (Normal tt, w1) /\
    merge_files "out.json" "store.json" "out.json" w1 = (Normal tt, w2) /\
    fs w2 "out.json" = fs w1 "out.json".
Proof.
  intros d s.
  apply (merge_idempotent "main.json" "store.json" "out.json"
           (mkWorld (disk d (Some (JSONDoc s))) []) d s).
  - reflexivity.
  - reflexivity.
  - discriminate.
Defined.

End MergeMore.

(** ** More on the download-count updater *)

Module ReconcileMore.
Import Reconcile ReconcileFacts.

(** X8.  The registry file is a required input: when it is missing or not
    JSON, the script reports the failure and exits with code 1 without any
    request and without writing. *)
Theorem reconcile_needs_registry (URL_new : value -> option URL)
    (env : environment) (remote : nat -> nat -> fetch_result) (now : Z) (w : world) :
  Merge.unreadable (fs w PLUGINS_FILE) = true ->
  exists w' e,
    main URL_new env remote now w = (Exit 1, w') /\
    fs w' = fs w /\ network w' = network w /\ writes w' = writes w /\
    last (console w') = Some (ScriptFailed e).
Proof.
  intros H. unfold main, try_catch at 1, updateDownloadCounts, mbind, proc_bind,
    checkFileExists.
  destruct (fs w PLUGINS_FILE) as [[text|d]|] eqn:Hf; try discriminate.
  - unfold log at 1 2. cbn [fs console network writes].
    unfold try_catch at 1, readFileSync. cbn [fs]. rewrite Hf.
    unfold try_catch at 1. cbn [JSON_parse throw].
    unfold log, process_exit, mbind, proc_bind. cbn [fs console network writes].
    eexists _, _. split; [reflexivity|]. cbn [fs console network writes].
    repeat split. apply last_snoc.
  - unfold log, process_exit, mbind, proc_bind. cbn [fs console network writes].
    eexists _, _. split; [reflexivity|]. cbn [fs console network writes].
    repeat split. apply last_snoc.
Qed.

Lemma reconcile_needs_registry_witness :
  exists w' e,
    main https_URL (mkEnv None None) (fun _ _ => releases_with 10) 1700000000000
      (mkWorld (fun _ => None) [] [] []) = (Exit 1, w') /\
    fs w' = (fun _ => None) /\ network w' = [] /\ writes w' = [] /\
    last (console w') = Some (ScriptFailed e).
Proof.
  apply (reconcile_needs_registry https_URL (mkEnv None None)
           (fun _ _ => releases_with 10) 1700000000000
           (mkWorld (fun _ => None) [] [] [])).
  reflexivity.
Defined.

(** The outcome of the attempt that [fetchWithRetry] does not retry. *)
Lemma attempt_success (responses : nat -> fetch_result)
    (url : string) (options : list (string * string)) (retry k : nat) :
  attempt_failure (responses k) = None ->
  exists res,
    responses k = Resolved res /\ ok res = true /\
    fetchWithRetry responses url options retry k =
      ([FetchStart url options; FetchEnd (responses k)],
       match json_body res with
       | Releases rs => inr rs
       | InvalidBody msg => inl msg
       end).
Proof.
  intros H. unfold attempt_failure in H.
  destruct (responses k) as [msg|res] eqn:Hr; [discriminate|].
  destruct (ok res) eqn:Hok; [|discriminate].
  exists res. split; [reflexivity|]. split; [exact Hok|].
  destruct retry; simpl; rewrite Hr, Hok; now destruct (json_body res).
Qed.

(** The requests and the waits of one call of [fetchWithRetry]. *)
Lemma fetchWithRetry_trace (responses : nat -> fetch_result)
    (url : string) (options : list (string * string)) (retry k : nat) :
  let tr := (fetchWithRetry responses url options retry k).1 in
  (1 <= length (fetch_starts tr) <= S retry)%nat /\
  fetch_starts tr = repeat (FetchStart url options) (length (fetch_starts tr)) /\
  delays tr = repeat RETRY_DELAY (length (fetch_starts tr) - 1).
Proof.
  revert k. induction retry as [|retry IH]; intros k; cbv zeta.
  - destruct (attempt_failure (responses k)) as [msg|] eqn:H.
    + rewrite (attempt_failure_last _ _ _ _ _ H). simpl. repeat split; lia.
    + destruct (attempt_success responses url options 0 k H) as (res & _ & _ & ->).
      simpl. repeat split; lia.
  - destruct (attempt_failure (responses k)) as [msg|] eqn:H.
    + rewrite (attempt_failure_step _ _ _ _ _ _ H).
      specialize (IH (S k)). cbv zeta in IH.
      destruct (fetchWithRetry responses url options retry (S k)) as [rest outcome].
      simpl in *. destruct IH as (Hn & Hs & Hd).
      split; [lia|]. split.
      * f_equal. exact Hs.
      * rewrite Hd. rewrite Nat.sub_0_r.
        destruct (length (fetch_starts rest)) as [|n]; [lia|].
        simpl. now rewrite Nat.sub_0_r.
    + destruct (attempt_success responses url options (S retry) k H)
        as (res & _ & _ & ->).
      simpl. repeat split; lia.
Qed.

(** X9.  Whatever the remote side does, one call of [fetchWithRetry] is a
    sequence of attempts, each a request to the same URL with the same
    options: every attempt that fails and is retried is followed by the log
    line with the retries left and by one wait of [RETRY_DELAY] before the
    next request, and the last attempt is followed by nothing.  At most
    [retry] attempts are retried, so there are at least one and at most
    [retry + 1] requests, with exactly one wait between two consecutive
    ones, none before the first and none after the last; the last attempt
    does not fail unless the retries are used up. *)
Theorem fetchWithRetry_bounded (responses : nat -> fetch_result)
    (url : string) (options : list (string * string)) (retry k : nat) :
  exists msgs : list string,
    (length msgs <= retry)%nat /\
    (forall j m, msgs !! j = Some m ->
       attempt_failure (responses (k + j)%nat) = Some m) /\
    (length msgs = retry \/
     attempt_failure (responses (k + length msgs)%nat) = None) /\
    (fetchWithRetry responses url options retry k).1 =
      concat (imap (fun j m =>
                      [FetchStart url options; FetchEnd (responses (k + j)%nat);
                       RetryLogged (retry - j) m; Delay RETRY_DELAY]) msgs) ++
      [FetchStart url options; FetchEnd (responses (k + length msgs)%nat)].
Proof.
  revert k. induction retry as [|retry IH]; intros k.
  - exists []. split; [simpl; lia|]. split; [intros j m Hj; discriminate|].
    split; [now left|]. cbn [imap concat length app]. rewrite Nat.add_0_r.
    destruct (attempt_failure (responses k)) as [msg|] eqn:H.
    + now rewrite (attempt_failure_last _ _ _ _ _ H).
    + now destruct (attempt_success responses url options 0 k H) as (res & _ & _ & ->).
  - destruct (attempt_failure (responses k)) as [msg|] eqn:H.
    + destruct (IH (S k)) as (msgs & Hlen & Hmsgs & Hstop & Htr).
      exists (msg :: msgs). split; [simpl; lia|]. split; [|split].
      * intros [|j] m Hj; simpl in Hj.
        -- injection Hj as <-. now rewrite Nat.add_0_r.
        -- replace (k + S j)%nat with (S k + j)%nat by lia. now apply Hmsgs.
      * simpl. replace (k + S (length msgs))%nat with (S k + length msgs)%nat by lia.
        destruct Hstop as [->|Hstop]; auto.
      * rewrite (attempt_failure_step _ _ _ _ _ _ H).
        destruct (fetchWithRetry responses url options retry (S k)) as [rest outcome].
        cbn [fst] in *. rewrite Htr. cbn [imap concat length].
        rewrite Nat.add_0_r, Nat.sub_0_r.
        replace (k + S (length msgs))%nat with (S k + length msgs)%nat by lia.
        rewrite <- !app_assoc. cbn [app]. do 4 f_equal. f_equal. f_equal.
        apply imap_ext. intros j m _. cbn.
        now replace (k + S j)%nat with (S (k + j)) by lia.
    + exists []. split; [simpl; lia|]. split; [intros j m Hj; discriminate|].
      cbn [imap concat length app]. rewrite Nat.add_0_r. split; [now right|].
      now destruct (attempt_success responses url options (S retry) k H)
        as (res & _ & _ & ->).
Qed.

(** X10.  Retrying stops at the first attempt that does not fail: when the
    first [n] attempts fail and attempt [n] is answered with a 2xx status,
    with [n] within the budget, exactly [n + 1] requests are made, with [n]
    waits, and the outcome is the body of that answer (an unreadable body
    is an error that is not retried). *)
Theorem fetchWithRetry_stops_at_success (responses : nat -> fetch_result)
    (url : string) (options : list (string * string)) (retry n : nat) :
  (n <= retry)%nat ->
  (forall j, (j < n)%nat -> attempt_failure (responses j) <> None) ->
  attempt_failure (responses n) = None ->
  exists tr res,
    responses n = Resolved res /\ ok res = true /\
    fetchWithRetry responses url options retry 0 =
      (tr, match json_body res with
           | Releases rs => inr rs
           | InvalidBody msg => inl msg
           end) /\
    length (fetch_starts tr) = S n /\
    delays tr = repeat RETRY_DELAY n.
Proof.
  intros Hn Hfail Hok.
  assert (Hgen : forall m k r, (k + m = n)%nat -> (m <= r)%nat ->
    exists tr res,
      responses n = Resolved res /\ ok res = true /\
      fetchWithRetry responses url options r k =
        (tr, match json_body res with
             | Releases rs => inr rs
             | InvalidBody msg => inl msg
             end) /\
      length (fetch_starts tr) = S m /\ delays tr = repeat RETRY_DELAY m).
  { induction m as [|m IH]; intros k r Hk Hr.
    - assert (k = n) as -> by lia.
      destruct (attempt_success responses url options r n Hok) as (res & H1 & H2 & H3).
      eexists _, res. repeat split; eauto.
    - destruct r as [|r]; [lia|].
      destruct (attempt_failure (responses k)) as [msg|] eqn:H;
        [|destruct (Hfail k); [lia|assumption]].
      destruct (IH (S k) r) as (tr & res & H1 & H2 & H3 & H4 & H5); [lia|lia|].
      rewrite (attempt_failure_step _ _ _ _ _ _ H), H3.
      eexists _, res. split; [exact H1|]. split; [exact H2|].
      split; [reflexivity|]. simpl. rewrite H4, H5. split; reflexivity. }
  apply (Hgen n 0%nat retry); lia.
Qed.

Lemma fetchWithRetry_stops_at_success_witness :
  exists tr res,
    (fun k : nat => if Nat.eqb k 1 then releases_with 10 else Rejected "fetch failed") 1%nat =
      Resolved res /\ ok res = true /\
    fetchWithRetry
      (fun k : nat => if Nat.eqb k 1 then releases_with 10 else Rejected "fetch failed")
      "u" [] 2 0 =
      (tr, match json_body res with
           | Releases rs => inr rs
           | InvalidBody msg => inl msg
           end) /\
    length (fetch_starts tr) = 2%nat /\
    delays tr = repeat RETRY_DELAY 1.
Proof.
  apply (fetchWithRetry_stops_at_success
           (fun k : nat => if Nat.eqb k 1 then releases_with 10 else Rejected "fetch failed")
           "u" [] 2 1).
  - lia.
  - intros j Hj. assert (j = 0%nat) as -> by lia. discriminate.
  - reflexivity.
Defined.

(** The pass, one result, in full. *)
Lemma process_result_cases (flag : bool) (bj : string) (t : tally) (r : result) :
  process_result flag bj t r = t \/
  exists j entry,
    plugins_now t !! j = Some entry /\
    plugins_now (process_result flag bj t r) =
      <[j := updated_entry flag bj entry r]> (plugins_now t) /\
    hasAnyChange (process_result flag bj t r) =
      hasAnyChange t || flag || count_differs entry r.
Proof.
  destruct (findIndex (plugins_now t) (plugin r)) as [j|] eqn:Hfind.
  - right. destruct (findIndex_found _ _ _ Hfind) as [_ [entry Hentry]].
    exists j, entry. split; [exact Hentry|].
    now apply process_result_at.
  - left. now apply process_result_unmatched.
Qed.

Section Outage.

Variable URL_new : value -> option URL.
Variable remote : nat -> nat -> fetch_result.
Variable token : option string.

Lemma pass_all_failed (bj : string) (rs : list result) (t : tally) :
  Forall (fun r => error_set (error r) = true) rs ->
  hasAnyChange (fold_left (process_result false bj) rs t) = hasAnyChange t.
Proof.
  intros H. revert t. induction H as [|r rs Hr _ IH]; intros t; simpl; [reflexivity|].
  rewrite IH. destruct (process_result_cases false bj t r) as [->|(j & e & _ & _ & Hc)];
    [reflexivity|].
  rewrite Hc. unfold count_differs. rewrite Hr. simpl. now rewrite !orb_false_r.
Qed.

(** X11.  A run without stamping in which the result of every plugin
    carries an error message that is not empty (the fixed message for a URL
    that is not a GitHub repository, or the message of a failed request when
    it has one) ends normally and leaves the disk untouched: nothing is
    written, so no stored count is lost.  A failure whose message is empty
    is not such a result: the pass takes it for a success. *)
Theorem outage_writes_nothing (now : Z) (w : world) (d : document) :
  fs w PLUGINS_FILE = Some (JSONDoc d) ->
  valid_clock now ->
  (forall i p, default [] (plugins d) !! i = Some p ->
     error_set (error (result_of URL_new remote token i p)) = true) ->
  exists w',
    updateDownloadCounts URL_new remote now token false w = (Normal tt, w') /\
    fs w' = fs w /\ writes w' = writes w.
Proof.
  intros Hfile Hclock Hall.
  destruct (plugins d) as [ps|] eqn:Hps.
  2: { eexists. split; [apply (updateDownloadCounts_no_plugins URL_new remote token
                                 now false w d Hfile); now rewrite Hps|]. auto. }
  destruct (decide (ps = [])) as [->|Hne].
  { eexists. split; [apply (updateDownloadCounts_no_plugins URL_new remote token
                              now false w d Hfile); now rewrite Hps|]. auto. }
  destruct (updateDownloadCounts_run URL_new remote token now false w d ps _
              Hfile Hps Hne (ClockFacts.getBeijingTime_format now Hclock))
    as (bs & _ & _ & Hrun). cbv zeta in Hrun.
  assert (Hno : hasAnyChange
                  (final_tally URL_new remote token false
                     (Clock.date_time_string (now + 28800000) +:+ "+08:00") ps) = false).
  { unfold final_tally. rewrite pass_all_failed; [reflexivity|].
    rewrite all_results_imap. apply Forall_forall. intros r Hr.
    apply elem_of_lookup_imap_1 in Hr as (i & p & -> & Hp).
    apply Hall. simpl. exact Hp. }
  rewrite Hno in Hrun. eexists. split; [exact Hrun|].
  cbn [fs writes]. split; [reflexivity|]. apply app_nil_r.
Qed.

End Outage.

Lemma outage_writes_nothing_witness :
  exists w',
    updateDownloadCounts https_URL (fun _ _ => Rejected "fetch failed") 1700000000000
      None false (fresh (mkDocument (Some [plugin_a 3; plugin_b 7]) [])) =
      (Normal tt, w') /\
    fs w' = fs (fresh (mkDocument (Some [plugin_a 3; plugin_b 7]) [])) /\
    writes w' = [].
Proof.
  apply (outage_writes_nothing https_URL (fun _ _ => Rejected "fetch failed") None
           1700000000000 (fresh (mkDocument (Some [plugin_a 3; plugin_b 7]) []))
           (mkDocument (Some [plugin_a 3; plugin_b 7]) [])).
  - reflexivity.
  - unfold valid_clock. simpl. lia.
  - intros i p Hp.
    destruct i as [|[|i]]; simpl in Hp; try discriminate;
      injection Hp as <-; reflexivity.
Defined.

Lemma updated_entry_kept (flag : bool) (bj : string) (e : object) (r : result)
    (k : string) :
  k <> "downloadCount" ->
  flag = false \/ k <> "updateTime" ->
  get (updated_entry flag bj e r) k = get e k.
Proof.
  intros Hd [-> | Hu].
  - unfold updated_entry. apply get_put_ne. congruence.
  - now apply updated_entry_get.
Qed.

Lemma pass_frame (flag : bool) (bj : string) (ps : list object) (rs : list result)
    (t : tally) :
  Forall2 (fun p' p => forall k, k <> "downloadCount" ->
                        flag = false \/ k <> "updateTime" -> get p' k = get p k)
          (plugins_now t) ps ->
  Forall2 (fun p' p => forall k, k <> "downloadCount" ->
                        flag = false \/ k <> "updateTime" -> get p' k = get p k)
          (plugins_now (fold_left (process_result flag bj) rs t)) ps.
Proof.
  revert t. induction rs as [|r rs IH]; intros t H; simpl; [exact H|].
  apply IH.
  destruct (process_result_cases flag bj t r) as [->|(j & e & He & -> & _)];
    [exact H|].
  destruct (Forall2_lookup_l _ _ _ _ _ H He) as (p & Hp & Hk).
  rewrite <- (list_insert_id ps j p Hp).
  apply Forall2_insert; [exact H|].
  intros k Hd Hu. rewrite updated_entry_kept by assumption. now apply Hk.
Qed.

(** X12.  Frame of the updater: a run changes no path of the disk other
    than the registry file; in the registry it keeps the top-level fields
    other than [plugins], the number and order of the entries, and in every
    entry every field other than [downloadCount] and, when stamping is
    requested, [updateTime]. *)
Theorem reconcile_frame (URL_new : value -> option URL)
    (remote : nat -> nat -> fetch_result) (now : Z) (token : option string)
    (flag : bool) (w : world) (d : document) :
  fs w PLUGINS_FILE = Some (JSONDoc d) ->
  valid_clock now ->
  exists w' d',
    updateDownloadCounts URL_new remote now token flag w = (Normal tt, w') /\
    fs w' PLUGINS_FILE = Some (JSONDoc d') /\
    (forall path, path <> PLUGINS_FILE -> fs w' path = fs w path) /\
    siblings d' = siblings d /\
    Forall2 (fun p' p => forall k, k <> "downloadCount" ->
                          flag = false \/ k <> "updateTime" -> get p' k = get p k)
            (default [] (plugins d')) (default [] (plugins d)).
Proof.
  intros Hfile Hclock.
  assert (Hrefl : forall l : list object,
            Forall2 (fun p' p => forall k, k <> "downloadCount" ->
                       flag = false \/ k <> "updateTime" -> get p' k = get p k) l l).
  { intros l. apply Forall_Forall2_diag. apply Forall_forall. auto. }
  destruct (plugins d) as [ps|] eqn:Hps.
  2: { eexists _, d. split; [apply (updateDownloadCounts_no_plugins URL_new remote
                                     token now flag w d Hfile); now rewrite Hps|].
       cbn [fs]. split; [exact Hfile|]. split; [auto|]. split; [reflexivity|].
       rewrite ?Hps. apply Hrefl. }
  destruct (decide (ps = [])) as [->|Hne].
  { eexists _, d. split; [apply (updateDownloadCounts_no_plugins URL_new remote
                                   token now flag w d Hfile); now rewrite Hps|].
    cbn [fs]. split; [exact Hfile|]. split; [auto|]. split; [reflexivity|].
    rewrite ?Hps. apply Hrefl. }
  destruct (updateDownloadCounts_run URL_new remote token now flag w d ps _
              Hfile Hps Hne (ClockFacts.getBeijingTime_format now Hclock))
    as (bs & _ & _ & Hrun). cbv zeta in Hrun.
  set (t := final_tally URL_new remote token flag
              (Clock.date_time_string (now + 28800000) +:+ "+08:00") ps) in *.
  destruct (hasAnyChange t) eqn:Hc.
  - eexists _, _. split; [exact Hrun|]. cbn [fs].
    split; [apply fs_write_same|]. split.
    { intros path Hp. unfold fs_write.
      destruct (String.eqb path PLUGINS_FILE) eqn:E; [|reflexivity].
      apply String.eqb_eq in E. contradiction. }
    split; [reflexivity|]. simpl.
    unfold t, final_tally. apply pass_frame. simpl. apply Hrefl.
  - eexists _, d. split; [exact Hrun|].
    cbn [fs]. split; [exact Hfile|]. split; [auto|]. split; [reflexivity|].
    rewrite ?Hps. apply Hrefl.
Qed.

Lemma reconcile_frame_witness :
  exists w' d',
    updateDownloadCounts https_URL (fun _ _ => releases_with 10) 1700000000000
      None true (fresh (mkDocument (Some [plugin_a 3]) [("version", JNum 4)])) =
      (Normal tt, w') /\
    fs w' PLUGINS_FILE = Some (JSONDoc d') /\
    (forall path, path <> PLUGINS_FILE ->
       fs w' path = fs (fresh (mkDocument (Some [plugin_a 3]) [("version", JNum 4)])) path) /\
    siblings d' = [("version", JNum 4)] /\
    Forall2 (fun p' p => forall k, k <> "downloadCount" ->
                          true = false \/ k <> "updateTime" -> get p' k = get p k)
            (default [] (plugins d')) [plugin_a 3].
Proof.
  apply (reconcile_frame https_URL (fun _ _ => releases_with 10) 1700000000000
           None true (fresh (mkDocument (Some [plugin_a 3]) [("version", JNum 4)]))
           (mkDocument (Some [plugin_a 3]) [("version", JNum 4)])).
  - reflexivity.
  - unfold valid_clock. simpl. lia.
Defined.

Lemma process_result_count (flag : bool) (bj : string) (t : tally) (r : result)
    (j : nat) (entry : object) :
  findIndex (plugins_now t) (plugin r) = Some j ->
  plugins_now t !! j = Some entry ->
  downloadCountUpdated (process_result flag bj t r) =
    downloadCountUpdated t + (if count_differs entry r then 1 else 0).
Proof.
  intros Hfind Hentry. unfold process_result. rewrite Hfind, Hentry.
  destruct (findIndex_found _ _ _ Hfind) as [[p Hp] _]. rewrite Hp.
  assert (Hj : (j < length (plugins_now t))%nat) by now apply lookup_lt_Some in Hentry.
  unfold count_differs.
  destruct (error_set (error r)); cbn [negb andb].
  - destruct flag; cbn [plugins_now downloadCountUpdated].
    + rewrite list_lookup_insert_eq by assumption. cbn [downloadCountUpdated]. lia.
    + lia.
  - destruct (strict_equal false (get entry "downloadCount") (Some (count r)));
      cbn [negb]; destruct flag; cbn [plugins_now downloadCountUpdated];
      rewrite ?list_lookup_insert_eq by assumption; cbn [downloadCountUpdated]; lia.
Qed.

Section Counting.

Variables (flag : bool) (bj : string) (ps : list object).
Variable R : nat -> object -> result.
Hypothesis R_plugin : forall i p, plugin (R i p) = i.
Hypothesis unique : ids_unique ps.

Lemma pass_unique_count (k : nat) :
  (k <= length ps)%nat ->
  downloadCountUpdated (partial_tally flag bj ps (imap R ps) k) =
    Z.of_nat (length (List.filter (fun ip => count_differs ip.2 (R ip.1 ip.2))
                        (take k (imap pair ps)))).
Proof.
  induction k as [|k IH]; intros Hk; [reflexivity|].
  destruct (lookup_lt_is_Some_2 ps k) as [p Hp]; [lia|].
  assert (Hr : imap R ps !! k = Some (R k p)) by now rewrite list_lookup_imap, Hp.
  assert (Hi : imap pair ps !! k = Some (k, p)) by now rewrite list_lookup_imap, Hp.
  destruct (pass_unique flag bj ps R R_plugin unique k) as [Hps _]; [lia|].
  unfold partial_tally in *.
  rewrite (take_S_r _ _ _ Hr), (take_S_r _ _ _ Hi), fold_left_app. simpl.
  set (t := fold_left (process_result flag bj) (take k (imap R ps))
              (mkTally ps 0 false [])) in *.
  assert (Hids : map (fun q => get q "id") (plugins_now t) =
                 map (fun q => get q "id") ps).
  { rewrite Hps. change (map ?f ?l) with (f <$> l). apply list_eq. intros i.
    rewrite !list_lookup_fmap, list_lookup_imap.
    destruct (ps !! i) as [q|]; [|reflexivity]. simpl. f_equal.
    destruct (Nat.ltb i k); [|reflexivity].
    apply updated_entry_get; discriminate. }
  assert (Hfind : findIndex (plugins_now t) (plugin (R k p)) = Some k).
  { rewrite R_plugin, (findIndex_ids _ _ _ Hids). now apply (findIndex_unique ps k p). }
  assert (Hentry : plugins_now t !! k = Some p).
  { rewrite Hps, list_lookup_imap, Hp. simpl. now rewrite Nat.ltb_irrefl. }
  rewrite (process_result_count flag bj t (R k p) k p Hfind Hentry), IH by lia.
  rewrite List.filter_app, length_app. simpl.
  destruct (count_differs p (R k p)); simpl; lia.
Qed.

End Counting.

(** X13.  The summary count: with unique ids, the number the run reports in
    its last line is the number of plugins whose fetched count differs from
    the stored one; the last line names the Beijing time stamp only when
    stamping is requested. *)
Theorem summary_counts_changes (URL_new : value -> option URL)
    (remote : nat -> nat -> fetch_result) (now : Z) (token : option string)
    (flag : bool) (w : world) (d : document) (ps : list object) :
  fs w PLUGINS_FILE = Some (JSONDoc d) ->
  plugins d = Some ps ->
  ps <> [] ->
  ids_unique ps ->
  valid_clock now ->
  let changed :=
    Z.of_nat
      (length
         (List.filter
            (fun ip => count_differs ip.2 (result_of URL_new remote token ip.1 ip.2))
            (imap pair ps))) in
  exists w',
    updateDownloadCounts URL_new remote now token flag w = (Normal tt, w') /\
    last (console w') =
      Some (if flag
            then FinishedStamped changed
                   (Clock.date_time_string (now + 28800000) +:+ "+08:00")
            else Finished changed).
Proof.
  intros Hfile Hps Hne Hu Hclock changed.
  destruct (updateDownloadCounts_run URL_new remote token now flag w d ps _
              Hfile Hps Hne (ClockFacts.getBeijingTime_format now Hclock))
    as (bs & _ & _ & Hrun). cbv zeta in Hrun.
  assert (Hcount :
    downloadCountUpdated
      (final_tally URL_new remote token flag
         (Clock.date_time_string (now + 28800000) +:+ "+08:00") ps) = changed).
  { pose proof (pass_unique_count flag
                  (Clock.date_time_string (now + 28800000) +:+ "+08:00") ps
                  (result_of URL_new remote token)
                  (result_of_plugin URL_new remote token) Hu (length ps)) as Hn.
    unfold partial_tally in Hn.
    rewrite !take_ge in Hn by (rewrite length_imap; lia).
    unfold final_tally. rewrite all_results_imap. apply Hn. lia. }
  eexists. split; [exact Hrun|]. cbn [console].
  rewrite !app_assoc.
  match goal with
  | |- last (?a ++ [?x; ?y]) = _ =>
      replace (a ++ [x; y]) with ((a ++ [x]) ++ [y])
        by (rewrite <- app_assoc; reflexivity)
  end.
  rewrite last_snoc, Hcount. reflexivity.
Qed.

Lemma summary_counts_changes_witness :
  exists w',
    updateDownloadCounts https_URL (fun _ _ => releases_with 10) 1700000000000
      None false (fresh (mkDocument (Some [plugin_a 0]) [])) = (Normal tt, w') /\
    last (console w') = Some (Finished 1).
Proof.
  apply (summary_counts_changes https_URL (fun _ _ => releases_with 10)
           1700000000000 None false (fresh (mkDocument (Some [plugin_a 0]) []))
           (mkDocument (Some [plugin_a 0]) []) [plugin_a 0]).
  - reflexivity.
  - reflexivity.
  - discriminate.
  - ids_unique_by_cases.
  - unfold valid_clock. simpl. lia.
Defined.

(** Integers up to 2^53 are doubles. *)
Lemma to_double_exact (z : Z) : 0 <= z <= 2 ^ 53 -> to_double z = z.
Proof.
  intros H. unfold to_double. rewrite Z.abs_eq by lia.
  destruct (Z.ltb_spec z (2 ^ 53)) as [_|Hge]; [reflexivity|].
  assert (z = 2 ^ 53) as -> by lia. reflexivity.
Qed.

Lemma counts_nonneg (l : list asset) :
  Forall (fun a => 0 <= default 0 (download_count a)) l ->
  0 <= fold_right Z.add 0 (map (fun a => default 0 (download_count a)) l).
Proof. induction 1 as [|a l Ha _ IH]; simpl; lia. Qed.

Lemma assets_exact (l : list asset) (total : Z) :
  0 <= total ->
  Forall (fun a => 0 <= default 0 (download_count a)) l ->
  total + fold_right Z.add 0 (map (fun a => default 0 (download_count a)) l) <= 2 ^ 53 ->
  fold_left (fun total a => number_add total (to_double (default 0 (download_count a))))
            l total =
    total + fold_right Z.add 0 (map (fun a => default 0 (download_count a)) l).
Proof.
  intros Ht Hl. revert total Ht. induction Hl as [|a l Ha Hl IH]; intros total Ht Hsum.
  - simpl. lia.
  - cbn [fold_left map fold_right] in *.
    pose proof (counts_nonneg l Hl) as Hrest.
    unfold number_add at 2.
    rewrite (to_double_exact (default 0 (download_count a))) by lia.
    rewrite (to_double_exact (total + default 0 (download_count a))) by lia.
    rewrite IH by lia. lia.
Qed.

Lemma totalCount_assets (rs : list release) (total : Z) :
  fold_left
    (fun total release =>
       match assets release with
       | Some l =>
           fold_left
             (fun total a =>
                number_add total (to_double (default 0 (download_count a))))
             l total
       | None => total
       end) rs total =
  fold_left (fun total a => number_add total (to_double (default 0 (download_count a))))
            (flat_map (fun r => default [] (assets r)) rs) total.
Proof.
  revert total. induction rs as [|r rs IH]; intros total; [reflexivity|].
  cbn [fold_left flat_map]. rewrite fold_left_app, IH.
  now destruct (assets r).
Qed.

Lemma assets_nonneg (rs : list release) :
  Forall (fun r => Forall (fun x => 0 <= default 0 (download_count x))
                          (default [] (assets r))) rs ->
  Forall (fun a => 0 <= default 0 (download_count a))
         (flat_map (fun r => default [] (assets r)) rs).
Proof.
  induction 1 as [|r rs Hr _ IH]; simpl; [constructor|].
  apply Forall_app. split; assumption.
Qed.

Lemma totalCount_exact (rs : list release) :
  Forall (fun r => Forall (fun x => 0 <= default 0 (download_count x))
                          (default [] (assets r))) rs ->
  exact_count rs <= 2 ^ 53 ->
  totalCount rs = exact_count rs.
Proof.
  intros Hpos Hsum. unfold totalCount. rewrite totalCount_assets.
  unfold exact_count in *. rewrite assets_exact; [lia|lia|now apply assets_nonneg|lia].
Qed.

Lemma exact_count_app (a b : list release) :
  exact_count (a ++ b) = exact_count a + exact_count b.
Proof.
  unfold exact_count. rewrite flat_map_app, map_app.
  induction (map _ (flat_map _ a)) as [|x l IH]; simpl; lia.
Qed.

Lemma exact_count_nonneg (rs : list release) :
  Forall (fun r => Forall (fun x => 0 <= default 0 (download_count x))
                          (default [] (assets r))) rs ->
  0 <= exact_count rs.
Proof. intros H. apply counts_nonneg. now apply assets_nonneg. Qed.

(** X14.  The total is exact up to 2^53: when the API reports no negative
    [download_count] and the counts of all assets add up to at most 2^53,
    the total of a list of releases is that sum (assets without a count and
    releases without assets count 0), it is the sum of the totals of its
    parts, it is not negative, and further releases never lower it.  (Above
    2^53 the additions round.) *)
Theorem totalCount_exact_and_additive (a b : list release) :
  Forall (fun r => Forall (fun x => 0 <= default 0 (download_count x))
                          (default [] (assets r))) (a ++ b) ->
  exact_count (a ++ b) <= 2 ^ 53 ->
  totalCount (a ++ b) = exact_count (a ++ b) /\
  totalCount (a ++ b) = totalCount a + totalCount b /\
  0 <= totalCount a <= totalCount (a ++ b).
Proof.
  intros Hpos Hsum. pose proof Hpos as Hab. apply Forall_app in Hab as [Ha Hb].
  pose proof (exact_count_nonneg a Ha). pose proof (exact_count_nonneg b Hb).
  rewrite exact_count_app in Hsum.
  rewrite (totalCount_exact (a ++ b)) by (rewrite ?exact_count_app; auto; lia).
  rewrite (totalCount_exact a), (totalCount_exact b) by (auto; lia).
  rewrite exact_count_app. lia.
Qed.

Lemma totalCount_exact_and_additive_witness :
  totalCount ([mkRelease (Some [mkAsset (Some 3); mkAsset None])] ++
              [mkRelease None; mkRelease (Some [mkAsset (Some 4)])]) =
    exact_count ([mkRelease (Some [mkAsset (Some 3); mkAsset None])] ++
                 [mkRelease None; mkRelease (Some [mkAsset (Some 4)])]) /\
  totalCount ([mkRelease (Some [mkAsset (Some 3); mkAsset None])] ++
              [mkRelease None; mkRelease (Some [mkAsset (Some 4)])]) =
    totalCount [mkRelease (Some [mkAsset (Some 3); mkAsset None])] +
    totalCount [mkRelease None; mkRelease (Some [mkAsset (Some 4)])] /\
  0 <= totalCount [mkRelease (Some [mkAsset (Some 3); mkAsset None])] <=
    totalCount ([mkRelease (Some [mkAsset (Some 3); mkAsset None])] ++
                [mkRelease None; mkRelease (Some [mkAsset (Some 4)])]).
Proof.
  apply (totalCount_exact_and_additive
           [mkRelease (Some [mkAsset (Some 3); mkAsset None])]
           [mkRelease None; mkRelease (Some [mkAsset (Some 4)])]).
  - repeat constructor; simpl; lia.
  - vm_compute. discriminate.
Defined.

(** Above 2^53 the additions round: 2^53 + 1 + 1 is 2^53, so the total of
    the whole is not the sum of the totals of the parts. *)
Example totalCount_rounds_above_2_53 :
  totalCount [mkRelease (Some [mkAsset (Some (2 ^ 53)); mkAsset (Some 1);
                               mkAsset (Some 1)])] = 2 ^ 53 /\
  totalCount [mkRelease (Some [mkAsset (Some (2 ^ 53))])] +
  totalCount [mkRelease (Some [mkAsset (Some 1); mkAsset (Some 1)])] = 2 ^ 53 + 2.
Proof. split; reflexivity. Qed.

(** X15.  A successful fetch end to end: with unique ids, when the plugin
    at index [i] has a GitHub URL and its first request is answered with a
    2xx status and a list of releases, the registry file after the run has
    the total of their asset download counts as the [downloadCount] of that
    plugin. *)
Theorem success_stores_total (URL_new : value -> option URL)
    (remote : nat -> nat -> fetch_result) (now : Z) (token : option string)
    (flag : bool) (w : world) (d : document) (ps : list object)
    (i : nat) (p : object) (owner repo : string) (res : response)
    (rs : list release) :
  fs w PLUGINS_FILE = Some (JSONDoc d) ->
  plugins d = Some ps ->
  ids_unique ps ->
  valid_clock now ->
  ps !! i = Some p ->
  extractGitHubRepo URL_new (get p "downloadUrl") = Some (owner, repo) ->
  remote i 0%nat = Resolved res ->
  ok res = true ->
  json_body res = Releases rs ->
  exists w' d' ps' p',
    updateDownloadCounts URL_new remote now token flag w = (Normal tt, w') /\
    fs w' PLUGINS_FILE = Some (JSONDoc d') /\
    plugins d' = Some ps' /\
    ps' !! i = Some p' /\
    get p' "downloadCount" = Some (JNum (totalCount rs)).
Proof.
  intros Hfile Hps Hu Hclock Hp Hrepo Hres Hok Hbody.
  assert (Hr : result_of URL_new remote token i p =
               mkResult i (JNum (totalCount rs)) None).
  { unfold result_of, getDownloadCountForPlugin. rewrite Hrepo.
    unfold fetchGitHubReleases, RETRY_TIMES. simpl. rewrite Hres, Hok, Hbody.
    reflexivity. }
  destruct (run_unique URL_new remote token now flag w d Hfile) as (w' & Hrun & Hcase);
    [now rewrite Hps | assumption |].
  rewrite Hps in Hcase. change (default [] (Some ps)) with ps in Hcase.
  exists w'. destruct Hcase as [(Hfs & _ & _) | (Hfs & _ & Hsame)].
  - eexists _, _, _. split; [exact Hrun|].
    split; [rewrite Hfs; apply fs_write_same|].
    split; [reflexivity|].
    split; [rewrite list_lookup_imap, Hp; reflexivity|].
    rewrite updated_entry_count, Hr. reflexivity.
  - exists d, ps, p. split; [exact Hrun|].
    split; [now rewrite Hfs|]. split; [assumption|]. split; [assumption|].
    destruct (Hsame i p Hp) as [_ Hd]. unfold count_differs in Hd.
    rewrite Hr in Hd. simpl in Hd. apply negb_false_iff in Hd.
    now apply strict_equal_false_eq in Hd.
Qed.

Lemma success_stores_total_witness :
  exists w' d' ps' p',
    updateDownloadCounts https_URL (fun _ _ => releases_with 10) 1700000000000
      None false (fresh (mkDocument (Some [plugin_a 0]) [])) = (Normal tt, w') /\
    fs w' PLUGINS_FILE = Some (JSONDoc d') /\
    plugins d' = Some ps' /\
    ps' !! 0%nat = Some p' /\
    get p' "downloadCount" = Some (JNum 10).
Proof.
  apply (success_stores_total https_URL (fun _ _ => releases_with 10)
           1700000000000 None false (fresh (mkDocument (Some [plugin_a 0]) []))
           (mkDocument (Some [plugin_a 0]) []) [plugin_a 0] 0 (plugin_a 0)
           "o" "r" (mkResponse 200 "OK" (Releases [mkRelease (Some [mkAsset (Some 10)])]))
           [mkRelease (Some [mkAsset (Some 10)])]).
  - reflexivity.
  - reflexivity.
  - ids_unique_by_cases.
  - unfold valid_clock. simpl. lia.
  - reflexivity.
  - reflexivity.
  - reflexivity.
  - reflexivity.
  - reflexivity.
Defined.

End ReconcileMore.

(** ** The requests of the updater *)

Module RequestFacts.
Import Reconcile ReconcileFacts ReconcileMore.

(** *** The repository of a download URL *)

Lemma string_app_cons (c : ascii) (s t : string) :
  String c s +:+ t = String c (s +:+ t).
Proof. reflexivity. Qed.

Lemma string_app_nil_r (s : string) : s +:+ "" = s.
Proof.
  induction s as [|c s IH]; [reflexivity|]. now rewrite string_app_cons, IH.
Qed.

Lemma split_on_head (sep : ascii) (s : string) :
  exists h t,
    split_on sep s = h :: t /\ ~ In sep (list_ascii_of_string h) /\
    ((t = [] /\ s = h) \/
     exists s', s = h +:+ String sep s' /\ split_on sep s' = t).
Proof.
  induction s as [|c rest (h & t & Hs & Hh & Hrest)].
  - exists "", []. split; [reflexivity|]. split; [intros []|]. left. split; reflexivity.
  - simpl. destruct (Ascii.eqb c sep) eqn:E.
    + apply Ascii.eqb_eq in E. subst c.
      exists "", (split_on sep rest). split; [reflexivity|]. split; [intros []|].
      right. exists rest. split; reflexivity.
    + apply Ascii.eqb_neq in E. rewrite Hs.
      exists (String c h), t. split; [reflexivity|].
      split; [simpl; intros [H|H]; [congruence|contradiction]|].
      destruct Hrest as [[-> ->] | (s' & -> & Ht)].
      * left. split; reflexivity.
      * right. exists s'. split; [reflexivity|assumption].
Qed.

Lemma first_segment (sep : ascii) (s a : string) (l : list string) :
  List.filter (fun p => negb (String.eqb p "")) (split_on sep s) = a :: l ->
  exists n s',
    s = string_of_list_ascii (repeat sep n) +:+ a +:+ s' /\
    a <> "" /\ ~ In sep (list_ascii_of_string a) /\
    ((s' = "" /\ l = []) \/
     exists s'', s' = String sep s'' /\
       List.filter (fun p => negb (String.eqb p "")) (split_on sep s'') = l).
Proof.
  revert a l. induction s as [|c rest IH]; intros a l H.
  - discriminate.
  - simpl in H. destruct (Ascii.eqb c sep) eqn:E.
    + apply Ascii.eqb_eq in E. subst c. simpl in H.
      destruct (IH a l H) as (n & s' & -> & Ha & Hsep & Hl).
      exists (S n), s'. split; [reflexivity|]. auto.
    + apply Ascii.eqb_neq in E.
      destruct (split_on_head sep rest) as (h & t & Hs & Hh & Hrest).
      rewrite Hs in H. simpl in H. injection H as <- <-.
      exists 0%nat.
      destruct Hrest as [[-> ->] | (s' & -> & Ht)].
      * exists "". split; [now rewrite string_app_nil_r|].
        split; [discriminate|].
        split; [simpl; intros [H|H]; [congruence|contradiction]|].
        left. split; reflexivity.
      * exists (String sep s'). split; [reflexivity|].
        split; [discriminate|].
        split; [simpl; intros [H|H]; [congruence|contradiction]|].
        right. exists s'. split; [reflexivity|]. now rewrite Ht.
Qed.

(** X16.  What [extractGitHubRepo] accepts: the URL parses, its host is
    exactly [github.com], and the owner and the repository are the first
    two non-empty segments of its path: not empty, without [/], separated
    and possibly preceded by [/]s, and followed by the end or a [/]. *)
Theorem extractGitHubRepo_sound (URL_new : value -> option URL) (v : value)
    (owner repo : string) :
  extractGitHubRepo URL_new v = Some (owner, repo) ->
  exists url n m rest,
    URL_new v = Some url /\
    hostname url = "github.com" /\
    pathname url =
      string_of_list_ascii (repeat "/"%char n) +:+ owner +:+
      string_of_list_ascii (repeat "/"%char (S m)) +:+ repo +:+ rest /\
    (rest = "" \/ exists rest', rest = String "/" rest') /\
    owner <> "" /\ repo <> "" /\
    ~ In "/"%char (list_ascii_of_string owner) /\
    ~ In "/"%char (list_ascii_of_string repo).
Proof.
  unfold extractGitHubRepo. intros H.
  destruct (URL_new v) as [url|]; [|discriminate].
  destruct (String.eqb (hostname url) "github.com") eqn:Hhost; [|discriminate].
  apply String.eqb_eq in Hhost. simpl in H.
  destruct (List.filter _ _) as [|o [|r l]] eqn:Hparts; try discriminate.
  injection H as -> ->.
  destruct (first_segment _ _ _ _ Hparts) as (n & s' & Hpath & Ho & Hso & Hl).
  destruct Hl as [[_ Hl] | (s'' & -> & Hl)]; [discriminate|].
  destruct (first_segment _ _ _ _ Hl) as (m & rest & -> & Hr & Hsr & Hrest).
  exists url, n, m, rest. split; [reflexivity|]. split; [assumption|].
  split; [exact Hpath|].
  split; [destruct Hrest as [[-> _] | (r' & -> & _)]; eauto|].
  auto.
Qed.

Lemma extractGitHubRepo_sound_witness :
  exists url n m rest,
    https_URL (Some (JStr "https://github.com/o/r/releases/download/v1/x.zip")) = Some url /\
    hostname url = "github.com" /\
    pathname url =
      string_of_list_ascii (repeat "/"%char n) +:+ "o" +:+
      string_of_list_ascii (repeat "/"%char (S m)) +:+ "r" +:+ rest /\
    (rest = "" \/ exists rest', rest = String "/" rest') /\
    "o" <> "" /\ "r" <> "" /\
    ~ In "/"%char (list_ascii_of_string "o") /\
    ~ In "/"%char (list_ascii_of_string "r").
Proof.
  apply (extractGitHubRepo_sound https_URL
           (Some (JStr "https://github.com/o/r/releases/download/v1/x.zip")) "o" "r").
  reflexivity.
Defined.

(** *** The requests of a run *)

Lemma token_set_idem (token : option string) :
  token_set (token_set token) = token_set token.
Proof.
  destruct token as [t|]; [|reflexivity]. simpl.
  destruct (String.eqb t "") eqn:E; [reflexivity|]. simpl. now rewrite E.
Qed.

Lemma plugin_requests (URL_new : value -> option URL) (responses : nat -> fetch_result)
    (i : nat) (p : object) (token : option string) :
  let tr := (getDownloadCountForPlugin URL_new responses i p token).1 in
  (length (fetch_starts tr) <= S RETRY_TIMES)%nat /\
  forall url opts, In (FetchStart url opts) tr ->
    exists owner repo,
      extractGitHubRepo URL_new (get p "downloadUrl") = Some (owner, repo) /\
      url = "https://api.github.com/repos/" +:+ owner +:+ "/" +:+ repo +:+ "/releases" /\
      opts = [("User-Agent", "napcat-plugin-index");
              ("Accept", "application/vnd.github.v3+json")] ++
             match token_set token with
             | Some t => [("Authorization", "token " +:+ t)]
             | None => []
             end.
Proof.
  unfold getDownloadCountForPlugin.
  destruct (extractGitHubRepo URL_new (get p "downloadUrl")) as [[owner repo]|];
    [|split; [simpl; lia | intros url opts []]].
  unfold fetchGitHubReleases.
  match goal with
  | |- context [fetchWithRetry ?r ?u ?o ?n ?k] =>
      pose proof (fetchWithRetry_trace r u o n k) as (Hn & Hs & _);
      destruct (fetchWithRetry r u o n k) as [tr [msg|rs]]
  end; cbn [fst] in *;
    (split; [lia|]; intros url opts Hin;
     assert (Hin' : In (FetchStart url opts) (fetch_starts tr))
       by (apply filter_In; split; [assumption|reflexivity]);
     rewrite Hs in Hin'; apply repeat_spec in Hin'; injection Hin' as -> ->;
     exists owner, repo; split; [reflexivity|]; split; reflexivity).
Qed.

(** X17.  The requests of a whole run: one call per plugin of the registry,
    each with at most [RETRY_TIMES + 1] = 3 requests, and every request is
    for a plugin with a GitHub repository, goes to
    [https://api.github.com/repos/<owner>/<repo>/releases] of that
    repository, and carries the two fixed headers, with an
    [Authorization: token ...] header exactly when [GITHUB_TOKEN] is set and
    not empty. *)
Theorem run_requests (URL_new : value -> option URL) (env : environment)
    (remote : nat -> nat -> fetch_result) (now : Z) (w : world) (d : document) :
  fs w PLUGINS_FILE = Some (JSONDoc d) ->
  valid_clock now ->
  exists w' bs,
    main URL_new env remote now w = (Normal tt, w') /\
    network w' = network w ++ bs /\
    length (concat bs) = length (default [] (plugins d)) /\
    forall i tr, concat bs !! i = Some tr ->
      (length (fetch_starts tr) <= 3)%nat /\
      forall url opts, In (FetchStart url opts) tr ->
        exists p owner repo,
          default [] (plugins d) !! i = Some p /\
          extractGitHubRepo URL_new (get p "downloadUrl") = Some (owner, repo) /\
          url = "https://api.github.com/repos/" +:+ owner +:+ "/" +:+ repo +:+ "/releases" /\
          opts = [("User-Agent", "napcat-plugin-index");
                  ("Accept", "application/vnd.github.v3+json")] ++
                 match GITHUB_TOKEN env with
                 | Some t => if String.eqb t "" then []
                             else [("Authorization", "token " +:+ t)]
                 | None => []
                 end.
Proof.
  intros Hfile Hclock. unfold main. 
  set (flag := match UPDATE_PLUGIN_TIME env with
               | Some s => String.eqb s "true"
               | None => false
               end).
  destruct (default [] (plugins d)) as [|p0 ps0] eqn:Hps.
  - eexists _, []. unfold try_catch.
    rewrite (updateDownloadCounts_no_plugins _ _ _ _ _ _ _ Hfile Hps).
    split; [reflexivity|]. cbn [network]. split; [now rewrite app_nil_r|].
    split; [reflexivity|]. intros i tr Hi. destruct i; discriminate Hi.
  - destruct (plugins d) as [ps|] eqn:Hd; [|discriminate]. simpl in Hps. subst ps.
    destruct (updateDownloadCounts_run URL_new remote (token_set (GITHUB_TOKEN env))
                now flag w d (p0 :: ps0) _ Hfile Hd ltac:(discriminate)
                (ClockFacts.getBeijingTime_format now Hclock))
      as (bs & Hcat & _ & Hrun).
    cbv zeta in Hrun. eexists _, bs. unfold try_catch. rewrite Hrun.
    split; [reflexivity|]. cbn [network]. split; [reflexivity|].
    rewrite Hcat. unfold runs_from.
    split; [now rewrite length_map, length_imap|].
    intros i tr Hi.
    change (map ?f ?l) with (f <$> l) in Hi. rewrite list_lookup_fmap in Hi.
    rewrite list_lookup_imap in Hi.
    destruct ((p0 :: ps0) !! i) as [p|] eqn:Hp; [|discriminate].
    cbn in Hi. injection Hi as <-.
    destruct (plugin_requests URL_new (remote i) i p (token_set (GITHUB_TOKEN env)))
      as [Hn Hreq].
    split; [exact Hn|]. intros url opts Hin.
    destruct (Hreq url opts Hin) as (owner & repo & Hrepo & -> & ->).
    exists p, owner, repo. split; [reflexivity|]. split; [exact Hrepo|].
    split; [reflexivity|]. rewrite token_set_idem. f_equal.
    unfold token_set. destruct (GITHUB_TOKEN env) as [t|]; [|reflexivity].
    now destruct (String.eqb t "").
Qed.

Lemma run_requests_witness :
  exists w' bs,
    main https_URL (mkEnv (Some "") None) (fun _ _ => releases_with 10)
      1700000000000 (fresh (mkDocument (Some [plugin_a 0; plugin_b 0]) [])) =
      (Normal tt, w') /\
    network w' = network (fresh (mkDocument (Some [plugin_a 0; plugin_b 0]) [])) ++ bs /\
    length (concat bs) =
      length (default [] (plugins (mkDocument (Some [plugin_a 0; plugin_b 0]) []))) /\
    forall i tr, concat bs !! i = Some tr ->
      (length (fetch_starts tr) <= 3)%nat /\
      forall url opts, In (FetchStart url opts) tr ->
        exists p owner repo,
          default [] (plugins (mkDocument (Some [plugin_a 0; plugin_b 0]) [])) !! i = Some p /\
          extractGitHubRepo https_URL (get p "downloadUrl") = Some (owner, repo) /\
          url = "https://api.github.com/repos/" +:+ owner +:+ "/" +:+ repo +:+ "/releases" /\
          opts = [("User-Agent", "napcat-plugin-index");
                  ("Accept", "application/vnd.github.v3+json")] ++
                 match GITHUB_TOKEN (mkEnv (Some "") None) with
                 | Some t => if String.eqb t "" then []
                             else [("Authorization", "token " +:+ t)]
                 | None => []
                 end.
Proof.
  apply (run_requests https_URL (mkEnv (Some "") None) (fun _ _ => releases_with 10)
           1700000000000 (fresh (mkDocument (Some [plugin_a 0; plugin_b 0]) []))
           (mkDocument (Some [plugin_a 0; plugin_b 0]) [])).
  - reflexivity.
  - unfold valid_clock. simpl. lia.
Defined.

End RequestFacts.

(** *** Entries that share an id *)

Module Duplicates.
Import Reconcile ReconcileFacts.

(** Comparing a value that is not an array or object does not depend on
    where the operands come from. *)
Lemma strict_equal_primitive (a b c : value) (s s' : bool) :
  strict_equal false a b = true -> strict_equal s a c = strict_equal s' a c.
Proof.
  destruct a as [[| x | x | x | x | x]|], b as [[| y | y | y | y | y]|];
    simpl; try discriminate; intros _;
    destruct c as [[| z | z | z | z | z]|]; reflexivity.
Qed.

Lemma findIndex_from_before (l : list object) (j0 i : nat) (id : value) (k : nat) :
  findIndex_from j0 l i id = Some k ->
  forall k' q, (j0 + k' < k)%nat -> l !! k' = Some q ->
    strict_equal (Nat.eqb (j0 + k') i) (get q "id") id = false.
Proof.
  revert j0. induction l as [|q0 l IH]; intros j0 H k' q Hk Hq; [discriminate|].
  simpl in H.
  destruct (strict_equal (Nat.eqb j0 i) (get q0 "id") id) eqn:E.
  - injection H as <-. lia.
  - destruct k' as [|k']; simpl in Hq.
    + injection Hq as <-. now rewrite Nat.add_0_r.
    + replace (j0 + S k')%nat with (S j0 + k')%nat by lia.
      apply (IH (S j0) H); [lia|assumption].
Qed.

Lemma findIndex_from_at (l : list object) (j0 i : nat) (id : value) (k : nat) :
  findIndex_from j0 l i id = Some k ->
  exists q, l !! (k - j0)%nat = Some q /\
            strict_equal (Nat.eqb k i) (get q "id") id = true.
Proof.
  revert j0. induction l as [|q0 l IH]; intros j0 H; [discriminate|].
  simpl in H.
  destruct (strict_equal (Nat.eqb j0 i) (get q0 "id") id) eqn:E.
  - injection H as <-. rewrite Nat.sub_diag. now exists q0.
  - destruct (IH _ H) as (q & Hq & Heq).
    pose proof (findIndex_from_found _ _ _ _ _ H) as [Hle _].
    exists q. split; [|assumption].
    now replace (k - j0)%nat with (S (k - S j0)) by lia.
Qed.

(** [findIndex] never gives the index of an entry that has an entry with
    the same id before it. *)
Lemma findIndex_not_later (l : list object) (i k i0 j : nat) (p0 pj : object) :
  findIndex l i = Some k ->
  l !! i0 = Some p0 -> l !! j = Some pj -> (i0 < j)%nat ->
  strict_equal false (get p0 "id") (get pj "id") = true ->
  k <> j.
Proof.
  unfold findIndex. destruct (l !! i) as [p|]; [|discriminate].
  intros Hfind H0 Hj Hlt Hsame ->.
  destruct (findIndex_from_at _ _ _ _ _ Hfind) as (q & Hq & Hat).
  rewrite Nat.sub_0_r, Hj in Hq. injection Hq as <-.
  pose proof (findIndex_from_before _ _ _ _ _ Hfind i0 p0 ltac:(simpl; lia) H0) as Hbefore.
  simpl in Hbefore.
  pose proof (strict_equal_false_eq _ _ Hsame) as Heq.
  rewrite (strict_equal_primitive _ _ _ _ (Nat.eqb j i) Hsame), Heq, Hat in Hbefore.
  discriminate.
Qed.

Lemma pass_skips_later (flag : bool) (bj : string) (ps : list object)
    (i0 j : nat) (p0 pj : object) (rs : list result) (t : tally) :
  ps !! i0 = Some p0 -> ps !! j = Some pj -> (i0 < j)%nat ->
  strict_equal false (get p0 "id") (get pj "id") = true ->
  map (fun q => get q "id") (plugins_now t) = map (fun q => get q "id") ps ->
  plugins_now t !! j = Some pj ->
  plugins_now (fold_left (process_result flag bj) rs t) !! j = Some pj.
Proof.
  intros H0 Hj Hlt Hsame. revert t.
  induction rs as [|r rs IH]; intros t Hids Hkeep; simpl; [assumption|].
  destruct (findIndex (plugins_now t) (plugin r)) as [k|] eqn:Hfind.
  - destruct (findIndex_found _ _ _ Hfind) as [_ [entry Hentry]].
    destruct (process_result_at flag bj t r k entry Hfind Hentry) as [Hnow _].
    assert (Hk : k <> j).
    { rewrite (findIndex_ids _ ps _ Hids) in Hfind.
      exact (findIndex_not_later _ _ _ _ _ _ _ Hfind H0 Hj Hlt Hsame). }
    apply IH.
    + rewrite Hnow, <- Hids. apply (Stamping.insert_same_ids _ _ entry); [assumption|].
      apply updated_entry_get; discriminate.
    + rewrite Hnow. rewrite list_lookup_insert_ne by assumption. assumption.
  - rewrite (process_result_unmatched _ _ _ _ Hfind). now apply IH.
Qed.

(** X18.  Entries that share an id: the pass finds an entry by its id and
    takes the first one, so an entry that has an entry with the same id
    before it in the registry is never updated: after the run the file has
    it as it was, without a new count and, even when stamping, without a
    new [updateTime]. *)
Theorem later_duplicate_untouched (URL_new : value -> option URL)
    (remote : nat -> nat -> fetch_result) (now : Z) (token : option string)
    (flag : bool) (w : world) (d : document) (ps : list object)
    (i0 j : nat) (p0 pj : object) :
  fs w PLUGINS_FILE = Some (JSONDoc d) ->
  plugins d = Some ps ->
  valid_clock now ->
  ps !! i0 = Some p0 -> ps !! j = Some pj -> (i0 < j)%nat ->
  strict_equal false (get p0 "id") (get pj "id") = true ->
  exists w' d' ps',
    updateDownloadCounts URL_new remote now token flag w = (Normal tt, w') /\
    fs w' PLUGINS_FILE = Some (JSONDoc d') /\
    plugins d' = Some ps' /\
    ps' !! j = Some pj.
Proof.
  intros Hfile Hps Hclock H0 Hj Hlt Hsame.
  destruct (updateDownloadCounts_run URL_new remote token now flag w d ps _ Hfile Hps
              ltac:(intros ->; discriminate)
              (ClockFacts.getBeijingTime_format now Hclock))
    as (bs & _ & _ & Hrun).
  cbv zeta in Hrun. rewrite Hrun. clear Hrun.
  set (t := final_tally _ _ _ _ _ _).
  destruct (hasAnyChange t) eqn:Hc.
  - eexists _, _, _. split; [reflexivity|]. cbn [fs].
    split; [apply fs_write_same|]. split; [reflexivity|].
    cbn [plugins]. subst t. unfold final_tally.
    apply (pass_skips_later flag _ ps i0 j p0 pj); auto.
  - eexists _, d, ps. split; [reflexivity|]. cbn [fs]. auto.
Qed.

Lemma later_duplicate_untouched_witness :
  exists w' d' ps',
    updateDownloadCounts https_URL (fun _ _ => releases_with 10) 1700000000000 None true
      (fresh (mkDocument (Some [plugin_a 0; plugin_a 5]) [])) = (Normal tt, w') /\
    fs w' PLUGINS_FILE = Some (JSONDoc d') /\
    plugins d' = Some ps' /\
    ps' !! 1%nat = Some (plugin_a 5).
Proof.
  apply (later_duplicate_untouched https_URL (fun _ _ => releases_with 10)
           1700000000000 None true
           (fresh (mkDocument (Some [plugin_a 0; plugin_a 5]) []))
           (mkDocument (Some [plugin_a 0; plugin_a 5]) [])
           [plugin_a 0; plugin_a 5] 0 1 (plugin_a 0) (plugin_a 5)).
  - reflexivity.
  - reflexivity.
  - unfold valid_clock. simpl. lia.
  - reflexivity.
  - reflexivity.
  - lia.
  - reflexivity.
Defined.

End Duplicates.

(** ** The time stamp *)

Module ClockMore.
Import Clock ClockFacts.

Lemma seconds_fields (t : Z) :
  Day t = t / 1000 / 86400 /\
  HourFromTime t = (t / 1000 / 3600) mod 24 /\
  MinFromTime t = (t / 1000 / 60) mod 60.
Proof.
  unfold Day, msPerDay, HourFromTime, MinFromTime.
  rewrite !Z.div_div by lia. repeat split.
Qed.

Lemma date_time_string_seconds (t t' : Z) :
  t / 1000 = t' / 1000 -> date_time_string t = date_time_string t'.
Proof.
  intros H.
  destruct (seconds_fields t) as (Hd & Hh & Hm).
  destruct (seconds_fields t') as (Hd' & Hh' & Hm').
  rewrite H in Hd, Hh, Hm. rewrite <- Hd' in Hd. rewrite <- Hh' in Hh. rewrite <- Hm' in Hm.
  assert (Hs : SecFromTime t = SecFromTime t') by (unfold SecFromTime; now rewrite H).
  assert (Hy : YearFromTime t = YearFromTime t') by (unfold YearFromTime; now rewrite Hd).
  assert (Hw : DayWithinYear t = DayWithinYear t')
    by (unfold DayWithinYear; now rewrite Hd, Hy).
  assert (Hl : InLeapYear t = InLeapYear t') by (unfold InLeapYear; now rewrite Hy).
  assert (Hmo : MonthFromTime t = MonthFromTime t')
    by (unfold MonthFromTime; now rewrite Hw, Hl).
  assert (Hda : DateFromTime t = DateFromTime t')
    by (unfold DateFromTime; now rewrite Hw, Hl, Hmo).
  unfold date_time_string. now rewrite Hy, Hmo, Hda, Hh, Hm, Hs.
Qed.

(** X19.  The stamp has the precision of a second: two clock readings within
    the same second give the same stamp, which ends with [+08:00]; for the
    years 0 to 9999 of Beijing time it has 25 characters. *)
Theorem getBeijingTime_same_second (now now' : Z) :
  Reconcile.valid_clock now -> Reconcile.valid_clock now' ->
  now / 1000 = now' / 1000 ->
  exists body,
    getBeijingTime now = Some (body +:+ "+08:00") /\
    getBeijingTime now' = Some (body +:+ "+08:00") /\
    (0 <= YearFromTime (now + 28800000) <= 9999 -> String.length body = 19%nat).
Proof.
  intros Hv Hv' Hsec.
  exists (date_time_string (now + 28800000)).
  split; [now apply getBeijingTime_format|].
  split.
  - rewrite (getBeijingTime_format now' Hv'). do 2 f_equal.
    apply date_time_string_seconds.
    replace 28800000 with (28800 * 1000) by lia.
    rewrite !Z.div_add by lia. now rewrite Hsec.
  - intros Hy. unfold date_time_string, year_string.
    destruct (Z.leb_spec 0 (YearFromTime (now + 28800000))); [|lia].
    destruct (Z.leb_spec (YearFromTime (now + 28800000)) 9999); [|lia].
    reflexivity.
Qed.

Lemma getBeijingTime_same_second_witness :
  exists body,
    getBeijingTime 1700000000000 = Some (body +:+ "+08:00") /\
    getBeijingTime 1700000000999 = Some (body +:+ "+08:00") /\
    (0 <= YearFromTime (1700000000000 + 28800000) <= 9999 -> String.length body = 19%nat).
Proof.
  apply (getBeijingTime_same_second 1700000000000 1700000000999).
  - unfold Reconcile.valid_clock. simpl. lia.
  - unfold Reconcile.valid_clock. simpl. lia.
  - reflexivity.
Defined.

End ClockMore.

(** ** The security scan *)

Module ScanFacts.
Import Scan.

(** *** The plugins to scan *)

Lemma version_get_set_same (m : VersionMap) (k k' : value) (v : value) :
  same_value_zero k k' = true -> version_get (version_set m k v) k' = v.
Proof.
  intros H. pose proof (strict_equal_false_eq _ _ H) as ->.
  induction m as [|[k0 v0] m IH]; simpl.
  - now rewrite H.
  - destruct (same_value_zero k0 k') eqn:E; simpl; rewrite E; auto.
Qed.

Lemma version_get_set_other (m : VersionMap) (k k' : value) (v : value) :
  same_value_zero k k' = false ->
  version_get (version_set m k v) k' = version_get m k'.
Proof.
  intros H. induction m as [|[k0 v0] m IH]; simpl.
  - now rewrite H.
  - destruct (same_value_zero k0 k) eqn:E; simpl.
    + apply strict_equal_false_eq in E. subst k0. now rewrite H.
    + destruct (same_value_zero k0 k'); auto.
Qed.

Lemma baseMap_snoc (l : list object) (p : object) :
  baseMap (l ++ [p]) = version_set (baseMap l) (get p "id") (get p "version").
Proof. unfold baseMap. now rewrite fold_left_app. Qed.

Lemma baseMap_absent (base : list object) (k : value) :
  (forall q, In q base -> same_value_zero (get q "id") k = false) ->
  version_get (baseMap base) k = None.
Proof.
  induction base as [|p base IH] using rev_ind; intros H; [reflexivity|].
  rewrite baseMap_snoc, version_get_set_other.
  - apply IH. intros q Hq. apply H. apply in_or_app. now left.
  - apply H. apply in_or_app. right. now left.
Qed.

Lemma baseMap_unique (base : list object) (j : nat) (q : object) (k : value) :
  ids_unique base ->
  base !! j = Some q ->
  same_value_zero (get q "id") k = true ->
  version_get (baseMap base) k = get q "version".
Proof.
  revert j q. induction base as [|p base IH] using rev_ind; intros j q Hu Hj Hk.
  - discriminate.
  - rewrite baseMap_snoc.
    destruct (decide (j = length base)) as [->|Hne].
    + rewrite list_lookup_middle in Hj by reflexivity.
      injection Hj as ->. now apply version_get_set_same.
    + assert (Hlt : (j < length base)%nat).
      { apply lookup_lt_Some in Hj. rewrite length_app in Hj. simpl in Hj. lia. }
      rewrite lookup_app_l in Hj by assumption.
      destruct (same_value_zero (get p "id") k) eqn:E.
      * exfalso. apply Hne.
        apply (Hu j (length base) q p).
        -- now rewrite lookup_app_l.
        -- now rewrite list_lookup_middle.
        -- destruct (Nat.eqb j (length base)) eqn:En.
           ++ apply Nat.eqb_eq in En. contradiction.
           ++ rewrite (strict_equal_false_eq _ _ E). exact Hk.
      * rewrite version_get_set_other by assumption.
        apply (IH j q); auto.
        intros a b x y Ha Hb. apply Hu; now apply lookup_app_l_Some.
Qed.

Lemma In_lookup {A} (x : A) (l : list A) : In x l -> exists j, l !! j = Some x.
Proof.
  induction l as [|a l IH]; intros []; [subst; now exists 0%nat|].
  destruct IH as [j Hj]; [assumption|]. now exists (S j).
Qed.

(** The filter of [getChangedPlugins] when the ids of the base are unique:
    a plugin is kept unless the base has an entry with its id and its
    version, the version not being falsy. *)
Lemma is_changed_unique (base : list object) (p : object) :
  ids_unique base ->
  is_changed (baseMap base) p = true <->
  ~ exists q, In q base /\
      same_value_zero (get q "id") (get p "id") = true /\
      truthy (get q "version") = true /\
      strict_equal false (get q "version") (get p "version") = true.
Proof.
  intros Hu. unfold is_changed. split.
  - intros Hc (q & Hq & Hid & Ht & Hv).
    apply In_lookup in Hq as [j Hj].
    rewrite (baseMap_unique base j q _ Hu) in Hc; [|exact Hj|exact Hid].
    rewrite Ht, Hv in Hc. discriminate.
  - intros Hno.
    destruct (existsb (fun q => same_value_zero (get q "id") (get p "id")) base) eqn:E.
    + apply existsb_exists in E as (q & Hq & Hid).
      destruct (In_lookup _ _ Hq) as [j Hj].
      rewrite (baseMap_unique base j q _ Hu); [|exact Hj|exact Hid].
      destruct (truthy (get q "version")) eqn:Ht; [|reflexivity].
      destruct (strict_equal false (get q "version") (get p "version")) eqn:Hv;
        [|reflexivity].
      exfalso. apply Hno. exists q. auto.
    + rewrite baseMap_absent; [reflexivity|].
      intros q Hq.
      destruct (same_value_zero (get q "id") (get p "id")) eqn:Hid; [|reflexivity].
      assert (existsb (fun q => same_value_zero (get q "id") (get p "id")) base = true)
        by (apply existsb_exists; eauto).
      congruence.
Qed.

Lemma filter_sublist {A} (f : A -> bool) (l : list A) :
  List.filter f l `sublist_of` l.
Proof.
  induction l as [|a l IH]; simpl; [constructor|].
  destruct (f a); now constructor.
Qed.

(** X20.  [getChangedPlugins] never throws and never writes: in every state
    of the files and of git it returns, having printed exactly one message
    and changed nothing else. *)
Theorem getChangedPlugins_never_throws (w : world) :
  exists r m,
    getChangedPlugins w =
      (Normal r, mkWorld (fs w) (origin w) (console w ++ [m])).
Proof.
  unfold getChangedPlugins, try_catch, mbind, proc_bind, readFileSync, git_show, say,
    JSON_parse, defined, throw, mret, proc_ret.
  destruct w as [f o c]. cbn [fs origin console].
  destruct (f PLUGINS_FILE) as [[text|dcur]|]; cbn [fs origin console]; eauto.
  destruct o as [[text|dbase]|]; cbn [fs origin console]; eauto.
  destruct (plugins dbase) as [base|]; cbn [fs origin console]; eauto.
  destruct (plugins dcur) as [cur|]; cbn [fs origin console]; eauto.
Qed.

(** X21.  The scan fails open: when the registry file is missing or not
    JSON, or when the base version is read and one of the two documents has
    no [plugins] array, the error is printed and the list of plugins to
    scan is empty. *)
Theorem changes_failed_scans_nothing (w : world) :
  Merge.unreadable (fs w PLUGINS_FILE) = true \/
  (exists dcur dbase,
     fs w PLUGINS_FILE = Some (JSONDoc dcur) /\
     origin w = Some (JSONDoc dbase) /\
     (plugins dbase = None \/ plugins dcur = None)) ->
  exists e,
    getChangedPlugins w =
      (Normal (Some []), mkWorld (fs w) (origin w) (console w ++ [ChangesFailed e])).
Proof.
  unfold getChangedPlugins, try_catch, mbind, proc_bind, readFileSync, git_show, say,
    JSON_parse, defined, throw, mret, proc_ret.
  destruct w as [f o c]. cbn [fs origin console].
  intros [H | (dcur & dbase & -> & -> & H)].
  - destruct (f PLUGINS_FILE) as [[text|dcur]|]; [eauto|discriminate|eauto].
  - cbn [fs origin console].
    destruct (plugins dbase) as [base|]; cbn [fs origin console]; [|eauto].
    destruct H as [H|H]; [discriminate|]. rewrite H. cbn [fs origin console]. eauto.
Qed.

Lemma changes_failed_scans_nothing_witness :
  exists e,
    getChangedPlugins (mkWorld (fun _ => None) None []) =
      (Normal (Some []),
       mkWorld (fs (mkWorld (fun _ => None) None []))
               (origin (mkWorld (fun _ => None) None []))
               (console (mkWorld (fun _ => None) None []) ++ [ChangesFailed e])).
Proof.
  apply (changes_failed_scans_nothing (mkWorld (fun _ => None) None [])).
  left. reflexivity.
Defined.

(** X22.  Without a base version (the git command fails or prints no JSON)
    every plugin of the registry is to be scanned: the result is the
    [plugins] property of the current document as it is. *)
Theorem base_unavailable_scans_all (w : world) (dcur : document) :
  fs w PLUGINS_FILE = Some (JSONDoc dcur) ->
  Merge.unreadable (origin w) = true ->
  getChangedPlugins w =
    (Normal (plugins dcur),
     mkWorld (fs w) (origin w) (console w ++ [BaseUnavailable])).
Proof.
  unfold getChangedPlugins, try_catch, mbind, proc_bind, readFileSync, git_show, say,
    JSON_parse, defined, throw, mret, proc_ret.
  destruct w as [f o c]. cbn [fs origin console]. intros -> H.
  cbn [fs origin console].
  destruct o as [[text|dbase]|]; [reflexivity|discriminate|reflexivity].
Qed.

Lemma base_unavailable_scans_all_witness :
  getChangedPlugins
    (mkWorld (Reconcile.registry_disk
                (mkDocument (Some [Reconcile.plugin_a 0; Reconcile.plugin_b 0]) []))
             None []) =
    (Normal (Some [Reconcile.plugin_a 0; Reconcile.plugin_b 0]),
     mkWorld (Reconcile.registry_disk
                (mkDocument (Some [Reconcile.plugin_a 0; Reconcile.plugin_b 0]) []))
             None [BaseUnavailable]).
Proof.
  apply (base_unavailable_scans_all
           (mkWorld (Reconcile.registry_disk
                       (mkDocument (Some [Reconcile.plugin_a 0; Reconcile.plugin_b 0]) []))
                    None [])
           (mkDocument (Some [Reconcile.plugin_a 0; Reconcile.plugin_b 0]) [])).
  - reflexivity.
  - reflexivity.
Defined.

(** X23.  With a base version whose ids are unique, the plugins to scan are
    exactly the new and the changed ones, in the order of the registry: a
    plugin of the current registry is left out exactly when the base has an
    entry with the same id and the same version, that version not being
    empty or missing. *)
Theorem changed_plugins_exact (w : world) (dcur dbase : document)
    (cur base : list object) :
  fs w PLUGINS_FILE = Some (JSONDoc dcur) ->
  plugins dcur = Some cur ->
  origin w = Some (JSONDoc dbase) ->
  plugins dbase = Some base ->
  ids_unique base ->
  exists changed,
    getChangedPlugins w =
      (Normal (Some changed),
       mkWorld (fs w) (origin w) (console w ++ [FoundChanged (length changed)])) /\
    changed `sublist_of` cur /\
    forall p, In p changed <->
      In p cur /\
      ~ exists q, In q base /\
          same_value_zero (get q "id") (get p "id") = true /\
          truthy (get q "version") = true /\
          strict_equal false (get q "version") (get p "version") = true.
Proof.
  intros Hcur Hc Hbase Hb Hu.
  exists (List.filter (is_changed (baseMap base)) cur). split; [|split].
  - unfold getChangedPlugins, try_catch, mbind, proc_bind, readFileSync, git_show, say,
      JSON_parse, defined, throw, mret, proc_ret.
    destruct w as [f o c]. cbn [fs origin console] in *. rewrite Hcur, Hbase.
    cbn [fs origin console]. rewrite Hb, Hc. reflexivity.
  - apply filter_sublist.
  - intros p. rewrite filter_In. now rewrite (is_changed_unique base p Hu).
Qed.

Lemma changed_plugins_exact_witness :
  exists changed,
    getChangedPlugins
      (mkWorld
         (Reconcile.registry_disk
            (mkDocument (Some [[("id", JStr "a"); ("version", JStr "1.0.0")];
                               [("id", JStr "b"); ("version", JStr "2.0.0")];
                               [("id", JStr "c"); ("version", JStr "0.1.0")]]) []))
         (Some (JSONDoc
            (mkDocument (Some [[("id", JStr "a"); ("version", JStr "1.0.0")];
                               [("id", JStr "b"); ("version", JStr "1.0.0")]]) [])))
         []) =
      (Normal (Some changed),
       mkWorld
         (Reconcile.registry_disk
            (mkDocument (Some [[("id", JStr "a"); ("version", JStr "1.0.0")];
                               [("id", JStr "b"); ("version", JStr "2.0.0")];
                               [("id", JStr "c"); ("version", JStr "0.1.0")]]) []))
         (Some (JSONDoc
            (mkDocument (Some [[("id", JStr "a"); ("version", JStr "1.0.0")];
                               [("id", JStr "b"); ("version", JStr "1.0.0")]]) [])))
         ([] ++ [FoundChanged (length changed)])) /\
    changed `sublist_of` [[("id", JStr "a"); ("version", JStr "1.0.0")];
                          [("id", JStr "b"); ("version", JStr "2.0.0")];
                          [("id", JStr "c"); ("version", JStr "0.1.0")]] /\
    forall p, In p changed <->
      In p [[("id", JStr "a"); ("version", JStr "1.0.0")];
            [("id", JStr "b"); ("version", JStr "2.0.0")];
            [("id", JStr "c"); ("version", JStr "0.1.0")]] /\
      ~ exists q, In q [[("id", JStr "a"); ("version", JStr "1.0.0")];
                        [("id", JStr "b"); ("version", JStr "1.0.0")]] /\
          same_value_zero (get q "id") (get p "id") = true /\
          truthy (get q "version") = true /\
          strict_equal false (get q "version") (get p "version") = true.
Proof.
  apply (changed_plugins_exact
           (mkWorld
              (Reconcile.registry_disk
                 (mkDocument (Some [[("id", JStr "a"); ("version", JStr "1.0.0")];
                                    [("id", JStr "b"); ("version", JStr "2.0.0")];
                                    [("id", JStr "c"); ("version", JStr "0.1.0")]]) []))
              (Some (JSONDoc
                 (mkDocument (Some [[("id", JStr "a"); ("version", JStr "1.0.0")];
                                    [("id", JStr "b"); ("version", JStr "1.0.0")]]) [])))
              [])
           (mkDocument (Some [[("id", JStr "a"); ("version", JStr "1.0.0")];
                              [("id", JStr "b"); ("version", JStr "2.0.0")];
                              [("id", JStr "c"); ("version", JStr "0.1.0")]]) [])
           (mkDocument (Some [[("id", JStr "a"); ("version", JStr "1.0.0")];
                              [("id", JStr "b"); ("version", JStr "1.0.0")]]) [])).
  - reflexivity.
  - reflexivity.
  - reflexivity.
  - reflexivity.
  - ids_unique_by_cases.
Defined.

(** *** The lines of a file *)

Import RequestFacts.

Lemma split_on_length (sep : ascii) (s : string) :
  length (Reconcile.split_on sep s) =
    S (count_occ ascii_dec (list_ascii_of_string s) sep).
Proof.
  induction s as [|c rest IH]; [reflexivity|].
  cbn [Reconcile.split_on list_ascii_of_string count_occ].
  destruct (Ascii.eqb_spec c sep) as [->|Hne].
  - destruct (ascii_dec sep sep); [|contradiction]. simpl. now rewrite IH.
  - destruct (ascii_dec c sep); [contradiction|].
    destruct (Reconcile.split_on sep rest); simpl in *; [discriminate|assumption].
Qed.

Lemma split_on_pieces (sep : ascii) (s : string) :
  Forall (fun piece => ~ In sep (list_ascii_of_string piece)) (Reconcile.split_on sep s).
Proof.
  induction s as [|c rest IH]; simpl.
  - constructor; [intros []|constructor].
  - destruct (Ascii.eqb_spec c sep) as [->|Hne].
    + constructor; [intros []|assumption].
    + destruct (Reconcile.split_on sep rest) as [|h t].
      * constructor; [|constructor]. simpl. intros [H|[]]. congruence.
      * inversion IH; subst. constructor; [|assumption].
        simpl. intros [H|H]; [congruence|contradiction].
Qed.

Lemma split_on_app (sep : ascii) (a b : string) :
  Reconcile.split_on sep (a +:+ String sep b) =
    Reconcile.split_on sep a ++ Reconcile.split_on sep b.
Proof.
  induction a as [|c a IH].
  - change ("" +:+ String sep b) with (String sep b). simpl.
    now rewrite Ascii.eqb_refl.
  - rewrite string_app_cons. simpl. rewrite IH.
    destruct (Ascii.eqb c sep); [reflexivity|].
    pose proof (split_on_length sep a) as Hlen.
    destruct (Reconcile.split_on sep a); [discriminate|reflexivity].
Qed.

(** *** The risks of a file *)

Lemma In_checks (lv : level) (ps : list pattern) (fileName : string) (n : nat)
    (text : string) (r : risk) :
  In r (checks lv ps fileName n text) <->
  exists p, In p ps /\ regex p text = true /\
            r = mkRisk lv (name p) fileName n (substring 0 100 (trim text)).
Proof.
  unfold checks. rewrite in_flat_map. split.
  - intros (p & Hp & Hr). exists p. destruct (regex p text); [|destruct Hr].
    destruct Hr as [<-|[]]. auto.
  - intros (p & Hp & Ht & ->). exists p. rewrite Ht. split; [assumption|now left].
Qed.

Lemma In_scan_line (fileName : string) (i : nat) (text : string) (r : risk) :
  In r (scan_line fileName i text) <->
  exists lv p,
    (lv = HIGH /\ In p PATTERNS_high \/ lv = MEDIUM /\ In p PATTERNS_medium) /\
    regex p text = true /\
    r = mkRisk lv (name p) fileName (S i) (substring 0 100 (trim text)).
Proof.
  unfold scan_line. rewrite in_app_iff, !In_checks.
  replace (i + 1)%nat with (S i) by lia. split.
  - intros [(p & Hp & Ht & ->) | (p & Hp & Ht & ->)]; eauto 10.
  - intros (lv & p & [[-> Hp] | [-> Hp]] & Ht & ->); eauto 10.
Qed.

Lemma In_scanFile (fileName content : string) (r : risk) :
  In r (scanFile fileName content) <->
  exists i text,
    Reconcile.split_on "010" content !! i = Some text /\
    In r (scan_line fileName i text).
Proof.
  unfold scanFile. rewrite in_concat. split.
  - intros (l & Hl & Hr). apply list_elem_of_In, elem_of_lookup_imap_1 in Hl.
    destruct Hl as (i & text & -> & Hi). eauto.
  - intros (i & text & Hi & Hr). exists (scan_line fileName i text).
    split; [|assumption].
    apply list_elem_of_In. now apply elem_of_lookup_imap_2.
Qed.

Lemma substring_length (n : nat) (s : string) :
  (String.length (substring 0 n s) <= n)%nat.
Proof.
  revert s. induction n as [|n IH]; intros [|c s]; simpl; try lia.
  specialize (IH s). lia.
Qed.

Lemma pattern_names (p : pattern) :
  In p PATTERNS_high \/ In p PATTERNS_medium ->
  ~ In (name p) (map name PATTERNS_low).
Proof.
  unfold PATTERNS_high, PATTERNS_medium, PATTERNS_low. simpl.
  intros [H|H]; repeat (destruct H as [<-|H]; [simpl; intuition discriminate|]);
    destruct H.
Qed.

(** X24.  What a risk of [scanFile] is: it names the file, a line of the
    content (counted from 1) and at most the first 100 characters of that
    line without the white space around it; it is HIGH with one of the high
    patterns or MEDIUM with one of the medium patterns, and never one of the
    low patterns, which are not used. *)
Theorem scanFile_risks (fileName content : string) (r : risk) :
  In r (scanFile fileName content) ->
  file r = fileName /\
  (1 <= line r <= S (count_occ ascii_dec (list_ascii_of_string content) "010"%char))%nat /\
  (exists text,
     Reconcile.split_on "010" content !! (line r - 1)%nat = Some text /\
     code r = substring 0 100 (trim text)) /\
  (String.length (code r) <= 100)%nat /\
  (risk_level r = HIGH /\ In (type r) (map name PATTERNS_high) \/
   risk_level r = MEDIUM /\ In (type r) (map name PATTERNS_medium)) /\
  ~ In (type r) (map name PATTERNS_low).
Proof.
  intros H. apply In_scanFile in H as (i & text & Hi & H).
  apply In_scan_line in H as (lv & p & Hp & _ & ->). cbn [file line code type risk_level].
  split; [reflexivity|]. split.
  - apply lookup_lt_Some in Hi. rewrite split_on_length in Hi. lia.
  - split.
    + exists text. split; [|reflexivity].
      now replace (S i - 1)%nat with i by lia.
    + split; [apply substring_length|]. split.
      * destruct Hp as [[-> Hp] | [-> Hp]]; [left|right];
          (split; [reflexivity|now apply in_map]).
      * apply pattern_names. tauto.
Qed.

Lemma scanFile_risks_witness :
  file (mkRisk MEDIUM "Process Exit" "index.js" 2 "process.exit(1);") = "index.js" /\
  (1 <= line (mkRisk MEDIUM "Process Exit" "index.js" 2 "process.exit(1);") <=
   S (count_occ ascii_dec
        (list_ascii_of_string ("let a = 1;" +:+ String "010" "  process.exit(1);  "))
        "010"%char))%nat /\
  (exists text,
     Reconcile.split_on "010" ("let a = 1;" +:+ String "010" "  process.exit(1);  ")
       !! (line (mkRisk MEDIUM "Process Exit" "index.js" 2 "process.exit(1);") - 1)%nat =
       Some text /\
     code (mkRisk MEDIUM "Process Exit" "index.js" 2 "process.exit(1);") =
       substring 0 100 (trim text)) /\
  (String.length (code (mkRisk MEDIUM "Process Exit" "index.js" 2 "process.exit(1);"))
   <= 100)%nat /\
  (risk_level (mkRisk MEDIUM "Process Exit" "index.js" 2 "process.exit(1);") = HIGH /\
   In (type (mkRisk MEDIUM "Process Exit" "index.js" 2 "process.exit(1);"))
      (map name PATTERNS_high) \/
   risk_level (mkRisk MEDIUM "Process Exit" "index.js" 2 "process.exit(1);") = MEDIUM /\
   In (type (mkRisk MEDIUM "Process Exit" "index.js" 2 "process.exit(1);"))
      (map name PATTERNS_medium)) /\
  ~ In (type (mkRisk MEDIUM "Process Exit" "index.js" 2 "process.exit(1);"))
       (map name PATTERNS_low).
Proof.
  apply (scanFile_risks "index.js"
           ("let a = 1;" +:+ String "010" "  process.exit(1);  ")
           (mkRisk MEDIUM "Process Exit" "index.js" 2 "process.exit(1);")).
  vm_compute. left. reflexivity.
Defined.

Lemma pattern_name_inj (p p' : pattern) :
  In p (PATTERNS_high ++ PATTERNS_medium) ->
  In p' (PATTERNS_high ++ PATTERNS_medium) ->
  name p = name p' -> p = p'.
Proof.
  unfold PATTERNS_high, PATTERNS_medium. simpl.
  intros H H'.
  repeat (destruct H as [<-|H]);
    try (destruct H);
    repeat (destruct H' as [<-|H']); try (destruct H');
    simpl; intros E; try reflexivity; discriminate E.
Qed.

Lemma reported_line (fileName content : string) (p : pattern) (i : nat) :
  In p (PATTERNS_high ++ PATTERNS_medium) ->
  (exists r, In r (scanFile fileName content) /\ type r = name p /\ line r = S i) <->
  (exists text, Reconcile.split_on "010" content !! i = Some text /\
                regex p text = true).
Proof.
  intros Hp. split.
  - intros (r & Hr & Hty & Hline).
    apply In_scanFile in Hr as (i' & text & Hi & Hr).
    apply In_scan_line in Hr as (lv & p' & Hp' & Ht & ->).
    cbn [type line] in *. injection Hline as ->.
    assert (p' = p) as ->.
    { apply pattern_name_inj; [|assumption|assumption].
      apply in_or_app. tauto. }
    eauto.
  - intros (text & Hi & Ht). apply in_app_or in Hp.
    assert (exists lv, lv = HIGH /\ In p PATTERNS_high \/
                       lv = MEDIUM /\ In p PATTERNS_medium) as [lv Hlv]
      by (destruct Hp; [exists HIGH|exists MEDIUM]; auto).
    exists (mkRisk lv (name p) fileName (S i) (substring 0 100 (trim text))).
    split; [|split; reflexivity].
    apply In_scanFile. exists i, text. split; [assumption|].
    apply In_scan_line. exists lv, p. auto.
Qed.

(** X25.  Detection is exact and per line: for each of the high and medium
    patterns, a risk with its name is reported for a line exactly when the
    expression of the pattern matches that line; a file has no risk
    exactly when no such expression matches any of its lines. *)
Theorem scanFile_reports_exactly (fileName content : string) :
  (forall p i,
     In p (PATTERNS_high ++ PATTERNS_medium) ->
     ((exists r, In r (scanFile fileName content) /\ type r = name p /\ line r = S i) <->
      (exists text, Reconcile.split_on "010" content !! i = Some text /\
                    regex p text = true))) /\
  (scanFile fileName content = [] <->
   forall p i text,
     In p (PATTERNS_high ++ PATTERNS_medium) ->
     Reconcile.split_on "010" content !! i = Some text -> regex p text = false).
Proof.
  split; [intros p i Hp; now apply reported_line|]. split.
  - intros Hnil p i text Hp Hi.
    destruct (regex p text) eqn:Ht; [|reflexivity]. exfalso.
    destruct (proj2 (reported_line fileName content p i Hp)) as (r & Hr & _); [eauto|].
    rewrite Hnil in Hr. destruct Hr.
  - intros Hno. destruct (scanFile fileName content) as [|r l] eqn:E; [reflexivity|].
    assert (Hr : In r (scanFile fileName content)) by (rewrite E; now left).
    apply In_scanFile in Hr as (i & text & Hi & Hr).
    apply In_scan_line in Hr as (lv & p & Hp & Ht & _).
    rewrite (Hno p i text) in Ht; [discriminate| |assumption].
    apply in_or_app. tauto.
Qed.

(** *** What the expressions match *)

Lemma prefix_app (pat s : string) :
  String.prefix pat s = true <-> exists after, s = pat +:+ after.
Proof.
  revert s. induction pat as [|a pat IH]; intros s.
  - split; [intros _; now exists s|intros _; now destruct s].
  - destruct s as [|b s]; simpl.
    + split; [discriminate|]. intros (after & H). rewrite string_app_cons in H.
      discriminate.
    + destruct (ascii_dec a b) as [->|Hne].
      * rewrite IH. split; intros (after & H); exists after.
        -- rewrite string_app_cons. now rewrite H.
        -- rewrite string_app_cons in H. now injection H.
      * split; [discriminate|]. intros (after & H). rewrite string_app_cons in H.
        injection H as H _. congruence.
Qed.

Lemma contains_occurs (pat s : string) :
  contains pat s = true <-> occurs pat s.
Proof.
  unfold occurs. induction s as [|c s IH]; cbn [contains].
  - rewrite prefix_app. split.
    + intros (after & H). now exists "", after.
    + intros (before & after & H). exists after.
      destruct before; [exact H|]. rewrite string_app_cons in H. discriminate.
  - rewrite orb_true_iff, IH, prefix_app. split.
    + intros [(after & H) | (before & after & H)].
      * now exists "", after.
      * exists (String c before), after. rewrite string_app_cons. now rewrite H.
    + intros (before & after & H). destruct before as [|b before].
      * left. now exists after.
      * right. rewrite string_app_cons in H. injection H as _ H. eauto.
Qed.

(** X26.  The expressions that are alternations of literal texts test for a
    part of the line: such a pattern matches exactly when one of its texts
    occurs somewhere in the line, whatever is around it. *)
Theorem any_of_occurs (pats : list string) (s : string) :
  any_of pats s = true <-> exists pat, In pat pats /\ occurs pat s.
Proof.
  unfold any_of. rewrite existsb_exists.
  split; intros (pat & Hin & H); exists pat; (split; [assumption|]);
    now apply contains_occurs.
Qed.

Lemma hex_name_at_spec (s : string) :
  hex_name_at s = true <->
  exists a b c d after,
    s = "_0x" +:+ String a (String b (String c (String d after))) /\
    is_hex a = true /\ is_hex b = true /\ is_hex c = true /\ is_hex d = true.
Proof.
  split.
  - destruct s as [|c1 [|c2 [|c3 [|a [|b [|c [|d after]]]]]]]; try discriminate.
    unfold hex_name_at. rewrite !andb_true_iff.
    intros [[[[[[H1 H2] H3] Ha] Hb] Hc] Hd].
    apply Ascii.eqb_eq in H1, H2, H3. subst.
    now exists a, b, c, d, after.
  - intros (a & b & c & d & after & -> & Ha & Hb & Hc & Hd).
    cbv [append hex_name_at]. now rewrite Ha, Hb, Hc, Hd.
Qed.

(** X27.  The expression for obfuscated names matches exactly when the line
    has [_0x] followed by four characters that are decimal digits or lower
    case letters from [a] to [f]. *)
Theorem has_hex_name_occurs (s : string) :
  has_hex_name s = true <->
  exists before a b c d after,
    s = before +:+ "_0x" +:+ String a (String b (String c (String d after))) /\
    is_hex a = true /\ is_hex b = true /\ is_hex c = true /\ is_hex d = true.
Proof.
  induction s as [|c0 s IH].
  - split; [discriminate|].
    intros (before & a & b & c & d & after & H & _).
    destruct before; discriminate H.
  - cbn [has_hex_name]. rewrite orb_true_iff, IH, hex_name_at_spec. split.
    + intros [(a & b & c & d & after & H & Hh) |
              (before & a & b & c & d & after & H & Hh)].
      * now exists "", a, b, c, d, after.
      * exists (String c0 before), a, b, c, d, after.
        rewrite string_app_cons. now rewrite H.
    + intros (before & a & b & c & d & after & H & Hh).
      destruct before as [|b0 before].
      * left. now exists a, b, c, d, after.
      * right. rewrite string_app_cons in H. injection H as _ H.
        now exists before, a, b, c, d, after.
Qed.

Lemma has_run_length (need run : nat) (text : string) :
  (forall c, In c (list_ascii_of_string text) -> is_line_terminator c = false) ->
  has_run need run text = (need <=? run + String.length text)%nat.
Proof.
  revert run. induction text as [|c text IH]; intros run H.
  - cbn [has_run String.length]. rewrite Nat.add_0_r.
    now destruct (need <=? run)%nat.
  - cbn [has_run String.length].
    destruct (Nat.leb_spec need run) as [Hle|Hgt].
    + symmetry. apply Nat.leb_le. lia.
    + rewrite (H c) by now left.
      rewrite IH by (intros c' Hc'; apply H; now right).
      f_equal. lia.
Qed.

(** X28.  The long line rule counts from 1000: for a line of characters
    below U+0100 (the text this model covers, in which the line feed and the
    carriage return are the only characters [.] does not match) that has no
    carriage return, the risk "Minified/Obfuscated Line" is reported exactly
    when the line has at least 1000 characters. *)
Theorem long_line_reported (fileName content : string) (i : nat) (text : string) :
  Reconcile.split_on "010" content !! i = Some text ->
  ~ In "013"%char (list_ascii_of_string text) ->
  (exists r, In r (scanFile fileName content) /\
             type r = "Minified/Obfuscated Line" /\ line r = S i) <->
  (1000 <= String.length text)%nat.
Proof.
  intros Hi Hcr.
  destruct (reported_line fileName content
              (mkPattern "Minified/Obfuscated Line" (has_run 1000 0)) i) as [H1 H2].
  { unfold PATTERNS_high. simpl. tauto. }
  assert (Hrun : has_run 1000 0 text = (1000 <=? String.length text)%nat).
  { apply (has_run_length 1000 0 text). intros c Hc.
    unfold is_line_terminator. apply orb_false_iff. split.
    - apply Ascii.eqb_neq. intros ->.
      pose proof (split_on_pieces "010" content) as Hall.
      rewrite Forall_forall in Hall.
      apply (Hall text); [|assumption].
      eapply list_elem_of_lookup_2. exact Hi.
    - apply Ascii.eqb_neq. intros ->. contradiction. }
  split.
  - intros H. destruct (H1 H) as (text' & Hi' & Ht).
    rewrite Hi in Hi'. injection Hi' as <-. cbn [regex] in Ht.
    rewrite Hrun in Ht. now apply Nat.leb_le.
  - intros H. apply H2. exists text. split; [assumption|]. cbn [regex].
    rewrite Hrun. now apply Nat.leb_le.
Qed.

Lemma long_line_reported_witness :
  (exists r, In r (scanFile "index.js" (string_of_list_ascii (repeat "a"%char 1000))) /\
             type r = "Minified/Obfuscated Line" /\ line r = 1%nat) <->
  (1000 <= String.length (string_of_list_ascii (repeat "a"%char 1000)))%nat.
Proof.
  apply (long_line_reported "index.js" (string_of_list_ascii (repeat "a"%char 1000))
           0 (string_of_list_ascii (repeat "a"%char 1000))).
  - vm_compute. reflexivity.
  - rewrite list_ascii_of_string_of_list_ascii. intros H.
    apply repeat_spec in H. discriminate H.
Defined.

Lemma checks_shift (lv : level) (ps : list pattern) (fileName : string) (k n : nat)
    (text : string) :
  checks lv ps fileName (k + n) text =
    map (fun r => mkRisk (risk_level r) (type r) (file r) (k + line r) (code r))
        (checks lv ps fileName n text).
Proof.
  unfold checks. induction ps as [|p ps IH]; [reflexivity|].
  cbn [flat_map]. rewrite map_app, IH. f_equal.
  now destruct (regex p text).
Qed.

Lemma scan_line_shift (fileName : string) (k i : nat) (text : string) :
  scan_line fileName (k + i) text =
    map (fun r => mkRisk (risk_level r) (type r) (file r) (k + line r) (code r))
        (scan_line fileName i text).
Proof.
  unfold scan_line. rewrite map_app.
  replace (k + i + 1)%nat with (k + (i + 1))%nat by lia.
  now rewrite !checks_shift.
Qed.

(** X29.  Scanning is line by line: the risks of two texts joined by a line
    feed are the risks of the first followed by the risks of the second,
    with the line numbers of the second moved by the number of lines of the
    first. *)
Theorem scanFile_lines_compose (fileName a b : string) :
  scanFile fileName (a +:+ String "010" b) =
    scanFile fileName a ++
    map (fun r =>
           mkRisk (risk_level r) (type r) (file r)
             (S (count_occ ascii_dec (list_ascii_of_string a) "010"%char) + line r)
             (code r))
        (scanFile fileName b).
Proof.
  unfold scanFile. rewrite split_on_app, imap_app, concat_app. f_equal.
  rewrite split_on_length, concat_map.
  change (map ?f (imap ?g ?l)) with (f <$> imap g l). rewrite fmap_imap.
  f_equal. apply imap_ext. intros i text _. apply scan_line_shift.
Qed.

End ScanFacts.
